(** * ncstream: frame reader and array materializer of siphon.cdmr.ncstream

    A shallow embedding of [siphon/cdmr/ncstream.py].  The file object is
    the list of bytes still to be read; Python exceptions are values of
    [exn]; the logger is the list of records it emitted. *)

From Stdlib Require Import ZArith NArith Ascii String.
From Stdlib.Strings Require Import Byte.
From stdpp Require Import base numbers list strings pretty.

Local Open Scope Z_scope.

(** ** Bytes *)

Abbreviation bytes := (list byte).

(** [ord(b)] of a one-byte [bytes] value. *)
Definition ord (b : byte) : Z := Z.of_N (Byte.to_N b).

(** ** Exceptions

    The exceptions the module can raise, named as Python raises them.
    [TypeError_ord] is [ord(b'')], the way a source that ends inside a
    varint shows up (the specification's StreamTruncated);
    [AssertionError] is the failed length assertion after inflating and
    [ValueError_reshape] the failed reshape (CorruptedPayload);
    [NotImplementedError_compress] is UnsupportedCompression and
    [NotImplementedError_datatype] is UnsupportedDataType.
    [OverflowError] is [read] refusing a count that is no C size;
    [ValueError_dtype] is [np.dtype] refusing an item width that is no C
    int; [ValueError_inhomogeneous] is [np.array] refusing arrays of
    different lengths. *)
Inductive exn :=
| TypeError_ord
| TypeError_buffer
| AttributeError
| KeyError
| IndexError
| DecodeError
| ZlibError
| AssertionError
| OverflowError
| ValueError_frombuffer
| ValueError_fromstring
| ValueError_reshape
| ValueError_dtype
| ValueError_inhomogeneous
| TypeError_dtype
| NotImplementedError_compress
| NotImplementedError_datatype
| RuntimeError (msg : string).

(** Result of a pure computation that may raise. *)
Inductive result (A : Type) :=
| Done (a : A)
| Throw (e : exn).
Arguments Done {A} a.
Arguments Throw {A} e.

Definition rbind {A B} (r : result A) (k : A -> result B) : result B :=
  match r with
  | Done a => k a
  | Throw e => Throw e
  end.

(** ** VarintReader *)

(** The [while True] loop of [read_var_int]: [file_obj.read(1)] takes the
    head of the remaining bytes; at the end of the source it returns
    [b''] and [ord] raises. *)
Fixpoint read_var_int_loop (file_obj : bytes) (val shift : Z)
  : result (Z * bytes) :=
  match file_obj with
  | [] => Throw TypeError_ord
  | b :: rest =>
      let next_val := ord b in
      let val := Z.lor (Z.shiftl (Z.land next_val 0x7F) shift) val in
      let shift := shift + 7 in
      if Z.land next_val 0x80 =? 0 then Done (val, rest)
      else read_var_int_loop rest val shift
  end.

Definition read_var_int (file_obj : bytes) : result (Z * bytes) :=
  read_var_int_loop file_obj 0 0.

(** *** The encoding, as the specification words it

    The source has no encoder.  These follow the specification: a byte
    contributes its low seven bits shifted left by seven times its index,
    and the high bit of a byte says that another byte follows. *)

(** The byte of a number below 256. *)
Definition chr (z : Z) : byte :=
  match Byte.of_N (Z.to_N z) with
  | Some b => b
  | None => x00
  end.

Fixpoint encode_fuel (fuel : nat) (n : Z) : bytes :=
  match fuel with
  | O => []
  | S fuel =>
      if n <? 128 then [chr n]
      else chr (Z.lor (Z.land n 0x7F) 0x80) :: encode_fuel fuel (Z.shiftr n 7)
  end.

(** Base-128 encoding of a non-negative number, least significant group
    first. *)
Definition encode_var_int (n : Z) : bytes :=
  encode_fuel (S (Z.to_nat (Z.log2 n))) n.

(** The value of the bytes from index [i] on. *)
Fixpoint varint_value (i : nat) (bs : bytes) : Z :=
  match bs with
  | [] => 0
  | b :: rest =>
      Z.lor (Z.shiftl (Z.land (ord b) 0x7F) (7 * Z.of_nat i))
            (varint_value (S i) rest)
  end.

Definition high_bit_set (b : byte) : Prop := Z.land (ord b) 0x80 <> 0.

(** ** Element encodings (the part of numpy's dtype the module uses) *)

Inductive byteorder :=
| Native         (* '=' *)
| Little         (* '<' *)
| Big            (* '>' *)
| NotApplicable  (* '|' *).

Inductive kind :=
| KInt      (* signed integer: 'b', 'i2', 'i4', 'i8' *)
| KUInt     (* unsigned integer: 'B', 'u2', 'u4', 'u8' *)
| KFloat    (* 'f4', 'f8' *)
| KString   (* 'S1' *)
| KVoid     (* np.void of a given width *)
| KObject   (* 'O' *).

Local Set Warnings "-register-all".

(** A dtype descriptor records the byte order it was asked for, the kind
    and the width in bytes; a structured dtype is its list of fields. *)
Inductive dtype :=
| DBasic (order : byteorder) (k : kind) (width : N)
| DStruct (fields : list (string * dtype)).

Global Instance byteorder_eq_dec : EqDecision byteorder.
Proof. solve_decision. Defined.
Global Instance kind_eq_dec : EqDecision kind.
Proof. solve_decision. Defined.

(** The type codes [np.dtype] is given in this module. *)
Definition type_code (s : string) : option (kind * N) :=
  if String.eqb s "b" then Some (KInt, 1%N)
  else if String.eqb s "B" then Some (KUInt, 1%N)
  else if String.eqb s "i1" then Some (KInt, 1%N)
  else if String.eqb s "i2" then Some (KInt, 2%N)
  else if String.eqb s "i4" then Some (KInt, 4%N)
  else if String.eqb s "i8" then Some (KInt, 8%N)
  else if String.eqb s "u1" then Some (KUInt, 1%N)
  else if String.eqb s "u2" then Some (KUInt, 2%N)
  else if String.eqb s "u4" then Some (KUInt, 4%N)
  else if String.eqb s "u8" then Some (KUInt, 8%N)
  else if String.eqb s "f4" then Some (KFloat, 4%N)
  else if String.eqb s "f8" then Some (KFloat, 8%N)
  else if String.eqb s "S1" then Some (KString, 1%N)
  else if String.eqb s "O" then Some (KObject, 8%N)
  else None.

Definition order_char (c : ascii) : option byteorder :=
  if Ascii.eqb c "=" then Some Native
  else if Ascii.eqb c "<" then Some Little
  else if Ascii.eqb c ">" then Some Big
  else if Ascii.eqb c "|" then Some NotApplicable
  else None.

(** [np.dtype(s)] for a string: an optional byte-order character, then
    a type code. *)
Definition np_dtype (s : string) : result dtype :=
  let '(o, code) :=
    match s with
    | String c rest =>
        match order_char c with
        | Some o => (o, rest)
        | None => (Native, s)
        end
    | EmptyString => (Native, s)
    end in
  match type_code code with
  | Some (k, w) => Done (DBasic o k w)
  | None => Throw TypeError_dtype
  end.

(** The largest item width [np.dtype] takes: the item size is a C int. *)
Definition max_itemsize : N := 2147483647.

(** [np.dtype([(name, np.void, width)])]: a record of one opaque field,
    which has no byte order.  A width above [max_itemsize] is refused. *)
Definition np_dtype_void_field (name : string) (width : N) : result dtype :=
  if (max_itemsize <? width)%N then Throw ValueError_dtype
  else Done (DStruct [(name, DBasic NotApplicable KVoid width)]).

(** Whether items of this kind and width have a byte order: numbers of
    more than one byte have, single bytes, strings, voids and object
    references have none. *)
Definition has_byteorder (k : kind) (w : N) : bool :=
  match k with
  | KInt | KUInt | KFloat => (1 <? w)%N
  | KString | KVoid | KObject => false
  end.

(** [dt.newbyteorder(endian)]: the order is set where there is one; an
    item without a byte order stays at ['|']. *)
Fixpoint newbyteorder (endian : byteorder) (dt : dtype) : dtype :=
  match dt with
  | DBasic _ k w =>
      DBasic (if has_byteorder k w then endian else NotApplicable) k w
  | DStruct fields =>
      DStruct (map (fun f => (fst f, newbyteorder endian (snd f))) fields)
  end.

(** [dt.itemsize]. *)
Fixpoint itemsize (dt : dtype) : N :=
  match dt with
  | DBasic _ _ w => w
  | DStruct fields =>
      fold_right (fun f acc => (itemsize (snd f) + acc)%N) 0%N fields
  end.

(** Whether the dtype holds Python object references. *)
Fixpoint has_object (dt : dtype) : bool :=
  match dt with
  | DBasic _ k _ => bool_decide (k = KObject)
  | DStruct fields => existsb (fun f => has_object (snd f)) fields
  end.

(** The byte order the descriptor carries: for a record, the order of
    its fields when they agree. *)
Definition dtype_order (dt : dtype) : option byteorder :=
  match dt with
  | DBasic o _ _ => Some o
  | DStruct [] => None
  | DStruct ((_, DBasic o _ _) :: fields) =>
      if forallb (fun f => match snd f with
                           | DBasic o' _ _ => bool_decide (o' = o)
                           | DStruct _ => false
                           end) fields
      then Some o else None
  | DStruct _ => None
  end.

(** ** Schema enumerations

    The schema classes live in the generated module [ncStream_pb2],
    which is not among the sources; the module under study only uses
    their names. *)

(** Modelled from the spec: the enum [stream.DataType] of
    [ncStream_pb2].  The constructors are the names the source uses and
    the data model of the specification lists; a code outside the known
    set is [DataType_unknown]. *)
Inductive DataType :=
| CHAR | BYTE | SHORT | INT | LONG | FLOAT | DOUBLE | STRING
| STRUCTURE | SEQUENCE | ENUM1 | ENUM2 | ENUM4 | OPAQUE
| DataType_unknown (code : Z).

Global Instance DataType_eq_dec : EqDecision DataType.
Proof. solve_decision. Defined.

(** Modelled from the spec: the enum [stream.Compress] of
    [ncStream_pb2], which the data model gives as NONE, DEFLATE or
    another code. *)
Inductive Compress :=
| NONE | DEFLATE
| Compress_unknown (code : Z).

Global Instance Compress_eq_dec : EqDecision Compress.
Proof. solve_decision. Defined.

(** ** TypeMapper *)

(** The dict [_dtypeLookup]; [None] is a missing key. *)
Definition _dtypeLookup (datatype : DataType) : option string :=
  match datatype with
  | CHAR => Some "S1"%string
  | BYTE => Some "b"%string
  | SHORT => Some "i2"%string
  | INT => Some "i4"%string
  | LONG => Some "i8"%string
  | FLOAT => Some "f4"%string
  | DOUBLE => Some "f8"%string
  | STRING => Some "O"%string
  | ENUM1 => Some "B"%string
  | ENUM2 => Some "u2"%string
  | ENUM4 => Some "u4"%string
  | OPAQUE => Some "O"%string
  | STRUCTURE | SEQUENCE | DataType_unknown _ => None
  end.

(** [s.replace(old, new)] for one-character [old] and [new]. *)
Fixpoint str_replace (old new : ascii) (s : string) : string :=
  match s with
  | EmptyString => EmptyString
  | String c rest =>
      String (if Ascii.eqb c old then new else c) (str_replace old new rest)
  end.

Definition data_type_to_numpy (datatype : DataType) (unsigned : bool)
  : result dtype :=
  match _dtypeLookup datatype with
  | None => Throw KeyError
  | Some basic_type =>
      if bool_decide (datatype = STRING) || bool_decide (datatype = OPAQUE)
      then np_dtype basic_type
      else
        let basic_type :=
          if unsigned then str_replace "i" "u" basic_type else basic_type in
        np_dtype (String "=" basic_type)
  end.

(** ** Arrays (the part of numpy's ndarray the module uses) *)

(** One decoded element: an integer, the bit pattern of a float of the
    dtype's width, or the stored bytes of a string, void or record
    item. *)
Inductive elem :=
| EInt (z : Z)
| EFloat (bits : Z)
| ERaw (stored : bytes).

Record ndarray := {
  arr_dtype : dtype;
  arr_shape : list N;
  arr_data : list elem
}.

(** [count] consecutive pieces of [width] items each. *)
Fixpoint chunks {A} (width count : nat) (l : list A) : list (list A) :=
  match count with
  | O => []
  | S count' => take width l :: chunks width count' (drop width l)
  end.

(** Most significant byte first. *)
Definition be_value (c : bytes) : Z :=
  fold_left (fun acc b => acc * 256 + ord b) c 0.

Definition shape_size (shape : list N) : N :=
  fold_right N.mul 1%N shape.

(** A nested Python list, as [ndarray.tolist()] gives it. *)
Inductive pylist :=
| PyItem (e : elem)
| PyList (l : list pylist).

Fixpoint nested (shape : list N) (data : list elem) : pylist :=
  match shape with
  | [] => match data with
          | e :: _ => PyItem e
          | [] => PyList []
          end
  | n :: shape' =>
      PyList (map (nested shape')
                  (chunks (N.to_nat (shape_size shape')) (N.to_nat n) data))
  end.


Section Numpy.
(** Byte order of the host, which ['='] and ['|'] stand for. *)
Variable host_big_endian : bool.

Definition is_big (o : byteorder) : bool :=
  match o with
  | Big => true
  | Little => false
  | Native | NotApplicable => host_big_endian
  end.

Definition unsigned_value (o : byteorder) (c : bytes) : Z :=
  if is_big o then be_value c else be_value (rev c).

(** Two's complement. *)
Definition signed_value (o : byteorder) (c : bytes) : Z :=
  let v := unsigned_value o c in
  let m := 2 ^ (8 * Z.of_nat (length c)) in
  if v <? m / 2 then v else v - m.

Definition decode_item (dt : dtype) (c : bytes) : elem :=
  match dt with
  | DBasic o KInt _ => EInt (signed_value o c)
  | DBasic o KUInt _ => EInt (unsigned_value o c)
  | DBasic o KFloat _ => EFloat (unsigned_value o c)
  | DBasic _ _ _ => ERaw c
  | DStruct _ => ERaw c
  end.

(** [np.frombuffer(buf, dtype=dt)]: a one-dimensional view; refuses
    object dtypes, zero-width items and a buffer that is not a whole
    number of items. *)
Definition frombuffer (buf : bytes) (dt : dtype) : result ndarray :=
  let w := itemsize dt in
  if has_object dt then Throw ValueError_frombuffer
  else if (w =? 0)%N then Throw ValueError_frombuffer
  else
    let len := N.of_nat (length buf) in
    if negb (len mod w =? 0)%N then Throw ValueError_frombuffer
    else
      let n := (len / w)%N in
      Done {| arr_dtype := dt;
              arr_shape := [n];
              arr_data := map (decode_item dt)
                              (chunks (N.to_nat w) (N.to_nat n) buf) |}.

(** [np.fromstring(s, dtype=dt, count=count)] in binary mode with a
    non-negative count: the first [count] items; fails when the string
    is shorter than that. *)
Definition fromstring (s : bytes) (dt : dtype) (count : N)
  : result ndarray :=
  let w := itemsize dt in
  if has_object dt then Throw ValueError_fromstring
  else if (w =? 0)%N then Throw ValueError_fromstring
  else if (N.of_nat (length s) <? count * w)%N
       then Throw ValueError_fromstring
  else
    Done {| arr_dtype := dt;
            arr_shape := [count];
            arr_data := map (decode_item dt)
                            (chunks (N.to_nat w) (N.to_nat count) s) |}.
End Numpy.

(** [ret.reshape( *shape )] for unsigned extents: the same items in the
    same order under a new shape of the same total size. *)
Definition reshape (ret : ndarray) (shape : list N) : result ndarray :=
  if (shape_size shape =? N.of_nat (length (arr_data ret)))%N
  then Done {| arr_dtype := arr_dtype ret;
               arr_shape := shape;
               arr_data := arr_data ret |}
  else Throw ValueError_reshape.

(** ** Schema messages *)

(** Modelled from the spec: an entry of [section.range] of
    [ncStream_pb2], with the one field [size] the data model gives
    it. *)
Record Range := { r_size : N }.

Module Data.
(** Modelled from the spec: the message [stream.Data] of [ncStream_pb2],
    with the fields of the DataHeader of the data model; [section_range]
    is [section.range]. *)
Record t := {
  dataType : DataType;
  compress : Compress;
  bigend : bool;
  vdata : bool;
  section_range : list Range;
  uncompressedSize : N
}.
End Data.

Module StructureData.
(** Modelled from the spec: the message [stream.StructureData] of
    [ncStream_pb2], with the two fields of the data model that the
    module reads. *)
Record t := {
  data : bytes;
  rowLength : N
}.
End StructureData.

Module Attribute.
(** Modelled from the spec: the enum [stream.Attribute.Type] of
    [ncStream_pb2]: STRING, the six codes that have a converter, and
    any other code. *)
Inductive Type' :=
| STRING | BYTE | SHORT | INT | LONG | FLOAT | DOUBLE
| Type_unknown (code : Z).

(** Modelled from the spec: the message [stream.Attribute] of
    [ncStream_pb2], with the fields of the data model.  The module
    indexes [sdata], so it is a Python sequence; its items have type
    [item] (the characters of a text, or the strings of a repeated
    field). *)
Record t (item : Type) := {
  name : string;
  type : Type';
  len : N;
  data : bytes;
  sdata : list item;
  unsigned : bool
}.
Arguments name {item} _.
Arguments type {item} _.
Arguments len {item} _.
Arguments data {item} _.
Arguments sdata {item} _.
Arguments unsigned {item} _.
End Attribute.

Global Instance Attribute_Type_eq_dec : EqDecision Attribute.Type'.
Proof. solve_decision. Defined.

(** ** ArrayMaterializer *)

(** The second argument of [make_array]: bytes or a StructureData. *)
Inductive payload :=
| Bytes (b : bytes)
| Struct (sd : StructureData.t).

(** What [zlib.decompress] and [bytearray] accept. *)
Definition as_buffer (buf : payload) : result bytes :=
  match buf with
  | Bytes b => Done b
  | Struct _ => Throw TypeError_buffer
  end.

Definition endian_char (endian : byteorder) : string :=
  match endian with
  | Big => ">"
  | Little => "<"
  | Native => "="
  | NotApplicable => "|"
  end.

Section Materializer.
Variable host_big_endian : bool.
(** [zlib.decompress]; [None] is [zlib.error]. *)
Variable zlib_decompress : bytes -> option bytes.

(** First step of [make_array]: the buffer, the byte order and the
    dtype before [newbyteorder]. *)
Definition make_array_dtype (data_header : Data.t) (buf : payload)
  : result (payload * byteorder * dtype) :=
  if bool_decide (Data.dataType data_header = STRUCTURE) then
    match buf with
    | Struct struct_header =>
        let buf := Bytes (StructureData.data struct_header) in
        let endian := if Data.bigend data_header then Big else Little in
        rbind (np_dtype_void_field (endian_char endian)
                 (StructureData.rowLength struct_header))
              (fun dt => Done (buf, endian, dt))
    | Bytes _ => Throw AttributeError
    end
  else
    let endian := Big in
    rbind (data_type_to_numpy (Data.dataType data_header) false)
          (fun dt => Done (buf, endian, dt)).

(** The shape: [None] for vdata, else the tuple of range sizes. *)
Definition make_array_shape (data_header : Data.t) : option (list N) :=
  if Data.vdata data_header then None
  else Some (map r_size (Data.section_range data_header)).

(** The decompression step. *)
Definition make_array_decompress (data_header : Data.t) (buf : payload)
  : result payload :=
  if bool_decide (Data.compress data_header = DEFLATE) then
    if negb (bool_decide (Data.dataType data_header = STRUCTURE)) then
      rbind (as_buffer buf) (fun b =>
      match zlib_decompress b with
      | None => Throw ZlibError
      | Some buf =>
          if (N.of_nat (length buf) =? Data.uncompressedSize data_header)%N
          then Done (Bytes buf)
          else Throw AssertionError
      end)
    else Done buf
  else if negb (bool_decide (Data.compress data_header = NONE)) then
    Throw NotImplementedError_compress
  else Done buf.

Definition make_array (data_header : Data.t) (buf : payload)
  : result ndarray :=
  rbind (make_array_dtype data_header buf) (fun '(buf, endian, dt) =>
  let dt := newbyteorder endian dt in
  let shape := make_array_shape data_header in
  rbind (make_array_decompress data_header buf) (fun buf =>
  rbind (as_buffer buf) (fun b =>
  rbind (frombuffer host_big_endian b dt) (fun ret =>
  match shape with
  | Some (n :: shape') => reshape ret (n :: shape')
  | Some [] | None => Done ret
  end)))).
End Materializer.

(** ** AttributeDecoder *)

(** The dict [_attrConverters]; [None] is a missing key. *)
Definition _attrConverters (type : Attribute.Type') : option dtype :=
  match type with
  | Attribute.BYTE => Some (DBasic Big KInt 1)
  | Attribute.SHORT => Some (DBasic Big KInt 2)
  | Attribute.INT => Some (DBasic Big KInt 4)
  | Attribute.LONG => Some (DBasic Big KInt 8)
  | Attribute.FLOAT => Some (DBasic Big KFloat 4)
  | Attribute.DOUBLE => Some (DBasic Big KFloat 8)
  | Attribute.STRING | Attribute.Type_unknown _ => None
  end.

(** The values [unpack_attribute] can bind to [val]. *)
Inductive attr_value (item : Type) :=
| VNone
| VSdata (s : list item)
| VItem (i : item)
| VArray (a : ndarray)
| VScalar (e : elem).
Arguments VNone {item}.
Arguments VSdata {item} s.
Arguments VItem {item} i.
Arguments VArray {item} a.
Arguments VScalar {item} e.

Section AttributeDecoder.
Variable host_big_endian : bool.
Context {item : Type}.

(** [val[0]]. *)
Definition first_of (val : attr_value item) : result (attr_value item) :=
  match val with
  | VSdata (i :: _) => Done (VItem i)
  | VSdata [] => Throw IndexError
  | VArray a =>
      match arr_data a with
      | e :: _ => Done (VScalar e)
      | [] => Throw IndexError
      end
  | VNone | VItem _ | VScalar _ => Throw TypeError_buffer
  end.

(** Returns the records logged and the outcome. *)
Definition unpack_attribute (att : Attribute.t item)
  : list string * result (string * attr_value item) :=
  let log :=
    if Attribute.unsigned att
    then ["Unsupported unsigned attribute!"%string] else [] in
  let val :=
    if (Attribute.len att =? 0)%N then Done VNone
    else if bool_decide (Attribute.type att = Attribute.STRING)
    then Done (VSdata (Attribute.sdata att))
    else
      match _attrConverters (Attribute.type att) with
      | None => Throw KeyError
      | Some dt =>
          rbind (fromstring host_big_endian (Attribute.data att) dt
                            (Attribute.len att))
                (fun a => Done (VArray a))
      end in
  let val :=
    rbind val (fun val =>
    if (Attribute.len att =? 1)%N then first_of val else Done val) in
  (log, rbind val (fun val => Done (Attribute.name att, val))).
End AttributeDecoder.

(** ** The byte source and the logger *)

Global Instance byte_eq_dec : EqDecision byte.
Proof.
  intros x y. destruct (Byte.eqb x y) eqn:E.
  - left. by apply Byte.byte_dec_bl.
  - right. by apply Byte.eqb_false.
Defined.

Definition MAGIC_HEADER : bytes := [xad; xec; xce; xda].
Definition MAGIC_DATA : bytes := [xab; xec; xce; xba].
Definition MAGIC_VDATA : bytes := [xab; xef; xfe; xba].
Definition MAGIC_VEND : bytes := [xed; xef; xfe; xda].
Definition MAGIC_ERR : bytes := [xab; xad; xba; xda].

(** What a decode call acts on: the bytes [fobj] has still to deliver
    and the records the logger has emitted (the logger is at WARNING
    level, so [log.debug] emits nothing). *)
Record world := {
  fobj : bytes;
  log : list string
}.

Inductive outcome (A : Type) :=
| Ok (a : A) (w : world)
| Raise (e : exn) (w : world)
| OutOfFuel.
Arguments Ok {A} a w.
Arguments Raise {A} e w.
Arguments OutOfFuel {A}.

Definition M (A : Type) := world -> outcome A.

Definition ret {A} (a : A) : M A := fun w => Ok a w.

Definition bind {A B} (m : M A) (k : A -> M B) : M B :=
  fun w =>
    match m w with
    | Ok a w' => k a w'
    | Raise e w' => Raise e w'
    | OutOfFuel => OutOfFuel
    end.

Global Instance M_ret : MRet M := @ret.
Global Instance M_bind : MBind M := fun A B k m => bind m k.

Definition raise {A} (e : exn) : M A := fun w => Raise e w.

Definition lift {A} (r : result A) : M A :=
  match r with
  | Done a => ret a
  | Throw e => raise e
  end.

Definition get_fobj : M bytes := fun w => Ok (fobj w) w.

(** [sys.maxsize] of a 64-bit CPython: the largest length of a bytes
    object and the largest count [read] takes. *)
Definition maxsize : Z := 9223372036854775807.

(** Whether a number is a C size ([Py_ssize_t]). *)
Definition is_ssize (n : Z) : bool :=
  (- maxsize - 1 <=? n) && (n <=? maxsize).

(** [fobj.read(n)] of an in-memory binary file object ([io.BytesIO]):
    up to [n] bytes, fewer only when the source ends; a negative [n]
    reads to the end.  An [n] that is no C size is refused with
    [OverflowError] before anything is read. *)
Definition read (n : Z) : M bytes :=
  fun w =>
    if negb (is_ssize n) then Raise OverflowError w
    else if n <? 0 then Ok (fobj w) {| fobj := []; log := log w |}
    else Ok (take (Z.to_nat n) (fobj w))
            {| fobj := drop (Z.to_nat n) (fobj w); log := log w |}.

(** [log.error(msg)] and [log.warning(msg)]. *)
Definition log_emit (msg : string) : M unit :=
  fun w => Ok tt {| fobj := fobj w; log := log w ++ [msg] |}.

(** [read_var_int] on the source of the world. *)
Definition read_var_int_M : M Z :=
  fun w =>
    match read_var_int (fobj w) with
    | Done (val, rest) => Ok val {| fobj := rest; log := log w |}
    | Throw e => Raise e {| fobj := []; log := log w |}
    end.

(** ** FrameReader *)

Definition read_magic : M bytes := read 4.

Definition read_block : M bytes :=
  num ← read_var_int_M;
  read num.

(** [[read_block(fobj) for _ in range(num_obj)]]. *)
Fixpoint read_blocks (num_obj : nat) : M (list bytes) :=
  match num_obj with
  | O => ret []
  | S n =>
      b ← read_block;
      bs ← read_blocks n;
      ret (b :: bs)
  end.

(** ['%02x' % b]. *)
Definition hex_digit (n : N) : ascii :=
  match n with
  | 0%N => "0" | 1%N => "1" | 2%N => "2" | 3%N => "3" | 4%N => "4"
  | 5%N => "5" | 6%N => "6" | 7%N => "7" | 8%N => "8" | 9%N => "9"
  | 10%N => "a" | 11%N => "b" | 12%N => "c" | 13%N => "d" | 14%N => "e"
  | _ => "f"
  end%char.

Definition fmt_02x (b : byte) : string :=
  let n := Byte.to_N b in
  String (hex_digit (n / 16)) (String (hex_digit (n mod 16)) EmptyString).

(** [sep.join(l)]. *)
Fixpoint join (sep : string) (l : list string) : string :=
  match l with
  | [] => EmptyString
  | [s] => s
  | s :: rest => String.append s (String.append sep (join sep rest))
  end.

Definition unknown_magic_msg (magic : bytes) : string :=
  String.append "Unknown magic: " (join " " (map fmt_02x magic)).

(** ** MessageDispatcher *)

(** The items of [blocks] in the string/opaque branch. *)
Inductive pyobj :=
| PyBytes (b : bytes)
| PyStr (s : string).

(** [[f(x) for x in l]] for an [f] that may raise. *)
Fixpoint result_map {A B} (f : A -> result B) (l : list A)
  : result (list B) :=
  match l with
  | [] => Done []
  | x :: rest =>
      rbind (f x) (fun y =>
      rbind (result_map f rest) (fun ys => Done (y :: ys)))
  end.

(** The dtype of the string/opaque/vdata branch:
    [data_type_to_numpy(data.dataType).newbyteorder('>')]. *)
Definition vlen_dtype (dataType : DataType) : result dtype :=
  rbind (data_type_to_numpy dataType false)
        (fun dt => Done (newbyteorder Big dt)).

(** [np.array(arrs)] on a list of flat arrays of one dtype.  Arrays of
    one length are stacked into one two-dimensional array, whose dtype
    is the promotion of the dtypes of the arrays: the dtype of a single
    array as it is, the dtype in native byte order for two arrays or
    more.  No array at all gives the empty array of floats.  On arrays
    of different lengths numpy before 1.24 builds a flat array of the
    arrays as objects ([ragged_as_objects] is [true]) and numpy from
    1.24 on raises [ValueError]. *)
Definition np_array (ragged_as_objects : bool) (arrs : list ndarray)
  : result (ndarray + list ndarray) :=
  match arrs with
  | [] => Done (inl {| arr_dtype := DBasic Native KFloat 8;
                       arr_shape := [0%N];
                       arr_data := [] |})
  | a :: rest =>
      if forallb (fun a' => bool_decide (arr_shape a' = arr_shape a)) rest
      then Done (inl {| arr_dtype := match rest with
                                       | [] => arr_dtype a
                                       | _ :: _ =>
                                           newbyteorder Native (arr_dtype a)
                                       end;
                        arr_shape := N.of_nat (length arrs) :: arr_shape a;
                        arr_data := concat (map arr_data arrs) |})
      else if ragged_as_objects then Done (inr arrs)
      else Throw ValueError_inhomogeneous
  end.

(** [stream.StructureData()]. *)
Definition StructureData_new : StructureData.t :=
  {| StructureData.data := []; StructureData.rowLength := 0 |}.

Section Dispatcher.
Variable host_big_endian : bool.
(** The numpy at hand: see [np_array]. *)
Variable ragged_as_objects : bool.
Variable zlib_decompress : bytes -> option bytes.
(** [b.decode('utf-8', errors='ignore')]. *)
Variable utf8_decode_ignore : bytes -> string.

(** The schema decoder: [stream.Header()] and the [ParseFromString]
    method of each message class, which clears the object and fills it
    from the block; [None] is a [DecodeError]. *)
Variable Header : Type.
Variable Header_new : Header.
Variable Header_ParseFromString : bytes -> option Header.
Variable Data_ParseFromString : bytes -> option Data.t.
Variable StructureData_ParseFromString : bytes -> option StructureData.t.
Variable Error_ParseFromString : bytes -> option string.

(** The items of the returned list. *)
Inductive message :=
| MHeader (h : Header)
| MArray (a : ndarray)         (* make_array(...), np.array([...]) stacked *)
| MVlen (arrs : list ndarray)  (* np.array([...]) of arrays as objects *)
| MObjects (dt : dtype) (objs : list pyobj)  (* np.array(blocks, dtype=dt) *)
| MSequence (data : Data.t) (blocks : list StructureData.t).

Definition parse {A} (p : bytes -> option A) (block : bytes) : M A :=
  match p block with
  | Some a => ret a
  | None => raise DecodeError
  end.

(** [np.frombuffer(b, dtype=dt)] on an item of [blocks]. *)
Definition frombuffer_obj (dt : dtype) (b : pyobj) : result ndarray :=
  match b with
  | PyBytes b => frombuffer host_big_endian b dt
  | PyStr _ =>
      if has_object dt then Throw ValueError_frombuffer
      else Throw TypeError_buffer
  end.

(** The [while magic != MAGIC_VEND] loop of the SEQUENCE branch. *)
Fixpoint sequence_loop (fuel : nat) (magic : bytes)
    (blocks : list StructureData.t) : M (list StructureData.t) :=
  match fuel with
  | O => fun _ => OutOfFuel
  | S fuel =>
      if bool_decide (magic ≠ MAGIC_VEND) then
        (if bool_decide (magic = MAGIC_VDATA)
         then log_emit "Bad magic for struct/seq data!"
         else ret tt) ≫= fun _ =>
        let blocks := blocks ++ [StructureData_new] in
        (* blocks[0].ParseFromString(read_block(fobj)) *)
        block ← read_block;
        sd ← parse StructureData_ParseFromString block;
        let blocks := <[0%nat := sd]> blocks in
        magic ← read_magic;
        sequence_loop fuel magic blocks
      else ret blocks
  end.

(** The body of the [MAGIC_DATA] branch. *)
Definition data_chunk (messages : list message) : M (list message) :=
  block ← read_block;
  data ← parse Data_ParseFromString block;
  let dataType := Data.dataType data in
  if bool_decide (dataType = STRING) || bool_decide (dataType = OPAQUE)
     || Data.vdata data then
    num_obj ← read_var_int_M;
    blocks ← read_blocks (Z.to_nat num_obj);
    let blocks :=
      if bool_decide (dataType = STRING)
      then map (fun b => PyStr (utf8_decode_ignore b)) blocks
      else map PyBytes blocks in
    dt ← lift (vlen_dtype dataType);
    if Data.vdata data then
      views ← lift (result_map (frombuffer_obj dt) blocks);
      arr ← lift (np_array ragged_as_objects views);
      ret (messages ++ [match arr with
                        | inl a => MArray a
                        | inr arrs => MVlen arrs
                        end])
    else ret (messages ++ [MObjects dt blocks])
  else if bool_decide (is_Some (_dtypeLookup dataType)) then
    bin_data ← read_block;
    data_block ← lift (make_array host_big_endian zlib_decompress
                                  data (Bytes bin_data));
    ret (messages ++ [MArray data_block])
  else if bool_decide (dataType = STRUCTURE) then
    block ← read_block;
    sd ← parse StructureData_ParseFromString block;
    data_block ← lift (make_array host_big_endian zlib_decompress
                                  data (Struct sd));
    ret (messages ++ [MArray data_block])
  else if bool_decide (dataType = SEQUENCE) then
    magic ← read_magic;
    rest ← get_fobj;
    blocks ← sequence_loop (S (length rest)) magic [];
    ret (messages ++ [MSequence data blocks])
  else raise NotImplementedError_datatype.

(** The body of the [MAGIC_HEADER] branch. *)
Definition header_chunk (messages : list message) : M (list message) :=
  let messages := messages ++ [MHeader Header_new] in
  (* messages[0].ParseFromString(read_block(fobj)) *)
  match messages !! 0%nat with
  | Some (MHeader _) =>
      block ← read_block;
      h ← parse Header_ParseFromString block;
      ret (<[0%nat := MHeader h]> messages)
  | Some _ => raise AttributeError
  | None => raise IndexError
  end.

(** One pass through the body of the [while True] loop after a
    non-empty magic was read. *)
Definition dispatch (magic : bytes) (messages : list message)
  : M (list message) :=
  if bool_decide (magic = MAGIC_HEADER) then header_chunk messages
  else if bool_decide (magic = MAGIC_DATA) then data_chunk messages
  else if bool_decide (magic = MAGIC_ERR) then
    block ← read_block;
    err_message ← parse Error_ParseFromString block;
    raise (RuntimeError err_message)
  else
    log_emit (unknown_magic_msg magic) ≫= fun _ => ret messages.

(** The [while True] loop of [read_ncstream_messages]. *)
Fixpoint messages_loop (fuel : nat) (messages : list message)
  : M (list message) :=
  match fuel with
  | O => fun _ => OutOfFuel
  | S fuel =>
      magic ← read_magic;
      match magic with
      | [] => ret messages
      | _ :: _ =>
          messages ← dispatch magic messages;
          messages_loop fuel messages
      end
  end.

(** [frames w ms w' ms']: from the head of the loop in world [w] with
    the list [ms], the loop completes some number of frames, each a
    non-empty magic read followed by a dispatch that returns, and is at
    the head of the loop again in world [w'] with the list [ms']. *)
Inductive frames
  : world -> list message -> world -> list message -> Prop :=
| frames_nil w ms : frames w ms w ms
| frames_cons w ms magic w1 ms1 w2 w' ms' :
    read_magic w = Ok magic w1 ->
    magic <> [] ->
    dispatch magic ms w1 = Ok ms1 w2 ->
    frames w2 ms1 w' ms' ->
    frames w ms w' ms'.

(** Every turn of the loop that goes on has read at least one byte, so
    one more turn than the source has bytes is enough. *)
Definition read_ncstream_messages (source : bytes)
  : outcome (list message) :=
  messages_loop (S (length source)) [] {| fobj := source; log := [] |}.
End Dispatcher.

Arguments MHeader {Header} h.
Arguments MArray {Header} a.
Arguments MVlen {Header} arrs.
Arguments MObjects {Header} dt objs.
Arguments MSequence {Header} data blocks.

(** ** A schema decoder to run the dispatcher on concrete streams

    The generated schema classes are not part of the module.  To run the
    decode loop on explicit byte streams the blocks are read with this
    fixed-layout stand-in: a Header is its block; a Data block is the
    bytes dataType, compress, bigend, vdata, uncompressedSize followed
    by one byte per range size; a StructureData block is the rowLength
    byte followed by the row bytes; an Error block is its text. *)
Module Wire.
Definition Header := bytes.
Definition Header_new : Header := [].
Definition Header_ParseFromString (block : bytes) : option Header :=
  Some block.

Definition dataType_of_code (c : byte) : DataType :=
  match Byte.to_N c with
  | 0%N => CHAR | 1%N => BYTE | 2%N => SHORT | 3%N => INT | 4%N => LONG
  | 5%N => FLOAT | 6%N => DOUBLE | 7%N => STRING | 8%N => STRUCTURE
  | 9%N => SEQUENCE | 10%N => ENUM1 | 11%N => ENUM2 | 12%N => ENUM4
  | 13%N => OPAQUE
  | _ => DataType_unknown (ord c)
  end.

Definition compress_of_code (c : byte) : Compress :=
  match Byte.to_N c with
  | 0%N => NONE
  | 1%N => DEFLATE
  | _ => Compress_unknown (ord c)
  end.

Definition flag (c : byte) : bool := negb (Byte.eqb c x00).

Definition Data_ParseFromString (block : bytes) : option Data.t :=
  match block with
  | t :: c :: e :: v :: u :: sizes =>
      Some {| Data.dataType := dataType_of_code t;
              Data.compress := compress_of_code c;
              Data.bigend := flag e;
              Data.vdata := flag v;
              Data.section_range :=
                map (fun s => {| r_size := Byte.to_N s |}) sizes;
              Data.uncompressedSize := Byte.to_N u |}
  | _ => None
  end.

Definition StructureData_ParseFromString (block : bytes)
  : option StructureData.t :=
  match block with
  | r :: row => Some {| StructureData.data := row;
                        StructureData.rowLength := Byte.to_N r |}
  | [] => None
  end.

Definition Error_ParseFromString (block : bytes) : option string :=
  Some (string_of_list_byte block).

Definition utf8_decode_ignore (b : bytes) : string :=
  string_of_list_byte b.

(** Stand-in for [zlib.decompress]: the payload after a one-byte
    envelope [x78]. *)
Definition zlib_decompress (b : bytes) : option bytes :=
  match b with
  | x78 :: stored => Some stored
  | _ => None
  end.

(** The decode loop over this decoder on a little-endian host with a
    numpy before 1.24. *)
Definition decode (source : bytes) : outcome (list (message Header)) :=
  read_ncstream_messages false true zlib_decompress utf8_decode_ignore
    Header Header_new Header_ParseFromString Data_ParseFromString
    StructureData_ParseFromString Error_ParseFromString source.
End Wire.

(** ** Auxiliary definitions for the statements *)

(** The header with another [bigend] flag. *)
Definition set_bigend (b : bool) (h : Data.t) : Data.t :=
  {| Data.dataType := Data.dataType h;
     Data.compress := Data.compress h;
     Data.bigend := b;
     Data.vdata := Data.vdata h;
     Data.section_range := Data.section_range h;
     Data.uncompressedSize := Data.uncompressedSize h |}.

(** The element a piece of the buffer stands for when it is read most
    significant byte first: an integer in two's complement or as it
    is, the bit pattern of a float, or the bytes themselves. *)
Definition be_elem (k : kind) (c : bytes) : elem :=
  match k with
  | KInt =>
      EInt (let v := be_value c in
            let m := 2 ^ (8 * Z.of_nat (length c)) in
            if v <? m / 2 then v else v - m)
  | KUInt => EInt (be_value c)
  | KFloat => EFloat (be_value c)
  | KString | KVoid | KObject => ERaw c
  end.

(** The last two steps of [make_array] on a resolved buffer, dtype and
    shape: the typed view and the reshape of a non-empty shape. *)
Definition typed_view (host_big_endian : bool) (b : bytes) (dt : dtype)
    (shape : option (list N)) : result ndarray :=
  rbind (frombuffer host_big_endian b dt) (fun ret =>
  match shape with
  | Some (n :: shape') => reshape ret (n :: shape')
  | Some [] | None => Done ret
  end).

(** The header and payload of the shape example: ranges of sizes 2 and
    3, dataType INT, no compression, the six big-endian four-byte
    integers 1 to 6. *)
Definition example_header : Data.t :=
  {| Data.dataType := INT; Data.compress := NONE;
     Data.bigend := false; Data.vdata := false;
     Data.section_range := [{| r_size := 2 |}; {| r_size := 3 |}];
     Data.uncompressedSize := 24 |}.

Definition example_payload : bytes :=
  [x00; x00; x00; x01; x00; x00; x00; x02; x00; x00; x00; x03;
   x00; x00; x00; x04; x00; x00; x00; x05; x00; x00; x00; x06].

(** A computation of the decoder never runs out of fuel and never puts
    bytes back into the source. *)
Definition well_behaved {A} (m : M A) : Prop :=
  forall w,
    match m w with
    | Ok _ w' => (length (fobj w') <= length (fobj w))%nat
    | Raise _ _ => True
    | OutOfFuel => False
    end.

(** A computation that, when it returns, has read at least one byte. *)
Definition consumes {A} (m : M A) : Prop :=
  forall w,
    match m w with
    | Ok _ w' => (length (fobj w') < length (fobj w))%nat
    | Raise _ _ => True
    | OutOfFuel => False
    end.

(** A computation that is well behaved on every source shorter than
    [n] bytes. *)
Definition ends_within (n : nat) {A} (m : M A) : Prop :=
  forall w,
    (length (fobj w) < n)%nat ->
    match m w with
    | Ok _ w' => (length (fobj w') <= length (fobj w))%nat
    | Raise _ _ => True
    | OutOfFuel => False
    end.

(** A block that a bytes object can hold. *)
Definition within_maxsize (block : bytes) : Prop :=
  Z.of_nat (length block) <= maxsize.

(** A block as the specification frames it: the varint of its length,
    then its bytes. *)
Definition block_bytes (block : bytes) : bytes :=
  encode_var_int (Z.of_nat (length block)) ++ block.

(** The bytes of a sequence: each frame is a magic and a framed block;
    the VEND magic closes the sequence and [rest] follows it. *)
Fixpoint sequence_bytes (frames : list (bytes * bytes)) (rest : bytes)
  : bytes :=
  match frames with
  | [] => MAGIC_VEND ++ rest
  | (magic, block) :: frames' =>
      magic ++ block_bytes block ++ sequence_bytes frames' rest
  end.

(** What the sequence loop makes of [blocks] on the StructureData of
    the frames in turn: append a fresh one, overwrite the first. *)
Fixpoint blocks_after (blocks : list StructureData.t)
    (sds : list StructureData.t) : list StructureData.t :=
  match sds with
  | [] => blocks
  | sd :: sds' =>
      blocks_after (<[0%nat := sd]> (blocks ++ [StructureData_new])) sds'
  end.

(** The records the sequence loop logs for the magics of the frames. *)
Fixpoint sequence_log (frames : list (bytes * bytes)) : list string :=
  match frames with
  | [] => []
  | (magic, _) :: frames' =>
      (if bool_decide (magic = MAGIC_VDATA)
       then ["Bad magic for struct/seq data!"%string] else [])
      ++ sequence_log frames'
  end.

(** A frame of a sequence: a four-byte magic other than VEND and a
    block, one that a bytes object can hold, that the schema decoder
    reads as [sd]. *)
Definition sequence_frame
    (StructureData_ParseFromString : bytes -> option StructureData.t)
    (frame : bytes * bytes) (sd : StructureData.t) : Prop :=
  length (fst frame) = 4%nat
  /\ fst frame <> MAGIC_VEND
  /\ within_maxsize (snd frame)
  /\ StructureData_ParseFromString (snd frame) = Some sd.

(** ** CompoundLayoutBuilder and VariableDecoder *)

Module Variable'.
(** Modelled from the spec: the message [stream.Variable] of
    [ncStream_pb2], a scalar field of the schema, with the attributes
    the module reads of it. *)
Record t := {
  name : string;
  dataType : DataType;
  unsigned : bool;
  data : bytes
}.
End Variable'.

Module Structure.
(** Modelled from the spec: the message [stream.Structure] of
    [ncStream_pb2], the recursive field schema of the data model: its
    scalar fields [vars] and its nested structures [structs].  It has no
    [unsigned] attribute. *)
Inductive t :=
| make (name : string) (dataType : DataType)
       (vars : list Variable'.t) (structs : list t).

Definition name (s : t) : string :=
  match s with make n _ _ _ => n end.
Definition dataType (s : t) : DataType :=
  match s with make _ d _ _ => d end.
Definition vars (s : t) : list Variable'.t :=
  match s with make _ _ l _ => l end.
Definition structs (s : t) : list t :=
  match s with make _ _ _ l => l end.
End Structure.

(** What [unpack_variable] is handed: a Variable or a Structure. *)
Inductive descriptor :=
| AVariable (var : Variable'.t)
| AStructure (struct : Structure.t).

Definition descriptor_dataType (var : descriptor) : DataType :=
  match var with
  | AVariable v => Variable'.dataType v
  | AStructure s => Structure.dataType s
  end.

(** The exceptions of the two descriptor decoders: those of [exn] and
    the [ValueError] of [np.dtype] for a field name that occurs more
    than once. *)
Inductive exn_fields :=
| Exn (e : exn)
| ValueError_duplicate_field.

Inductive fresult (A : Type) :=
| FDone (a : A)
| FThrow (e : exn_fields).
Arguments FDone {A} a.
Arguments FThrow {A} e.

Definition fbind {A B} (r : fresult A) (k : A -> fresult B) : fresult B :=
  match r with
  | FDone a => k a
  | FThrow e => FThrow e
  end.

Definition flift {A} (r : result A) : fresult A :=
  match r with
  | Done a => FDone a
  | Throw e => FThrow (Exn e)
  end.

(** The names [np.dtype(fields)] gives the fields: an empty name at
    position [i] becomes ['f%d' % i]. *)
Fixpoint field_names (i : nat) (fields : list (string * dtype))
  : list (string * dtype) :=
  match fields with
  | [] => []
  | (n, dt) :: rest =>
      ((if String.eqb n "" then String.append "f" (pretty i) else n), dt)
      :: field_names (S i) rest
  end.

(** [np.dtype(fields)] for a list of (name, dtype) pairs: a packed
    record; a name that occurs twice is refused. *)
Definition np_dtype_fields (fields : list (string * dtype))
  : fresult dtype :=
  let fields := field_names 0 fields in
  if bool_decide (NoDup (map fst fields)) then FDone (DStruct fields)
  else FThrow ValueError_duplicate_field.

(** The list comprehension over [struct.vars]. *)
Definition var_fields (vars : list Variable'.t)
  : result (list (string * dtype)) :=
  result_map
    (fun var =>
       rbind (data_type_to_numpy (Variable'.dataType var)
                                 (Variable'.unsigned var))
             (fun dt => Done (Variable'.name var, dt)))
    vars.

Fixpoint struct_to_dtype (struct : Structure.t) : fresult dtype :=
  match struct with
  | Structure.make _ _ vars structs =>
      fbind (flift (var_fields vars)) (fun fields =>
      fbind ((fix append (structs : list Structure.t)
                : fresult (list (string * dtype)) :=
                match structs with
                | [] => FDone []
                | s :: rest =>
                    fbind (struct_to_dtype s) (fun dt =>
                    fbind (append rest) (fun more =>
                    FDone ((Structure.name s, dt) :: more)))
                end) structs) (fun nested =>
      np_dtype_fields (fields ++ nested)))
  end.

(** [dt.name]: the kind and the width in bits. *)
Definition dtype_name (dt : dtype) : string :=
  match dt with
  | DBasic _ KInt w => String.append "int" (pretty (8 * w)%N)
  | DBasic _ KUInt w => String.append "uint" (pretty (8 * w)%N)
  | DBasic _ KFloat w => String.append "float" (pretty (8 * w)%N)
  | DBasic _ KString w => String.append "bytes" (pretty (8 * w)%N)
  | DBasic _ KVoid w => String.append "void" (pretty (8 * w)%N)
  | DBasic _ KObject _ => "object"
  | DStruct _ => String.append "void" (pretty (8 * itemsize dt)%N)
  end.

Section VariableDecoder.
Variable host_big_endian : bool.

(** [np.fromstring(s, dtype=dt)] in binary mode without a count: the
    whole string, which has to be a whole number of items. *)
Definition fromstring_whole (s : bytes) (dt : dtype) : result ndarray :=
  let w := itemsize dt in
  if has_object dt then Throw ValueError_fromstring
  else if (w =? 0)%N then Throw ValueError_fromstring
  else
    let len := N.of_nat (length s) in
    if negb (len mod w =? 0)%N then Throw ValueError_fromstring
    else
      let n := (len / w)%N in
      Done {| arr_dtype := dt;
              arr_shape := [n];
              arr_data := map (decode_item host_big_endian dt)
                              (chunks (N.to_nat w) (N.to_nat n) s) |}.

(** The part of [unpack_variable] after the STRUCTURE test, on a
    Variable. *)
Definition unpack_scalar (var : Variable'.t)
  : result (option ndarray * dtype * string) :=
  rbind (data_type_to_numpy (Variable'.dataType var)
                            (Variable'.unsigned var)) (fun dt =>
  let type_name :=
    if bool_decide (Variable'.dataType var = OPAQUE)
    then "opaque"%string
    else if bool_decide (Variable'.dataType var = STRING)
    then "string"%string
    else dtype_name dt in
  rbind (match Variable'.data var with
         | [] => Done None
         | _ :: _ =>
             rbind (fromstring_whole (Variable'.data var)
                                     (newbyteorder Big dt))
                   (fun a => Done (Some a))
         end) (fun data =>
  Done (data, dt, type_name))).

(** Returns the records logged and the outcome: the data (or [None]),
    the dtype and the type name.  A Variable has no [vars] for
    [struct_to_dtype] to read and a Structure has no [unsigned] for the
    dtype lookup to be given: reading either raises
    [AttributeError]. *)
Definition unpack_variable (var : descriptor)
  : list string * fresult (option ndarray * dtype * string) :=
  if bool_decide (descriptor_dataType var = STRUCTURE) then
    ([], match var with
         | AStructure struct =>
             fbind (struct_to_dtype struct) (fun dt =>
             FDone (None, dt, "Structure"%string))
         | AVariable _ => FThrow (Exn AttributeError)
         end)
  else
    let log :=
      if bool_decide (descriptor_dataType var = SEQUENCE)
      then ["Sequence support not implemented!"%string] else [] in
    (log,
     match var with
     | AVariable var => flift (unpack_scalar var)
     | AStructure _ => FThrow (Exn AttributeError)
     end).
End VariableDecoder.

(** The width of the scalar fields of a structure, nested ones
    included, as the table gives them. *)
Fixpoint total_width (struct : Structure.t) : N :=
  match struct with
  | Structure.make _ _ vars structs =>
      (fold_right
         (fun var acc =>
            match data_type_to_numpy (Variable'.dataType var) false with
            | Done dt => itemsize dt + acc
            | Throw _ => acc
            end) 0 vars
       + (fix sum (structs : list Structure.t) : N :=
            match structs with
            | [] => 0
            | s :: rest => total_width s + sum rest
            end) structs)%N
  end.

(** What the loop keeps of the list it has accumulated: the list only
    grows, every item but the first stays what it is, and the first
    item stays what it is unless it is a Header, which stays a Header. *)
Definition messages_kept {Header} (before after : list (message Header))
  : Prop :=
  (length before <= length after)%nat
  /\ (forall i, (1 <= i < length before)%nat -> after !! i = before !! i)
  /\ (forall m, before !! 0%nat = Some m ->
      after !! 0%nat = Some m
      \/ ((exists h, m = MHeader h)
          /\ exists h', after !! 0%nat = Some (MHeader h'))).

(** Whether an element fits the integer kind and width of a dtype. *)
Definition elem_in_range (k : kind) (w : N) (e : elem) : Prop :=
  match k, e with
  | KInt, EInt z => - 2 ^ (8 * Z.of_N w - 1) <= z < 2 ^ (8 * Z.of_N w - 1)
  | KUInt, EInt z => 0 <= z < 2 ^ (8 * Z.of_N w)
  | _, _ => True
  end.

Global Instance elem_in_range_dec k w e : Decision (elem_in_range k w e).
Proof. destruct k, e; cbn; apply _. Defined.

(** The attribute with another [unsigned] flag. *)
Definition set_unsigned {item} (u : bool) (att : Attribute.t item)
  : Attribute.t item :=
  {| Attribute.name := Attribute.name att;
     Attribute.type := Attribute.type att;
     Attribute.len := Attribute.len att;
     Attribute.data := Attribute.data att;
     Attribute.sdata := Attribute.sdata att;
     Attribute.unsigned := u |}.

(** * Properties *)

(** ** VarintReader *)

Lemma ord_range (b : byte) : 0 <= ord b < 256.
Proof.
  unfold ord. pose proof (Byte.to_N_bounded b) as Hb.
  split; [apply N2Z.is_nonneg|].
  change 256 with (Z.of_N 256). apply N2Z.inj_lt. lia.
Qed.

Lemma ord_chr z : 0 <= z < 256 -> ord (chr z) = z.
Proof.
  intros Hz. unfold ord, chr.
  destruct (Byte.of_N (Z.to_N z)) as [b|] eqn:E.
  - apply Byte.to_of_N in E. rewrite E. lia.
  - apply Byte.of_N_None_iff in E. lia.
Qed.

Lemma low7_range n : 0 <= Z.land n 0x7F < 128.
Proof.
  change 0x7F with (Z.ones 7). rewrite Z.land_ones by lia.
  apply Z.mod_pos_bound. lia.
Qed.

(** A continuation byte keeps the seven payload bits and carries the
    high bit.  Checked on each of the 256 bytes. *)
Lemma cont_byte x :
  0 <= x < 128 ->
  Z.land (Z.lor x 0x80) 0x7F = x /\
  Z.land (Z.lor x 0x80) 0x80 = 128 /\
  0 <= Z.lor x 0x80 < 256.
Proof.
  intros Hx.
  assert (Hb : forall b, ord b < 128 ->
            Z.land (Z.lor (ord b) 0x80) 0x7F = ord b /\
            Z.land (Z.lor (ord b) 0x80) 0x80 = 128 /\
            0 <= Z.lor (ord b) 0x80 < 256).
  { intros b; destruct b; vm_compute;
      try (intros H; discriminate H); intros _;
      repeat split; reflexivity || (intros H; discriminate H). }
  specialize (Hb (chr x)). rewrite ord_chr in Hb by lia. apply Hb. lia.
Qed.

Lemma last_byte x : 0 <= x < 128 -> Z.land x 0x7F = x /\ Z.land x 0x80 = 0.
Proof.
  intros Hx.
  assert (Hb : forall b, ord b < 128 ->
            Z.land (ord b) 0x7F = ord b /\ Z.land (ord b) 0x80 = 0).
  { intros b; destruct b; vm_compute;
      try (intros H; discriminate H); intros _; split; reflexivity. }
  specialize (Hb (chr x)). rewrite ord_chr in Hb by lia. apply Hb. lia.
Qed.

Lemma split_low7 n : Z.lor (Z.land n 0x7F) (Z.shiftl (Z.shiftr n 7) 7) = n.
Proof.
  change 0x7F with (Z.ones 7).
  rewrite <- Z.ldiff_ones_r by lia.
  rewrite Z.lor_comm. apply Z.lor_ldiff_and.
Qed.

Lemma read_var_int_loop_encode fuel : forall n rest val shift,
  0 <= n < 2 ^ Z.of_nat (S fuel) -> 0 <= shift ->
  read_var_int_loop (encode_fuel (S fuel) n ++ rest) val shift
  = Done (Z.lor (Z.shiftl n shift) val, rest).
Proof.
  induction fuel as [|fuel IH]; intros n rest val shift Hn Hs.
  - change (2 ^ Z.of_nat 1) with 2 in Hn.
    cbn [encode_fuel]. destruct (Z.ltb_spec n 128) as [_|]; [|lia].
    cbn [app read_var_int_loop]. rewrite ord_chr by lia.
    destruct (last_byte n) as [-> ->]; [lia|]. reflexivity.
  - cbn [encode_fuel]. destruct (Z.ltb_spec n 128) as [Hlt|Hge].
    + cbn [app read_var_int_loop]. rewrite ord_chr by lia.
      destruct (last_byte n) as [-> ->]; [lia|]. reflexivity.
    + pose proof (low7_range n) as Hlow.
      destruct (cont_byte _ Hlow) as (E1 & E2 & E3).
      cbn [app read_var_int_loop]. rewrite ord_chr by exact E3.
      rewrite E1, E2. change (128 =? 0) with false. cbv iota.
      assert (Hq : 0 <= Z.shiftr n 7 < 2 ^ Z.of_nat (S fuel)).
      { rewrite Z.shiftr_div_pow2 by lia. change (2 ^ 7) with 128.
        split; [apply Z.div_pos; lia|].
        apply Z.div_lt_upper_bound; [lia|].
        replace (Z.of_nat (S (S fuel))) with (Z.of_nat (S fuel) + 1)
          in Hn by lia.
        rewrite Z.pow_add_r in Hn by lia. lia. }
      rewrite (IH (Z.shiftr n 7) rest _ (shift + 7) Hq) by lia.
      do 2 f_equal.
      assert (En : Z.shiftl n shift
                   = Z.lor (Z.shiftl (Z.shiftr n 7) (shift + 7))
                           (Z.shiftl (Z.land n 0x7F) shift)).
      { rewrite <- (split_low7 n) at 1.
        rewrite Z.shiftl_lor, Z.shiftl_shiftl by lia.
        rewrite (Z.add_comm 7 shift). apply Z.lor_comm. }
      rewrite En, Z.lor_assoc. reflexivity.
Qed.

(** Encode-then-decode gives the number back and leaves what follows the
    encoding unread, for every non-negative number. *)
Lemma read_var_int_encode n rest :
  0 <= n -> read_var_int (encode_var_int n ++ rest) = Done (n, rest).
Proof.
  intros Hn. unfold read_var_int, encode_var_int.
  rewrite read_var_int_loop_encode.
  - rewrite Z.shiftl_0_r, Z.lor_0_r. reflexivity.
  - split; [lia|]. destruct (Z.eq_dec n 0) as [->|Hne]; [reflexivity|].
    rewrite Nat2Z.inj_succ, Z2Nat.id by apply Z.log2_nonneg.
    apply Z.log2_spec. lia.
  - lia.
Qed.

Lemma read_var_int_loop_accumulates pre : forall t rest val i,
  Forall high_bit_set pre -> ~ high_bit_set t ->
  read_var_int_loop (pre ++ t :: rest) val (7 * Z.of_nat i)
  = Done (Z.lor (varint_value i (pre ++ [t])) val, rest).
Proof.
  induction pre as [|b pre IH]; intros t rest val i Hpre Ht.
  - cbn [app read_var_int_loop varint_value].
    destruct (Z.eqb_spec (Z.land (ord t) 128) 0) as [_|Hne];
      [|exfalso; apply Ht, Hne].
    rewrite Z.lor_0_r. reflexivity.
  - inversion Hpre as [|? ? Hb Hpre']; subst.
    cbn [app read_var_int_loop varint_value].
    destruct (Z.eqb_spec (Z.land (ord b) 128) 0) as [E|_];
      [exfalso; apply Hb, E|].
    replace (7 * Z.of_nat i + 7) with (7 * Z.of_nat (S i)) by lia.
    rewrite (IH t rest _ (S i) Hpre' Ht).
    do 2 f_equal.
    rewrite (Z.lor_comm (Z.shiftl _ _) (varint_value _ _)).
    rewrite Z.lor_assoc. reflexivity.
Qed.

Lemma read_var_int_loop_truncated bs : forall val shift,
  Forall high_bit_set bs ->
  read_var_int_loop bs val shift = Throw TypeError_ord.
Proof.
  induction bs as [|b bs IH]; intros val shift Hbs; [reflexivity|].
  inversion Hbs as [|? ? Hb Hbs']; subst.
  cbn [read_var_int_loop].
  destruct (Z.eqb_spec (Z.land (ord b) 128) 0) as [E|_];
    [exfalso; apply Hb, E|].
  apply IH, Hbs'.
Qed.

(** C9.  [read_var_int] ORs together the low seven bits of each byte,
    shifted left by seven times the index of the byte, and stops at the
    first byte whose high bit is clear, leaving the bytes after it
    unread; each of 0, 1, 127, 128, 300, 16384 and 2097151 is decoded
    back from its base-128 encoding; and a source that ends before a
    byte with a clear high bit makes [ord] raise on the empty read, the
    truncation failure. *)
Theorem read_var_int_decodes :
  (forall pre t rest,
      Forall high_bit_set pre -> ~ high_bit_set t ->
      read_var_int (pre ++ t :: rest)
      = Done (varint_value 0 (pre ++ [t]), rest))
  /\ Forall (fun v => forall rest,
                 read_var_int (encode_var_int v ++ rest) = Done (v, rest))
            [0; 1; 127; 128; 300; 16384; 2097151]
  /\ (forall bs,
        Forall high_bit_set bs -> read_var_int bs = Throw TypeError_ord).
Proof.
  split; [|split].
  - intros pre t rest Hpre Ht. unfold read_var_int.
    change 0 with (7 * Z.of_nat 0) at 2.
    rewrite (read_var_int_loop_accumulates pre t rest 0 0%nat Hpre Ht).
    rewrite Z.lor_0_r. reflexivity.
  - repeat constructor; intros rest; apply read_var_int_encode; lia.
  - intros bs Hbs. apply read_var_int_loop_truncated, Hbs.
Qed.

Lemma read_var_int_decodes_witness :
  read_var_int [xac; x02; x07] = Done (300, [x07])
  /\ read_var_int [xac; x82] = Throw TypeError_ord.
Proof.
  split.
  - apply (proj1 read_var_int_decodes [xac] x02 [x07]).
    + repeat constructor. unfold high_bit_set. vm_compute. discriminate.
    + unfold high_bit_set. vm_compute. intros H. apply H. reflexivity.
  - apply (proj2 (proj2 read_var_int_decodes) [xac; x82]).
    repeat constructor; unfold high_bit_set; vm_compute; discriminate.
Defined.

(** ** FrameReader *)

Lemma read_var_int_loop_nonneg bs : forall val shift v rest,
  0 <= val -> read_var_int_loop bs val shift = Done (v, rest) -> 0 <= v.
Proof.
  induction bs as [|b bs IH]; intros val shift v rest Hval H; [discriminate|].
  cbn [read_var_int_loop] in H.
  assert (Hacc : 0 <= Z.lor (Z.shiftl (Z.land (ord b) 0x7F) shift) val).
  { apply Z.lor_nonneg. split; [|exact Hval].
    apply Z.shiftl_nonneg. pose proof (low7_range (ord b)). lia. }
  destruct (Z.land (ord b) 128 =? 0).
  - injection H as <- _. exact Hacc.
  - eapply IH; [exact Hacc | exact H].
Qed.

Lemma read_var_int_loop_shorter bs : forall val shift v rest,
  read_var_int_loop bs val shift = Done (v, rest) ->
  (length rest < length bs)%nat.
Proof.
  induction bs as [|b bs IH]; intros val shift v rest H; [discriminate|].
  cbn [read_var_int_loop] in H.
  destruct (Z.land (ord b) 128 =? 0).
  - injection H as _ <-. cbn. lia.
  - apply IH in H. cbn. lia.
Qed.

Lemma read_var_int_nonneg src n rest :
  read_var_int src = Done (n, rest) -> 0 <= n.
Proof. apply read_var_int_loop_nonneg. lia. Qed.

(** The loop raises only at the end of a source all of whose bytes ask
    for another byte. *)
Lemma read_var_int_loop_throws bs : forall val shift e,
  read_var_int_loop bs val shift = Throw e ->
  e = TypeError_ord /\ Forall high_bit_set bs.
Proof.
  induction bs as [|b bs IH]; intros val shift e H.
  - injection H as <-. split; [reflexivity|constructor].
  - cbn [read_var_int_loop] in H.
    destruct (Z.eqb_spec (Z.land (ord b) 128) 0) as [E|Hne]; [discriminate|].
    destruct (IH _ _ _ H) as [-> Hbs].
    split; [reflexivity|]. constructor; [exact Hne|exact Hbs].
Qed.

Lemma is_ssize_nonneg n : 0 <= n -> is_ssize n = (n <=? maxsize).
Proof.
  intros Hn. unfold is_ssize.
  destruct (Z.leb_spec (- maxsize - 1) n) as [_|H]; [reflexivity|].
  unfold maxsize in H. lia.
Qed.

Lemma read_block_eval src lg n rest :
  read_var_int src = Done (n, rest) ->
  n <= maxsize ->
  read_block {| fobj := src; log := lg |}
  = Ok (take (Z.to_nat n) rest)
       {| fobj := drop (Z.to_nat n) rest; log := lg |}.
Proof.
  intros H Hmax. pose proof (read_var_int_nonneg _ _ _ H) as Hn.
  unfold read_block, mbind, M_bind, bind, read_var_int_M. cbn [fobj log].
  rewrite H. unfold read. cbn [fobj log]. rewrite is_ssize_nonneg by exact Hn.
  destruct (Z.leb_spec n maxsize); [|lia]. cbn [negb].
  destruct (Z.ltb_spec n 0); [lia|]. reflexivity.
Qed.

Lemma read_block_overflow src lg n rest :
  read_var_int src = Done (n, rest) ->
  maxsize < n ->
  read_block {| fobj := src; log := lg |}
  = Raise OverflowError {| fobj := rest; log := lg |}.
Proof.
  intros H Hmax. pose proof (read_var_int_nonneg _ _ _ H) as Hn.
  unfold read_block, mbind, M_bind, bind, read_var_int_M. cbn [fobj log].
  rewrite H. unfold read. cbn [fobj log]. rewrite is_ssize_nonneg by exact Hn.
  destruct (Z.leb_spec n maxsize); [lia|]. reflexivity.
Qed.

(** C3, amended.  [read_block] first decodes one varint length [n] and
    then returns the next [n] bytes when the source still holds that
    many; when the source ends earlier it returns the shorter buffer of
    all the bytes that are left, without failing.  It fails in two
    cases only: when the source ends inside the varint, and when the
    length decoded is above [sys.maxsize], which [read] refuses with
    [OverflowError] after the varint has been read. *)
Theorem read_block_returns :
  (forall src lg n rest,
      read_var_int src = Done (n, rest) ->
      (n <= maxsize ->
       read_block {| fobj := src; log := lg |}
       = Ok (take (Z.to_nat n) rest)
            {| fobj := drop (Z.to_nat n) rest; log := lg |}
       /\ (n <= Z.of_nat (length rest) ->
           Z.of_nat (length (take (Z.to_nat n) rest)) = n)
       /\ (Z.of_nat (length rest) < n -> take (Z.to_nat n) rest = rest))
      /\ (maxsize < n ->
          read_block {| fobj := src; log := lg |}
          = Raise OverflowError {| fobj := rest; log := lg |}))
  /\ (forall src lg e,
        read_var_int src = Throw e ->
        e = TypeError_ord
        /\ Forall high_bit_set src
        /\ read_block {| fobj := src; log := lg |}
           = Raise TypeError_ord {| fobj := []; log := lg |}).
Proof.
  split.
  - intros src lg n rest H.
    pose proof (read_var_int_nonneg _ _ _ H) as Hn.
    split.
    + intros Hmax. split; [|split].
      * apply read_block_eval; [exact H|exact Hmax].
      * intros Hle. rewrite length_take. lia.
      * intros Hlt. apply take_ge. lia.
    + intros Hmax. exact (read_block_overflow src lg n rest H Hmax).
  - intros src lg e H.
    destruct (read_var_int_loop_throws _ _ _ _ H) as [-> Hsrc].
    split; [reflexivity|]. split; [exact Hsrc|].
    unfold read_block, mbind, M_bind, bind, read_var_int_M. cbn [fobj log].
    rewrite H. reflexivity.
Qed.

Lemma read_block_returns_witness :
  read_block {| fobj := [x02; x0a; x0b; x0c]; log := [] |}
  = Ok [x0a; x0b] {| fobj := [x0c]; log := [] |}
  /\ read_block
       {| fobj := [x80; x80; x80; x80; x80; x80; x80; x80; x80; x01; x61; x62];
          log := [] |}
     = Raise OverflowError {| fobj := [x61; x62]; log := [] |}.
Proof.
  split.
  - apply (proj1 (proj1 (proj1 read_block_returns [x02; x0a; x0b; x0c] [] 2
                           [x0a; x0b; x0c] eq_refl)
                        ltac:(vm_compute; discriminate))).
  - apply (proj2 (proj1 read_block_returns
                    [x80; x80; x80; x80; x80; x80; x80; x80; x80; x01; x61; x62]
                    [] (2 ^ 63) [x61; x62] eq_refl)).
    reflexivity.
Defined.

(** C3 as stated fails: the length prefix announces five bytes, the
    source holds two, and [read_block] returns those two. *)
Lemma read_block_short_read :
  read_var_int [x05; x01; x02] = Done (5, [x01; x02])
  /\ read_block {| fobj := [x05; x01; x02]; log := [] |}
     = Ok [x01; x02] {| fobj := []; log := [] |}.
Proof. split; reflexivity. Qed.

(** ** TypeMapper *)

(** For SHORT, INT and LONG the unsigned flag gives the unsigned
    encoding of the same width; for STRING and OPAQUE it changes
    nothing. *)
Lemma data_type_to_numpy_unsigned :
  data_type_to_numpy SHORT false = Done (DBasic Native KInt 2)
  /\ data_type_to_numpy SHORT true = Done (DBasic Native KUInt 2)
  /\ data_type_to_numpy INT false = Done (DBasic Native KInt 4)
  /\ data_type_to_numpy INT true = Done (DBasic Native KUInt 4)
  /\ data_type_to_numpy LONG false = Done (DBasic Native KInt 8)
  /\ data_type_to_numpy LONG true = Done (DBasic Native KUInt 8)
  /\ data_type_to_numpy STRING true = data_type_to_numpy STRING false
  /\ data_type_to_numpy OPAQUE true = data_type_to_numpy OPAQUE false.
Proof. repeat split. Qed.

(** C4 at BYTE.  The table spells BYTE ["b"], which has no ["i"] for
    [replace] to turn into ["u"]: with the unsigned flag set the result
    is still the signed one-byte encoding, the same as without it. *)
Theorem data_type_to_numpy_unsigned_byte :
  data_type_to_numpy BYTE true = Done (DBasic Native KInt 1)
  /\ data_type_to_numpy BYTE true = data_type_to_numpy BYTE false
  /\ np_dtype "=B" = Done (DBasic Native KUInt 1).
Proof. repeat split. Qed.

Lemma data_type_to_numpy_lookup t :
  is_Some (_dtypeLookup t) ->
  exists k w, data_type_to_numpy t false = Done (DBasic Native k w).
Proof.
  intros [s Hs]. destruct t; try discriminate Hs; cbn; eauto.
Qed.

(** ** ArrayMaterializer *)

(** [make_array] is its three resolution steps followed by the typed
    view. *)
Lemma make_array_stages host zlib h buf :
  make_array host zlib h buf
  = rbind (make_array_dtype h buf) (fun '(buf, endian, dt) =>
    rbind (make_array_decompress zlib h buf) (fun buf =>
    rbind (as_buffer buf) (fun b =>
    typed_view host b (newbyteorder endian dt) (make_array_shape h)))).
Proof. reflexivity. Qed.

Lemma make_array_dtype_lookup h buf :
  is_Some (_dtypeLookup (Data.dataType h)) ->
  exists k w,
    data_type_to_numpy (Data.dataType h) false = Done (DBasic Native k w)
    /\ make_array_dtype h buf = Done (buf, Big, DBasic Native k w).
Proof.
  intros Hl. destruct (data_type_to_numpy_lookup _ Hl) as (k & w & E).
  exists k, w. split; [exact E|].
  unfold make_array_dtype. rewrite E.
  destruct Hl as [s Hs].
  destruct (Data.dataType h); try discriminate Hs; reflexivity.
Qed.

(** The first step on a StructureData: the record of one opaque field
    named after the bigend flag, unless the row length is no item
    width. *)
Lemma make_array_dtype_structure h sd :
  Data.dataType h = STRUCTURE ->
  make_array_dtype h (Struct sd)
  = if (max_itemsize <? StructureData.rowLength sd)%N
    then Throw ValueError_dtype
    else Done (Bytes (StructureData.data sd),
               (if Data.bigend h then Big else Little),
               DStruct [(if Data.bigend h then ">"%string else "<"%string,
                         DBasic NotApplicable KVoid
                                (StructureData.rowLength sd))]).
Proof.
  intros Hs. unfold make_array_dtype, np_dtype_void_field. rewrite Hs.
  rewrite bool_decide_eq_true_2 by reflexivity.
  destruct (_ <? _)%N; [reflexivity|]. destruct (Data.bigend h); reflexivity.
Qed.

Lemma chunks_length {A} width count (l : list A) :
  length (chunks width count l) = count.
Proof.
  revert l. induction count as [|count IH]; intros l; cbn; [|rewrite IH];
    reflexivity.
Qed.

Lemma chunks_concat {A} width count (l : list A) :
  length l = (count * width)%nat ->
  concat (chunks width count l) = l
  /\ Forall (fun c => length c = width) (chunks width count l).
Proof.
  revert l. induction count as [|count IH]; intros l Hl.
  - destruct l; [split; [reflexivity|constructor]|discriminate].
  - cbn [chunks concat].
    destruct (IH (drop width l)) as [Hc Hf].
    { rewrite length_drop. lia. }
    split.
    + rewrite Hc. apply take_drop.
    + constructor; [|exact Hf]. rewrite length_take. lia.
Qed.

Lemma chunks_widths {A} width count (l : list A) :
  (count * width <= length l)%nat ->
  Forall (fun c => length c = width) (chunks width count l).
Proof.
  revert l. induction count as [|count IH]; intros l Hl; [constructor|].
  cbn [chunks]. constructor.
  - rewrite length_take. lia.
  - apply IH. rewrite length_drop. lia.
Qed.

(** The view [np.frombuffer] gives is one-dimensional and keeps the
    dtype. *)
Lemma frombuffer_flat host b dt a :
  frombuffer host b dt = Done a ->
  arr_dtype a = dt /\ arr_shape a = [N.of_nat (length (arr_data a))].
Proof.
  unfold frombuffer. intros H.
  destruct (has_object dt); [discriminate|].
  destruct (itemsize dt =? 0)%N; [discriminate|].
  destruct (negb _); [discriminate|].
  injection H as <-. cbn. rewrite length_map, chunks_length, N2Nat.id.
  split; reflexivity.
Qed.

Lemma frombuffer_Done host b dt a :
  frombuffer host b dt = Done a ->
  (0 < itemsize dt)%N
  /\ (N.of_nat (length b) / itemsize dt * itemsize dt)%N
     = N.of_nat (length b)
  /\ a = {| arr_dtype := dt;
            arr_shape := [(N.of_nat (length b) / itemsize dt)%N];
            arr_data :=
              map (decode_item host dt)
                  (chunks (N.to_nat (itemsize dt))
                          (N.to_nat (N.of_nat (length b) / itemsize dt))
                          b) |}.
Proof.
  unfold frombuffer. intros H.
  destruct (has_object dt); [discriminate|].
  destruct (N.eqb_spec (itemsize dt) 0); [discriminate|].
  destruct (N.eqb_spec (N.of_nat (length b) mod itemsize dt) 0) as [Hm|];
    [|discriminate].
  cbn [negb] in H. injection H as <-.
  split; [lia|]. split; [|reflexivity].
  rewrite N.mul_comm. symmetry. apply N.Div0.div_exact. exact Hm.
Qed.

(** Two hosts that decode every item of the dtype's width alike give
    the same view. *)
Lemma frombuffer_ext host host' b dt :
  (forall c, length c = N.to_nat (itemsize dt) ->
             decode_item host dt c = decode_item host' dt c) ->
  frombuffer host b dt = frombuffer host' b dt.
Proof.
  intros Hext. unfold frombuffer.
  destruct (has_object dt); [reflexivity|].
  destruct (N.eqb_spec (itemsize dt) 0); [reflexivity|].
  destruct (N.eqb_spec (N.of_nat (length b) mod itemsize dt) 0) as [Hm|];
    [|reflexivity].
  cbn [negb]. do 2 f_equal.
  apply List.map_ext_Forall. eapply Forall_impl.
  - apply chunks_widths.
    assert (E : (N.of_nat (length b) / itemsize dt * itemsize dt)%N
                = N.of_nat (length b)).
    { rewrite N.mul_comm. symmetry. apply N.Div0.div_exact. exact Hm. }
    lia.
  - intros c Hc. cbn in Hc. apply Hext, Hc.
Qed.

Lemma rev_short {A} (c : list A) : (length c <= 1)%nat -> rev c = c.
Proof. destruct c as [|x [|y c]]; cbn; [reflexivity..|lia]. Qed.

(** Under the dtype [newbyteorder('>')] gives, an item of the dtype's
    width is read most significant byte first, whatever the host is. *)
Lemma decode_item_be host o k w c :
  length c = N.to_nat w ->
  decode_item host (newbyteorder Big (DBasic o k w)) c = be_elem k c.
Proof.
  intros Hlen. cbn [newbyteorder]. destruct (has_byteorder k w) eqn:Hb.
  - destruct k; try discriminate Hb; reflexivity.
  - assert (Hrev : k = KInt \/ k = KUInt \/ k = KFloat -> rev c = c).
    { intros Hk. apply rev_short.
      assert ((1 <? w)%N = false) as Hw
        by (destruct Hk as [-> | [-> | ->]]; exact Hb).
      apply N.ltb_ge in Hw. lia. }
    destruct k; cbn [decode_item be_elem]; try reflexivity;
      unfold signed_value, unsigned_value; rewrite Hrev by tauto;
      destruct (is_big host NotApplicable); reflexivity.
Qed.

Lemma frombuffer_big host host' b o k w :
  frombuffer host b (newbyteorder Big (DBasic o k w))
  = frombuffer host' b (newbyteorder Big (DBasic o k w)).
Proof.
  apply frombuffer_ext. intros c Hc.
  change (itemsize (newbyteorder Big (DBasic o k w))) with w in Hc.
  rewrite !decode_item_be by exact Hc. reflexivity.
Qed.

(** The view under that dtype holds the big-endian readings of the
    pieces of the buffer. *)
Lemma frombuffer_be host o k w b a :
  frombuffer host b (newbyteorder Big (DBasic o k w)) = Done a ->
  arr_dtype a = DBasic (if has_byteorder k w then Big else NotApplicable) k w
  /\ arr_data a
     = map (be_elem k) (chunks (N.to_nat w) (length (arr_data a)) b).
Proof.
  intros H. destruct (frombuffer_Done _ _ _ _ H) as (Hw & Hn & ->).
  change (itemsize (newbyteorder Big (DBasic o k w))) with w in *.
  cbn [arr_dtype arr_data]. split; [reflexivity|].
  rewrite length_map, chunks_length.
  apply List.map_ext_Forall. eapply Forall_impl; [apply chunks_widths; lia|].
  intros c Hc. cbn in Hc. apply decode_item_be, Hc.
Qed.

(** The view under a record of one opaque field: the pieces of the
    buffer as they are. *)
Lemma frombuffer_void host name w b :
  frombuffer host b (DStruct [(name, DBasic NotApplicable KVoid w)])
  = if (w =? 0)%N then Throw ValueError_frombuffer
    else if negb (N.of_nat (length b) mod w =? 0)%N
         then Throw ValueError_frombuffer
    else Done {| arr_dtype := DStruct [(name, DBasic NotApplicable KVoid w)];
                 arr_shape := [(N.of_nat (length b) / w)%N];
                 arr_data :=
                   map ERaw (chunks (N.to_nat w)
                                    (N.to_nat (N.of_nat (length b) / w)) b) |}.
Proof.
  unfold frombuffer. cbn [itemsize fold_right snd]. rewrite N.add_0_r.
  reflexivity.
Qed.

(** The name of the field is all that such a view owes to it. *)
Lemma typed_view_void host name w b shape :
  typed_view host b (DStruct [(name, DBasic NotApplicable KVoid w)]) shape
  = rbind (typed_view false b
             (DStruct [(EmptyString, DBasic NotApplicable KVoid w)]) shape)
          (fun a =>
             Done {| arr_dtype :=
                       DStruct [(name, DBasic NotApplicable KVoid w)];
                     arr_shape := arr_shape a;
                     arr_data := arr_data a |}).
Proof.
  unfold typed_view. rewrite !frombuffer_void.
  destruct (w =? 0)%N; [reflexivity|].
  destruct (negb _); [reflexivity|]. cbn [rbind].
  destruct shape as [[|n shape']|]; try reflexivity.
  unfold reshape. cbn [arr_data arr_dtype].
  destruct (_ =? _)%N; reflexivity.
Qed.

Lemma typed_view_dtype host b dt shape a :
  typed_view host b dt shape = Done a -> arr_dtype a = dt.
Proof.
  unfold typed_view. destruct (frombuffer host b dt) as [flat|] eqn:E;
    [|discriminate].
  apply frombuffer_flat in E as [Edt _]. cbn.
  destruct shape as [[|n shape']|]; try (intros [= <-]; exact Edt).
  unfold reshape. destruct (_ =? _)%N; [|discriminate].
  intros [= <-]. exact Edt.
Qed.

Lemma typed_view_data host b dt shape a :
  typed_view host b dt shape = Done a ->
  exists flat,
    frombuffer host b dt = Done flat
    /\ arr_data a = arr_data flat /\ arr_dtype a = arr_dtype flat.
Proof.
  unfold typed_view. destruct (frombuffer host b dt) as [flat|];
    [|discriminate].
  cbn [rbind]. intros H. exists flat. split; [reflexivity|].
  destruct shape as [[|n shape']|]; try (injection H as <-; split; reflexivity).
  unfold reshape in H. destruct (_ =? _)%N; [|discriminate].
  injection H as <-. split; reflexivity.
Qed.

(** C6, amended.  For a header whose dataType is in the TypeMapper
    table: with compress DEFLATE the buffer is inflated, and the call
    fails on the length assertion unless the inflated length equals
    uncompressedSize, in which case the view is taken on the inflated
    bytes.  For dataType STRUCTURE with a row length that is an item
    width, the bytes of the StructureData are viewed as they are when
    compress is NONE or DEFLATE.  Any compress code other than NONE and
    DEFLATE fails as unsupported, for such a STRUCTURE as well.  A
    STRUCTURE whose row length is above the largest item width fails
    when its record dtype is built, before compress is looked at. *)
Theorem make_array_decompression host zlib h :
  (forall b,
      Data.compress h = DEFLATE ->
      is_Some (_dtypeLookup (Data.dataType h)) ->
      exists k w,
        data_type_to_numpy (Data.dataType h) false
        = Done (DBasic Native k w)
        /\ match zlib b with
           | None => make_array host zlib h (Bytes b) = Throw ZlibError
           | Some inflated =>
               if (N.of_nat (length inflated) =? Data.uncompressedSize h)%N
               then make_array host zlib h (Bytes b)
                    = typed_view host inflated
                        (newbyteorder Big (DBasic Native k w))
                        (make_array_shape h)
               else make_array host zlib h (Bytes b) = Throw AssertionError
           end)
  /\ (forall sd,
        Data.dataType h = STRUCTURE ->
        (StructureData.rowLength sd <= max_itemsize)%N ->
        Data.compress h = NONE \/ Data.compress h = DEFLATE ->
        make_array host zlib h (Struct sd)
        = typed_view host (StructureData.data sd)
            (DStruct [(if Data.bigend h then ">"%string else "<"%string,
                       DBasic NotApplicable KVoid
                              (StructureData.rowLength sd))])
            (make_array_shape h))
  /\ (forall code buf,
        Data.compress h = Compress_unknown code ->
        is_Some (_dtypeLookup (Data.dataType h))
        \/ (Data.dataType h = STRUCTURE
            /\ exists sd,
                 buf = Struct sd
                 /\ (StructureData.rowLength sd <= max_itemsize)%N) ->
        make_array host zlib h buf = Throw NotImplementedError_compress)
  /\ (forall sd,
        Data.dataType h = STRUCTURE ->
        (max_itemsize < StructureData.rowLength sd)%N ->
        make_array host zlib h (Struct sd) = Throw ValueError_dtype).
Proof.
  split; [|split; [|split]].
  - intros b Hc Hl.
    destruct (make_array_dtype_lookup h (Bytes b) Hl) as (k & w & E & Edt).
    exists k, w. split; [exact E|].
    rewrite make_array_stages, Edt. cbn [rbind].
    unfold make_array_decompress. rewrite Hc.
    assert (Hns : Data.dataType h <> STRUCTURE).
    { intros Es. rewrite Es in Hl. destruct Hl as [s Hs]. discriminate Hs. }
    rewrite bool_decide_eq_true_2 by reflexivity.
    rewrite (bool_decide_eq_false_2 _ Hns). cbn [negb as_buffer rbind].
    destruct (zlib b) as [inflated|]; [|reflexivity].
    destruct (_ =? _)%N; reflexivity.
  - intros sd Hs Hw Hc. rewrite make_array_stages.
    rewrite (make_array_dtype_structure _ _ Hs).
    destruct (N.ltb_spec max_itemsize (StructureData.rowLength sd)); [lia|].
    cbn [rbind]. unfold make_array_decompress. rewrite Hs.
    rewrite (bool_decide_eq_true_2 (STRUCTURE = STRUCTURE)) by reflexivity.
    cbn [negb].
    destruct Hc as [-> | ->]; destruct (Data.bigend h); reflexivity.
  - intros code buf Hc Hdt. rewrite make_array_stages.
    assert (Hd : forall buf', make_array_decompress zlib h buf'
                              = Throw NotImplementedError_compress).
    { intros buf'. unfold make_array_decompress. rewrite Hc. reflexivity. }
    destruct Hdt as [Hl | [Hs (sd & -> & Hw)]].
    + destruct (make_array_dtype_lookup h buf Hl) as (k & w & _ & ->).
      cbn [rbind]. rewrite Hd. reflexivity.
    + rewrite (make_array_dtype_structure _ _ Hs).
      destruct (N.ltb_spec max_itemsize (StructureData.rowLength sd)); [lia|].
      cbn [rbind]. rewrite Hd. reflexivity.
  - intros sd Hs Hw. rewrite make_array_stages.
    rewrite (make_array_dtype_structure _ _ Hs).
    destruct (N.ltb_spec max_itemsize (StructureData.rowLength sd)); [|lia].
    reflexivity.
Qed.

(** C6 as stated fails for a STRUCTURE header with a compress code that
    is neither NONE nor DEFLATE: the row bytes are not used, the call
    raises.  It also fails outside the table: a SEQUENCE header raises
    on the dtype lookup before any decompression is looked at. *)
Lemma make_array_structure_unknown_compress :
  let sd := {| StructureData.data := [x01; x02];
               StructureData.rowLength := 2 |} in
  let h c := {| Data.dataType := STRUCTURE; Data.compress := c;
                Data.bigend := true; Data.vdata := false;
                Data.section_range := [{| r_size := 1 |}];
                Data.uncompressedSize := 2 |} in
  make_array false Wire.zlib_decompress (h (Compress_unknown 2)) (Struct sd)
  = Throw NotImplementedError_compress
  /\ make_array false Wire.zlib_decompress (h DEFLATE) (Struct sd)
     = Done {| arr_dtype :=
                 DStruct [(">"%string, DBasic NotApplicable KVoid 2)];
               arr_shape := [1%N];
               arr_data := [ERaw [x01; x02]] |}
  /\ make_array false Wire.zlib_decompress
       {| Data.dataType := SEQUENCE; Data.compress := DEFLATE;
          Data.bigend := true; Data.vdata := false;
          Data.section_range := []; Data.uncompressedSize := 0 |}
       (Bytes [x78])
     = Throw KeyError.
Proof. repeat split. Qed.

Lemma make_array_decompression_witness :
  make_array false Wire.zlib_decompress
    {| Data.dataType := INT; Data.compress := Compress_unknown 7;
       Data.bigend := false; Data.vdata := false;
       Data.section_range := []; Data.uncompressedSize := 4 |}
    (Bytes [x00; x00; x00; x2a])
  = Throw NotImplementedError_compress
  /\ make_array false Wire.zlib_decompress
       {| Data.dataType := STRUCTURE; Data.compress := DEFLATE;
          Data.bigend := true; Data.vdata := false;
          Data.section_range := []; Data.uncompressedSize := 0 |}
       (Struct {| StructureData.data := [x01; x02];
                  StructureData.rowLength := 2 |})
     = Done {| arr_dtype :=
                 DStruct [(">"%string, DBasic NotApplicable KVoid 2)];
               arr_shape := [1%N];
               arr_data := [ERaw [x01; x02]] |}
  /\ make_array false Wire.zlib_decompress
       {| Data.dataType := STRUCTURE; Data.compress := NONE;
          Data.bigend := true; Data.vdata := false;
          Data.section_range := []; Data.uncompressedSize := 0 |}
       (Struct {| StructureData.data := [];
                  StructureData.rowLength := 2147483648 |})
     = Throw ValueError_dtype.
Proof.
  split; [|split].
  - apply (proj1 (proj2 (proj2
             (make_array_decompression false Wire.zlib_decompress
                {| Data.dataType := INT;
                   Data.compress := Compress_unknown 7;
                   Data.bigend := false; Data.vdata := false;
                   Data.section_range := [];
                   Data.uncompressedSize := 4 |}))) 7
             (Bytes [x00; x00; x00; x2a]) eq_refl).
    left. cbn. eauto.
  - apply (proj1 (proj2
             (make_array_decompression false Wire.zlib_decompress
                {| Data.dataType := STRUCTURE; Data.compress := DEFLATE;
                   Data.bigend := true; Data.vdata := false;
                   Data.section_range := [];
                   Data.uncompressedSize := 0 |}))
             {| StructureData.data := [x01; x02];
                StructureData.rowLength := 2 |} eq_refl).
    + vm_compute. discriminate.
    + right. reflexivity.
  - apply (proj2 (proj2 (proj2
             (make_array_decompression false Wire.zlib_decompress
                {| Data.dataType := STRUCTURE; Data.compress := NONE;
                   Data.bigend := true; Data.vdata := false;
                   Data.section_range := [];
                   Data.uncompressedSize := 0 |})))
             {| StructureData.data := [];
                StructureData.rowLength := 2147483648 |} eq_refl).
    reflexivity.
Defined.

(** C7, amended.  The elements of an array materialized from a
    non-STRUCTURE payload are the readings, most significant byte
    first, of the pieces of the decompressed buffer; the dtype carries
    the big-endian order wherever items have a byte order; and neither
    the bigend flag of the header nor the byte order of the host changes
    the array.  A STRUCTURE payload is not decoded: its rows are the raw
    pieces of the row bytes under a record of one opaque field that has
    no byte order; the bigend flag names that field, ['>'] when set and
    ['<'] when not, and changes neither the rows nor the shape.  The
    blocks of the string/opaque/vdata branch of the decode loop are read
    most significant byte first as well. *)
Theorem make_array_byte_order :
  (forall host zlib h buf a,
      make_array host zlib h buf = Done a ->
      Data.dataType h <> STRUCTURE ->
      exists k w b,
        make_array_decompress zlib h buf = Done (Bytes b)
        /\ arr_dtype a
           = DBasic (if has_byteorder k w then Big else NotApplicable) k w
        /\ arr_data a
           = map (be_elem k) (chunks (N.to_nat w) (length (arr_data a)) b)
        /\ (forall flag host',
              make_array host' zlib (set_bigend flag h) buf = Done a))
  /\ (forall host zlib h sd a,
        make_array host zlib h (Struct sd) = Done a ->
        Data.dataType h = STRUCTURE ->
        arr_dtype a
        = DStruct [(if Data.bigend h then ">"%string else "<"%string,
                    DBasic NotApplicable KVoid (StructureData.rowLength sd))]
        /\ dtype_order (arr_dtype a) = Some NotApplicable
        /\ arr_data a
           = map ERaw (chunks (N.to_nat (StructureData.rowLength sd))
                              (length (arr_data a))
                              (StructureData.data sd))
        /\ (forall flag host',
              exists a',
                make_array host' zlib (set_bigend flag h) (Struct sd)
                = Done a'
                /\ arr_shape a' = arr_shape a
                /\ arr_data a' = arr_data a))
  /\ (forall host dataType dt b view,
        vlen_dtype dataType = Done dt ->
        frombuffer host b dt = Done view ->
        exists k w,
          dt = DBasic (if has_byteorder k w then Big else NotApplicable) k w
          /\ arr_data view
             = map (be_elem k)
                   (chunks (N.to_nat w) (length (arr_data view)) b)).
Proof.
  split; [|split].
  - intros host zlib h buf a H Hns.
    assert (Hstep : exists k w, forall flag,
               make_array_dtype (set_bigend flag h) buf
               = Done (buf, Big, DBasic Native k w)
               /\ make_array_dtype h buf = Done (buf, Big, DBasic Native k w)).
    { rewrite make_array_stages in H. unfold make_array_dtype in *.
      cbn [set_bigend Data.dataType].
      rewrite (bool_decide_eq_false_2 _ Hns) in *.
      destruct (data_type_to_numpy (Data.dataType h) false) as [dt|] eqn:E;
        [|discriminate H].
      assert (Hl : is_Some (_dtypeLookup (Data.dataType h))).
      { unfold data_type_to_numpy in E.
        destruct (_dtypeLookup (Data.dataType h)); [eauto|discriminate]. }
      destruct (data_type_to_numpy_lookup _ Hl) as (k & w & E').
      rewrite E' in E. injection E as <-.
      exists k, w. intros fl. split; reflexivity. }
    destruct Hstep as (k & w & Hstep).
    rewrite make_array_stages in H.
    rewrite (proj2 (Hstep true)) in H. cbn [rbind] in H.
    destruct (make_array_decompress zlib h buf) as [buf2|] eqn:Hz;
      [|discriminate].
    cbn [rbind] in H. destruct buf2 as [b|sd]; [|discriminate].
    cbn [as_buffer rbind] in H.
    exists k, w, b. split; [reflexivity|].
    destruct (typed_view_data _ _ _ _ _ H) as (flat & Hflat & Hdata & Hdt).
    destruct (frombuffer_be _ _ _ _ _ _ Hflat) as [Hfd Hfv].
    split; [rewrite Hdt; exact Hfd|].
    split; [rewrite Hdata; exact Hfv|].
    intros fl host'. rewrite make_array_stages.
    rewrite (proj1 (Hstep fl)). cbn [rbind].
    change (make_array_decompress zlib (set_bigend fl h) buf)
      with (make_array_decompress zlib h buf).
    change (make_array_shape (set_bigend fl h)) with (make_array_shape h).
    rewrite Hz. cbn [rbind as_buffer]. rewrite <- H.
    unfold typed_view. rewrite (frombuffer_big host' host). reflexivity.
  - intros host zlib h sd a H Hs.
    assert (Hgen : forall h' host',
               Data.dataType h' = STRUCTURE ->
               make_array host' zlib h' (Struct sd)
               = if (max_itemsize <? StructureData.rowLength sd)%N
                 then Throw ValueError_dtype
                 else
                   rbind (make_array_decompress zlib h'
                            (Bytes (StructureData.data sd))) (fun buf =>
                   rbind (as_buffer buf) (fun b =>
                   typed_view host' b
                     (DStruct [(if Data.bigend h' then ">"%string
                                else "<"%string,
                                DBasic NotApplicable KVoid
                                       (StructureData.rowLength sd))])
                     (make_array_shape h')))).
    { intros h' host' Hs'. rewrite make_array_stages.
      rewrite (make_array_dtype_structure _ _ Hs').
      destruct (_ <? _)%N; reflexivity. }
    rewrite (Hgen h host Hs) in H.
    destruct (_ <? _)%N; [discriminate|].
    assert (Hb : make_array_decompress zlib h (Bytes (StructureData.data sd))
                 = Done (Bytes (StructureData.data sd))).
    { revert H. unfold make_array_decompress. rewrite Hs.
      rewrite (bool_decide_eq_true_2 (STRUCTURE = STRUCTURE)) by reflexivity.
      cbn [negb]. destruct (bool_decide _); [reflexivity|].
      destruct (negb _); [discriminate|reflexivity]. }
    rewrite Hb in H. cbn [rbind as_buffer] in H.
    rewrite typed_view_void in H.
    destruct (typed_view false (StructureData.data sd) _ (make_array_shape h))
      as [a0|] eqn:Hview; [|discriminate].
    cbn [rbind] in H. injection H as <-. cbn [arr_dtype arr_shape arr_data].
    split; [reflexivity|]. split; [reflexivity|]. split.
    { destruct (typed_view_data _ _ _ _ _ Hview) as (flat & Hflat & -> & _).
      rewrite frombuffer_void in Hflat.
      destruct (_ =? 0)%N; [discriminate|].
      destruct (negb _); [discriminate|]. injection Hflat as <-.
      cbn [arr_data]. rewrite length_map, chunks_length. reflexivity. }
    intros fl host'. rewrite (Hgen (set_bigend fl h) host' Hs).
    change (make_array_decompress zlib (set_bigend fl h))
      with (make_array_decompress zlib h).
    change (make_array_shape (set_bigend fl h)) with (make_array_shape h).
    rewrite Hb. cbn [rbind as_buffer]. rewrite typed_view_void, Hview.
    cbn [rbind]. eexists. split; [reflexivity|]. split; reflexivity.
  - intros host t dt b view H Hview. unfold vlen_dtype in H.
    destruct (data_type_to_numpy t false) as [d|] eqn:E; [|discriminate].
    assert (Hl : is_Some (_dtypeLookup t)).
    { unfold data_type_to_numpy in E.
      destruct (_dtypeLookup t); [eauto|discriminate]. }
    destruct (data_type_to_numpy_lookup _ Hl) as (k & w & E').
    rewrite E' in E. injection E as <-. cbn [rbind] in H. injection H as <-.
    exists k, w. split; [reflexivity|].
    apply (frombuffer_be _ Native _ _ _ _ Hview).
Qed.

Lemma make_array_byte_order_witness :
  let h := {| Data.dataType := INT; Data.compress := NONE;
              Data.bigend := false; Data.vdata := false;
              Data.section_range := [{| r_size := 1 |}];
              Data.uncompressedSize := 4 |} in
  let a := {| arr_dtype := DBasic Big KInt 4;
              arr_shape := [1%N];
              arr_data := [EInt 42] |} in
  let hs := {| Data.dataType := STRUCTURE; Data.compress := NONE;
               Data.bigend := false; Data.vdata := false;
               Data.section_range := []; Data.uncompressedSize := 0 |} in
  let sd := {| StructureData.data := [x01; x02; x03; x04];
               StructureData.rowLength := 2 |} in
  let rows := {| arr_dtype :=
                   DStruct [("<"%string, DBasic NotApplicable KVoid 2)];
                 arr_shape := [2%N];
                 arr_data := [ERaw [x01; x02]; ERaw [x03; x04]] |} in
  make_array true Wire.zlib_decompress (set_bigend true h)
    (Bytes [x00; x00; x00; x2a]) = Done a
  /\ (exists a',
        make_array true Wire.zlib_decompress (set_bigend true hs) (Struct sd)
        = Done a'
        /\ arr_shape a' = arr_shape rows /\ arr_data a' = arr_data rows)
  /\ dtype_order (arr_dtype rows) = Some NotApplicable
  /\ (exists k w,
        DBasic Big KInt 2
        = DBasic (if has_byteorder k w then Big else NotApplicable) k w
        /\ [EInt 258; EInt (-2)]
           = map (be_elem k) (chunks (N.to_nat w) 2 [x01; x02; xff; xfe])).
Proof.
  intros h a hs sd rows.
  destruct (proj1 make_array_byte_order false Wire.zlib_decompress
              h (Bytes [x00; x00; x00; x2a]) a eq_refl ltac:(discriminate))
    as (k & w & b & _ & _ & _ & Hflag).
  destruct (proj1 (proj2 make_array_byte_order) false Wire.zlib_decompress
              hs sd rows eq_refl eq_refl) as (_ & Horder & _ & Hrows).
  split; [exact (Hflag true true)|].
  split; [exact (Hrows true true)|]. split; [exact Horder|].
  exact (proj2 (proj2 make_array_byte_order) false SHORT (DBasic Big KInt 2)
           [x01; x02; xff; xfe]
           {| arr_dtype := DBasic Big KInt 2;
              arr_shape := [2%N];
              arr_data := [EInt 258; EInt (-2)] |} eq_refl eq_refl).
Defined.

(** C7 as stated fails for a STRUCTURE payload: with bigend set and
    with bigend not set the record has no byte order and the rows are
    the same raw bytes; the two arrays differ in the name of the record's
    one field only. *)
Lemma make_array_structure_no_byte_order :
  let sd := {| StructureData.data := [x01; x02; x03; x04];
               StructureData.rowLength := 2 |} in
  let h flag := {| Data.dataType := STRUCTURE; Data.compress := NONE;
                   Data.bigend := flag; Data.vdata := false;
                   Data.section_range := []; Data.uncompressedSize := 0 |} in
  let rows name := {| arr_dtype :=
                        DStruct [(name, DBasic NotApplicable KVoid 2)];
                      arr_shape := [2%N];
                      arr_data := [ERaw [x01; x02]; ERaw [x03; x04]] |} in
  make_array false Wire.zlib_decompress (h true) (Struct sd)
  = Done (rows ">"%string)
  /\ make_array false Wire.zlib_decompress (h false) (Struct sd)
     = Done (rows "<"%string)
  /\ dtype_order (arr_dtype (rows ">"%string)) <> Some Big
  /\ dtype_order (arr_dtype (rows "<"%string)) <> Some Little.
Proof. repeat split; discriminate. Qed.




(** ** AttributeDecoder *)

(** The converters are the big-endian spellings ['>b'], ['>i2'], ['>i4'],
    ['>i8'], ['>f4'] and ['>f8']. *)
Lemma _attrConverters_spelling :
  Done <$> _attrConverters Attribute.BYTE = Some (np_dtype ">b")
  /\ Done <$> _attrConverters Attribute.SHORT = Some (np_dtype ">i2")
  /\ Done <$> _attrConverters Attribute.INT = Some (np_dtype ">i4")
  /\ Done <$> _attrConverters Attribute.LONG = Some (np_dtype ">i8")
  /\ Done <$> _attrConverters Attribute.FLOAT = Some (np_dtype ">f4")
  /\ Done <$> _attrConverters Attribute.DOUBLE = Some (np_dtype ">f8").
Proof. repeat split. Qed.

Lemma _attrConverters_big type dt :
  _attrConverters type = Some dt ->
  type <> Attribute.STRING
  /\ exists k w, dt = DBasic Big k w /\ (0 < w)%N /\ k <> KObject.
Proof.
  destruct type; intros [= <-]; (split; [discriminate|]);
    eexists _, _; repeat split; (reflexivity || discriminate).
Qed.

(** C5, amended.  [unpack_attribute] returns a null value when len is 0.
    For type STRING it returns sdata in full when len is above 1 and
    the first item of sdata when len is 1.  Otherwise, with data long
    enough, it decodes data big-endian with the converter of the type:
    when len is above 1 the value is the array of exactly len elements,
    when len is 1 it is the single element as a scalar. *)
Theorem unpack_attribute_value :
  forall (host : bool) (item : Type) (att : Attribute.t item),
    let outcome := snd (unpack_attribute host att) in
    let name := Attribute.name att in
    (Attribute.len att = 0%N -> outcome = Done (name, VNone))
    /\ (Attribute.type att = Attribute.STRING ->
        (1 < Attribute.len att)%N ->
        outcome = Done (name, VSdata (Attribute.sdata att)))
    /\ (Attribute.type att = Attribute.STRING ->
        Attribute.len att = 1%N ->
        outcome = match Attribute.sdata att with
                  | i :: _ => Done (name, VItem i)
                  | [] => Throw IndexError
                  end)
    /\ (forall dt,
          _attrConverters (Attribute.type att) = Some dt ->
          (Attribute.len att * itemsize dt
           <= N.of_nat (length (Attribute.data att)))%N ->
          let items :=
            map (decode_item true dt)
                (chunks (N.to_nat (itemsize dt))
                        (N.to_nat (Attribute.len att))
                        (Attribute.data att)) in
          dtype_order dt = Some Big
          /\ N.of_nat (length items) = Attribute.len att
          /\ ((1 < Attribute.len att)%N ->
              outcome = Done (name,
                              VArray {| arr_dtype := dt;
                                        arr_shape := [Attribute.len att];
                                        arr_data := items |}))
          /\ (Attribute.len att = 1%N ->
              outcome = Done (name,
                              VScalar (decode_item true dt
                                         (take (N.to_nat (itemsize dt))
                                               (Attribute.data att)))))).
Proof.
  intros host item att outcome name. subst outcome name.
  unfold unpack_attribute. cbn [snd].
  split; [|split; [|split]].
  - intros ->. reflexivity.
  - intros Ht Hlen.
    destruct (N.eqb_spec (Attribute.len att) 0); [lia|].
    destruct (N.eqb_spec (Attribute.len att) 1); [lia|].
    rewrite Ht. reflexivity.
  - intros Ht ->. rewrite Ht. cbn.
    destruct (Attribute.sdata att); reflexivity.
  - intros dt Hdt Hlen.
    destruct (_attrConverters_big _ _ Hdt) as (Hns & k & w & -> & Hw & Hk).
    cbn [itemsize] in *.
    set (items := map (decode_item true (DBasic Big k w)) _).
    split; [reflexivity|].
    split; [subst items; rewrite length_map, chunks_length; lia|].
    rewrite (bool_decide_eq_false_2 _ Hns), Hdt.
    assert (Hfs : fromstring host (Attribute.data att) (DBasic Big k w)
                             (Attribute.len att)
                  = Done {| arr_dtype := DBasic Big k w;
                            arr_shape := [Attribute.len att];
                            arr_data := items |}).
    { unfold fromstring. cbn [has_object itemsize].
      rewrite (bool_decide_eq_false_2 _ Hk).
      destruct (N.eqb_spec w 0); [lia|].
      destruct (N.ltb_spec (N.of_nat (length (Attribute.data att)))
                           (Attribute.len att * w)); [lia|].
      reflexivity. }
    rewrite Hfs. cbn [rbind].
    split.
    + intros Hgt.
      destruct (N.eqb_spec (Attribute.len att) 0); [lia|].
      destruct (N.eqb_spec (Attribute.len att) 1); [lia|].
      reflexivity.
    + intros E1. subst items. rewrite E1. reflexivity.
Qed.

Lemma unpack_attribute_value_witness :
  snd (unpack_attribute false
         {| Attribute.name := "scale"; Attribute.type := Attribute.SHORT;
            Attribute.len := 2; Attribute.data := [x00; x01; xff; xfe];
            Attribute.sdata := @nil ascii; Attribute.unsigned := false |})
  = Done ("scale"%string,
          VArray {| arr_dtype := DBasic Big KInt 2;
                    arr_shape := [2%N];
                    arr_data := [EInt 1; EInt (-2)] |}).
Proof.
  apply (proj1 (proj2 (proj2
    (proj2 (proj2 (proj2
      (unpack_attribute_value false ascii
         {| Attribute.name := "scale"; Attribute.type := Attribute.SHORT;
            Attribute.len := 2; Attribute.data := [x00; x01; xff; xfe];
            Attribute.sdata := @nil ascii;
            Attribute.unsigned := false |})))
      (DBasic Big KInt 2) eq_refl ltac:(vm_compute; discriminate))))).
  reflexivity.
Defined.

(** C5 as stated fails for a STRING attribute of len 1: the value is
    the first item of sdata, not sdata in full.  Here sdata is the text
    "hi", one character per item. *)
Lemma unpack_attribute_string_len_one :
  let att := {| Attribute.name := "title"; Attribute.type := Attribute.STRING;
                Attribute.len := 1; Attribute.data := [];
                Attribute.sdata := ["h"; "i"]%char;
                Attribute.unsigned := false |} in
  snd (unpack_attribute false att) = Done ("title"%string, VItem "h"%char)
  /\ snd (unpack_attribute false att)
     <> Done ("title"%string, VSdata (Attribute.sdata att)).
Proof. split; [reflexivity | discriminate]. Qed.

(** ** MessageDispatcher: the byte source only shrinks *)

Lemma consumes_well_behaved {A} (m : M A) : consumes m -> well_behaved m.
Proof.
  intros H w. specialize (H w). destruct (m w); [lia|exact I|exact H].
Qed.

Lemma well_behaved_ret {A} (a : A) : well_behaved (ret a).
Proof. intros w. cbn. lia. Qed.

Lemma well_behaved_mret {A} (a : A) : well_behaved (mret a : M A).
Proof. apply well_behaved_ret. Qed.

Lemma well_behaved_raise {A} e : well_behaved (raise e : M A).
Proof. intros w. exact I. Qed.

Lemma well_behaved_lift {A} (r : result A) : well_behaved (lift r).
Proof. destruct r; [apply well_behaved_ret|apply well_behaved_raise]. Qed.

Lemma well_behaved_bind {A B} (m : M A) (k : A -> M B) :
  well_behaved m -> (forall a, well_behaved (k a)) -> well_behaved (m ≫= k).
Proof.
  intros Hm Hk w. unfold mbind, M_bind, bind.
  specialize (Hm w). destruct (m w) as [a w'| |]; [|exact I|exact Hm].
  specialize (Hk a w'). destruct (k a w'); [lia|exact I|exact Hk].
Qed.

Lemma consumes_bind {A B} (m : M A) (k : A -> M B) :
  consumes m -> (forall a, well_behaved (k a)) -> consumes (m ≫= k).
Proof.
  intros Hm Hk w. unfold mbind, M_bind, bind.
  specialize (Hm w). destruct (m w) as [a w'| |]; [|exact I|exact Hm].
  specialize (Hk a w'). destruct (k a w'); [lia|exact I|exact Hk].
Qed.

Lemma well_behaved_read n : well_behaved (read n).
Proof.
  intros w. unfold read. destruct (negb (is_ssize n)); [exact I|].
  destruct (n <? 0); cbn [fobj]; [cbn; lia|].
  rewrite length_drop. lia.
Qed.

Lemma read_magic_eval w :
  read_magic w
  = Ok (take (Z.to_nat 4) (fobj w))
       {| fobj := drop (Z.to_nat 4) (fobj w); log := log w |}.
Proof. reflexivity. Qed.

Lemma well_behaved_log_emit msg : well_behaved (log_emit msg).
Proof. intros w. cbn. lia. Qed.

Lemma well_behaved_get_fobj : well_behaved get_fobj.
Proof. intros w. cbn. lia. Qed.

Lemma consumes_read_var_int_M : consumes read_var_int_M.
Proof.
  intros w. unfold read_var_int_M.
  destruct (read_var_int (fobj w)) as [[val rest]|e] eqn:E; [|exact I].
  cbn [fobj]. eapply read_var_int_loop_shorter, E.
Qed.

Lemma consumes_read_block : consumes read_block.
Proof.
  apply consumes_bind; [apply consumes_read_var_int_M|].
  intros n. apply well_behaved_read.
Qed.

Lemma well_behaved_read_blocks n : well_behaved (read_blocks n).
Proof.
  induction n as [|n IH]; cbn [read_blocks]; [apply well_behaved_mret|].
  apply well_behaved_bind;
    [apply consumes_well_behaved, consumes_read_block|intros b].
  apply well_behaved_bind; [exact IH|intros bs]. apply well_behaved_mret.
Qed.

Lemma well_behaved_parse {A} (p : bytes -> option A) block :
  well_behaved (parse p block).
Proof.
  unfold parse. destruct (p block);
    [apply well_behaved_ret|apply well_behaved_raise].
Qed.

Lemma well_behaved_ends_within {A} n (m : M A) :
  well_behaved m -> ends_within n m.
Proof. intros H w _. apply H. Qed.

Lemma ends_within_bind {A B} n (m : M A) (k : A -> M B) :
  well_behaved m -> (forall a, ends_within n (k a)) ->
  ends_within n (m ≫= k).
Proof.
  intros Hm Hk w Hw. unfold mbind, M_bind, bind.
  specialize (Hm w). destruct (m w) as [a w'| |]; [|exact I|exact Hm].
  specialize (Hk a w'). destruct (k a w'); [|exact I|apply Hk; lia].
  assert (length (fobj w') < n)%nat as Hlt by lia. specialize (Hk Hlt). lia.
Qed.

Lemma ends_within_bind_consumes {A B} n (m : M A) (k : A -> M B) :
  consumes m -> (forall a, ends_within n (k a)) ->
  ends_within (S n) (m ≫= k).
Proof.
  intros Hm Hk w Hw. unfold mbind, M_bind, bind.
  specialize (Hm w). destruct (m w) as [a w'| |]; [|exact I|exact Hm].
  specialize (Hk a w'). destruct (k a w'); [|exact I|apply Hk; lia].
  assert (length (fobj w') < n)%nat as Hlt by lia. specialize (Hk Hlt). lia.
Qed.

Lemma ends_within_bind_l {A B} n (m : M A) (k : A -> M B) :
  ends_within n m -> (forall a, well_behaved (k a)) ->
  ends_within n (m ≫= k).
Proof.
  intros Hm Hk w Hw. unfold mbind, M_bind, bind.
  specialize (Hm w Hw). destruct (m w) as [a w'| |]; [|exact I|exact Hm].
  specialize (Hk a w'). destruct (k a w'); [lia|exact I|exact Hk].
Qed.

Create HintDb shrink.
#[local] Hint Resolve well_behaved_ret well_behaved_mret well_behaved_raise
  well_behaved_lift well_behaved_read well_behaved_log_emit
  well_behaved_get_fobj well_behaved_read_blocks well_behaved_parse
  consumes_read_var_int_M consumes_read_block consumes_well_behaved : shrink.

Section DispatcherProperties.
Variable host_big_endian : bool.
Variable ragged_as_objects : bool.
Variable zlib_decompress : bytes -> option bytes.
Variable utf8_decode_ignore : bytes -> string.
Variable Header : Type.
Variable Header_new : Header.
Variable Header_ParseFromString : bytes -> option Header.
Variable Data_ParseFromString : bytes -> option Data.t.
Variable StructureData_ParseFromString : bytes -> option StructureData.t.
Variable Error_ParseFromString : bytes -> option string.

Local Abbreviation sequence_loop' :=
  (sequence_loop StructureData_ParseFromString).
Local Abbreviation data_chunk' :=
  (data_chunk host_big_endian ragged_as_objects zlib_decompress utf8_decode_ignore
     Header Data_ParseFromString StructureData_ParseFromString).
Local Abbreviation header_chunk' :=
  (header_chunk Header Header_new Header_ParseFromString).
Local Abbreviation dispatch' :=
  (dispatch host_big_endian ragged_as_objects zlib_decompress utf8_decode_ignore Header
     Header_new Header_ParseFromString Data_ParseFromString
     StructureData_ParseFromString Error_ParseFromString).
Local Abbreviation messages_loop' :=
  (messages_loop host_big_endian ragged_as_objects zlib_decompress utf8_decode_ignore Header
     Header_new Header_ParseFromString Data_ParseFromString
     StructureData_ParseFromString Error_ParseFromString).
Local Abbreviation frames' :=
  (frames host_big_endian ragged_as_objects zlib_decompress utf8_decode_ignore Header
     Header_new Header_ParseFromString Data_ParseFromString
     StructureData_ParseFromString Error_ParseFromString).
Local Abbreviation read_ncstream_messages' :=
  (read_ncstream_messages host_big_endian ragged_as_objects zlib_decompress utf8_decode_ignore
     Header Header_new Header_ParseFromString Data_ParseFromString
     StructureData_ParseFromString Error_ParseFromString).

(** With more fuel than the source has bytes the sequence loop ends:
    every turn reads a block, and a block has a length byte. *)
Lemma sequence_loop_ends fuel : forall magic blocks,
  ends_within fuel (sequence_loop' fuel magic blocks).
Proof.
  induction fuel as [|fuel IH]; intros magic blocks; [intros w Hw; lia|].
  cbn [sequence_loop].
  destruct (bool_decide (magic <> MAGIC_VEND));
    [|apply well_behaved_ends_within; auto with shrink].
  apply ends_within_bind.
  { destruct (bool_decide _); auto with shrink. }
  intros _. apply ends_within_bind_consumes; [auto with shrink|intros block].
  apply ends_within_bind; [auto with shrink|intros sd].
  apply ends_within_bind; [unfold read_magic; auto with shrink|intros magic'].
  apply IH.
Qed.

Lemma well_behaved_data_chunk messages : well_behaved (data_chunk' messages).
Proof.
  unfold data_chunk.
  apply well_behaved_bind; [auto with shrink|intros block].
  apply well_behaved_bind; [auto with shrink|intros data].
  destruct (_ || _ || _).
  { apply well_behaved_bind; [auto with shrink|intros num_obj].
    apply well_behaved_bind; [auto with shrink|intros blocks].
    apply well_behaved_bind; [auto with shrink|intros dt].
    destruct (Data.vdata data); [|auto with shrink].
    apply well_behaved_bind; [auto with shrink|intros views].
    apply well_behaved_bind; [auto with shrink|intros arr].
    auto with shrink. }
  destruct (bool_decide (is_Some _)).
  { apply well_behaved_bind; [auto with shrink|intros bin_data].
    apply well_behaved_bind; [auto with shrink|intros data_block].
    auto with shrink. }
  destruct (bool_decide (_ = STRUCTURE)).
  { apply well_behaved_bind; [auto with shrink|intros block'].
    apply well_behaved_bind; [auto with shrink|intros sd].
    apply well_behaved_bind; [auto with shrink|intros data_block].
    auto with shrink. }
  destruct (bool_decide (_ = SEQUENCE)); [|auto with shrink].
  apply well_behaved_bind; [unfold read_magic; auto with shrink|intros magic].
  intros w. unfold mbind at 1, M_bind at 1, bind at 1. cbn [get_fobj].
  apply (ends_within_bind_l (S (length (fobj w)))); [|auto with shrink|lia].
  apply sequence_loop_ends.
Qed.

Lemma well_behaved_header_chunk messages :
  well_behaved (header_chunk' messages).
Proof.
  unfold header_chunk.
  destruct (_ !! 0%nat) as [[h0| | | |]|]; auto with shrink.
  apply well_behaved_bind; [auto with shrink|intros block].
  apply well_behaved_bind; [auto with shrink|intros h].
  auto with shrink.
Qed.

Lemma well_behaved_dispatch magic messages :
  well_behaved (dispatch' magic messages).
Proof.
  unfold dispatch.
  destruct (bool_decide _); [apply well_behaved_header_chunk|].
  destruct (bool_decide _); [apply well_behaved_data_chunk|].
  destruct (bool_decide _).
  - apply well_behaved_bind; [auto with shrink|intros block].
    apply well_behaved_bind; [auto with shrink|intros msg].
    auto with shrink.
  - apply well_behaved_bind; auto with shrink.
Qed.

(** With more fuel than the source has bytes the decode loop ends: a
    turn that goes on has read a non-empty magic. *)
Lemma messages_loop_ends fuel : forall messages,
  ends_within fuel (messages_loop' fuel messages).
Proof.
  induction fuel as [|fuel IH]; intros messages w Hw; [lia|].
  cbn [messages_loop]. unfold mbind at 1, M_bind at 1, bind at 1.
  rewrite read_magic_eval.
  destruct (take (Z.to_nat 4) (fobj w)) as [|b magic] eqn:Em.
  - cbn [ret fobj]. rewrite length_drop. lia.
  - assert (Hd : (length (drop (Z.to_nat 4) (fobj w)) < fuel)%nat).
    { rewrite length_drop. destruct (fobj w); [discriminate Em|].
      cbn [length] in *. change (Z.to_nat 4) with 4%nat. lia. }
    set (w1 := {| fobj := drop (Z.to_nat 4) (fobj w); log := log w |}).
    pose proof (ends_within_bind fuel (dispatch' (b :: magic) messages)
                  (messages_loop' fuel)
                  (well_behaved_dispatch _ _) IH w1 Hd) as H.
    destruct ((dispatch' (b :: magic) messages ≫= messages_loop' fuel) w1);
      [|exact I|exact H].
    subst w1. cbn [fobj] in H. cbn [fobj]. rewrite length_drop in H. lia.
Qed.

(** The decode call returns a list or raises: the fuel it starts with
    is never used up. *)
Theorem read_ncstream_messages_total source :
  read_ncstream_messages' source <> OutOfFuel.
Proof.
  unfold read_ncstream_messages. intros H.
  pose proof (messages_loop_ends (S (length source)) []
                {| fobj := source; log := [] |}) as He.
  rewrite H in He. apply He. cbn. lia.
Qed.

(** A magic that is not four bytes long is none of the five markers. *)
Lemma dispatch_short_magic magic messages w :
  length magic <> 4%nat ->
  dispatch' magic messages w
  = Ok messages {| fobj := fobj w;
                   log := log w ++ [unknown_magic_msg magic] |}.
Proof.
  intros Hlen. unfold dispatch.
  assert (Hne : forall m : bytes, length m = 4%nat -> magic <> m).
  { intros m Hm ->. contradiction. }
  rewrite !bool_decide_eq_false_2 by (apply Hne; reflexivity).
  reflexivity.
Qed.

Lemma messages_loop_fragment fuel messages frag lg :
  (1 <= length frag <= 3)%nat ->
  messages_loop' (S (S fuel)) messages {| fobj := frag; log := lg |}
  = Ok messages {| fobj := []; log := lg ++ [unknown_magic_msg frag] |}.
Proof.
  intros Hlen. cbn [messages_loop].
  unfold mbind at 1, M_bind at 1, bind at 1.
  rewrite read_magic_eval.
  cbn [fobj log]. change (Z.to_nat 4) with 4%nat.
  rewrite take_ge, drop_ge by lia.
  destruct frag as [|b frag']; [cbn in Hlen; lia|].
  unfold mbind at 1, M_bind at 1, bind at 1.
  rewrite dispatch_short_magic by lia. cbn [fobj log].
  reflexivity.
Qed.

Lemma read_magic_shorter w magic w1 :
  read_magic w = Ok magic w1 -> magic <> [] ->
  (length (fobj w1) < length (fobj w))%nat.
Proof.
  rewrite read_magic_eval.
  intros [= <- <-] Hne. cbn [fobj]. rewrite length_drop.
  destruct (fobj w); [contradiction|]. cbn. lia.
Qed.

(** Completed frames use up one unit of fuel and at least one byte
    each. *)
Lemma frames_fuel w messages w' messages' :
  frames' w messages w' messages' ->
  exists k,
    (k + length (fobj w') <= length (fobj w))%nat
    /\ forall fuel,
         messages_loop' (k + fuel) messages w = messages_loop' fuel messages' w'.
Proof.
  induction 1 as [w ms|w ms magic w1 ms1 w2 w' ms' Hm Hne Hd _ IH].
  - exists 0%nat. split; [lia|reflexivity].
  - destruct IH as (k & Hk & IH). exists (S k). split.
    + pose proof (read_magic_shorter _ _ _ Hm Hne).
      pose proof (well_behaved_dispatch magic ms w1) as Hwb.
      rewrite Hd in Hwb. lia.
    + intros fuel. cbn [Nat.add messages_loop].
      unfold mbind at 1, M_bind at 1, bind at 1. rewrite Hm.
      destruct magic as [|b magic]; [contradiction|].
      unfold mbind at 1, M_bind at 1, bind at 1. rewrite Hd. apply IH.
Qed.

(** C10.  When the source ends with a fragment of one to three bytes
    after the last completed frame, the decode call does not raise: the
    fragment is read as a magic that matches no marker, it is logged as
    unknown and nothing is appended, the next magic read is empty, and
    the call returns the list accumulated by the completed frames. *)
Theorem read_ncstream_messages_trailing_fragment source frag lg messages :
  frames' {| fobj := source; log := [] |} []
          {| fobj := frag; log := lg |} messages ->
  (1 <= length frag <= 3)%nat ->
  read_ncstream_messages' source
  = Ok messages {| fobj := []; log := lg ++ [unknown_magic_msg frag] |}.
Proof.
  intros Hf Hlen. destruct (frames_fuel _ _ _ _ Hf) as (k & Hk & Hloop).
  cbn [fobj] in Hk. unfold read_ncstream_messages.
  replace (S (length source))
    with (k + S (S (length source - k - 1)))%nat by lia.
  rewrite Hloop. apply messages_loop_fragment, Hlen.
Qed.
End DispatcherProperties.

Lemma read_ncstream_messages_trailing_fragment_witness :
  Wire.decode (MAGIC_HEADER ++ [x01; x0a] ++ [xab; xec])
  = Ok [MHeader [x0a]] {| fobj := []; log := ["Unknown magic: ab ec"%string] |}.
Proof.
  apply (read_ncstream_messages_trailing_fragment false true Wire.zlib_decompress
           Wire.utf8_decode_ignore Wire.Header Wire.Header_new
           Wire.Header_ParseFromString Wire.Data_ParseFromString
           Wire.StructureData_ParseFromString Wire.Error_ParseFromString
           (MAGIC_HEADER ++ [x01; x0a] ++ [xab; xec]) [xab; xec] []
           [MHeader [x0a]]).
  - eapply frames_cons; [reflexivity | discriminate | reflexivity |].
    apply frames_nil.
  - cbn. lia.
Defined.

(** ** MessageDispatcher: what the HEADER and SEQUENCE branches build *)

(** Frame round trip: a block written as the varint of its length and
    its bytes is read back exactly, and what follows it stays unread. *)
Lemma read_block_framed block rest lg :
  within_maxsize block ->
  read_block {| fobj := block_bytes block ++ rest; log := lg |}
  = Ok block {| fobj := rest; log := lg |}.
Proof.
  intros Hmax. unfold block_bytes. rewrite <- app_assoc.
  rewrite (read_block_eval _ lg _ _
             (read_var_int_encode (Z.of_nat (length block)) (block ++ rest)
                ltac:(lia)) Hmax).
  rewrite Nat2Z.id, take_app_length, drop_app_length. reflexivity.
Qed.

Lemma blocks_after_length sds : forall blocks,
  length (blocks_after blocks sds) = (length blocks + length sds)%nat.
Proof.
  induction sds as [|sd sds IH]; intros blocks; cbn [blocks_after length];
    [lia|].
  rewrite IH, length_insert, length_app. cbn. lia.
Qed.

Lemma last_cons_default {A} (l : list A) a d d' :
  List.last (a :: l) d = List.last (a :: l) d'.
Proof.
  revert a. induction l as [|x l IH]; intros a; [reflexivity|].
  change (List.last (x :: l) d = List.last (x :: l) d'). apply IH.
Qed.

Lemma blocks_after_cons b blocks sds :
  blocks_after (b :: blocks) sds
  = List.last sds b :: blocks ++ replicate (length sds) StructureData_new.
Proof.
  revert b blocks. induction sds as [|sd sds IH]; intros b blocks.
  - cbn. rewrite app_nil_r. reflexivity.
  - cbn [blocks_after app]. cbn [insert list_insert]. rewrite IH.
    cbn [length replicate]. rewrite <- app_assoc. cbn [app].
    f_equal.
    destruct sds as [|t sds]; [reflexivity|].
    change (List.last (sd :: t :: sds) b) with (List.last (t :: sds) b).
    apply last_cons_default.
Qed.

(** Started on the empty list, the loop leaves the StructureData of the
    last frame in the first block and fresh ones in all the others. *)
Lemma blocks_after_nil sd sds :
  blocks_after [] (sd :: sds)
  = List.last sds sd :: replicate (length sds) StructureData_new.
Proof.
  cbn [blocks_after app]. cbn [insert list_insert]. apply blocks_after_cons.
Qed.

Section SequenceProperties.
Variable host_big_endian : bool.
Variable ragged_as_objects : bool.
Variable zlib_decompress : bytes -> option bytes.
Variable utf8_decode_ignore : bytes -> string.
Variable Header : Type.
Variable Data_ParseFromString : bytes -> option Data.t.
Variable StructureData_ParseFromString : bytes -> option StructureData.t.

Local Abbreviation sequence_loop' :=
  (sequence_loop StructureData_ParseFromString).
Local Abbreviation data_chunk' :=
  (data_chunk host_big_endian ragged_as_objects zlib_decompress utf8_decode_ignore
     Header Data_ParseFromString StructureData_ParseFromString).

Lemma read_magic_app magic rest lg :
  length magic = 4%nat ->
  read_magic {| fobj := magic ++ rest; log := lg |}
  = Ok magic {| fobj := rest; log := lg |}.
Proof.
  intros Hlen. rewrite read_magic_eval.
  cbn [fobj log]. change (Z.to_nat 4) with 4%nat.
  rewrite <- Hlen, take_app_length, drop_app_length. reflexivity.
Qed.

(** Reading the next magic and looping over the frames of a sequence:
    the loop ends right after the VEND magic with one block per frame. *)
Lemma sequence_loop_frames frames : forall sds blocks lg rest fuel,
  Forall2 (sequence_frame StructureData_ParseFromString) frames sds ->
  (length frames < fuel)%nat ->
  (read_magic ≫= fun magic => sequence_loop' fuel magic blocks)
    {| fobj := sequence_bytes frames rest; log := lg |}
  = Ok (blocks_after blocks sds)
       {| fobj := rest; log := lg ++ sequence_log frames |}.
Proof.
  induction frames as [|[magic block] frames IH];
    intros sds blocks lg rest fuel Hf Hfuel.
  - inversion Hf; subst. destruct fuel as [|fuel]; [cbn in Hfuel; lia|].
    cbn [sequence_bytes]. unfold mbind at 1, M_bind at 1, bind at 1.
    rewrite read_magic_app by reflexivity. cbn [sequence_loop].
    rewrite bool_decide_eq_false_2 by (intros H; apply H; reflexivity).
    cbn [blocks_after sequence_log]. rewrite app_nil_r. reflexivity.
  - inversion Hf as [|? sd ? sds' (Hlen & Hne & Hmax & Hparse) Hf']; subst.
    cbn [fst snd] in *.
    destruct fuel as [|fuel]; [cbn in Hfuel; lia|].
    cbn [sequence_bytes]. unfold mbind at 1, M_bind at 1, bind at 1.
    rewrite read_magic_app by exact Hlen. cbn [sequence_loop].
    rewrite (bool_decide_eq_true_2 _ Hne).
    unfold mbind at 1, M_bind at 1, bind at 1.
    assert (Hlog : (if bool_decide (magic = MAGIC_VDATA)
                    then log_emit "Bad magic for struct/seq data!"
                    else ret ())
                     {| fobj := block_bytes block ++ sequence_bytes frames rest;
                        log := lg |}
                   = Ok tt {| fobj := block_bytes block
                                      ++ sequence_bytes frames rest;
                              log := lg ++ (if bool_decide (magic = MAGIC_VDATA)
                                            then ["Bad magic for struct/seq data!"%string]
                                            else []) |}).
    { destruct (bool_decide _); [reflexivity|].
      rewrite app_nil_r. reflexivity. }
    rewrite Hlog. unfold mbind at 1, M_bind at 1, bind at 1.
    rewrite read_block_framed by exact Hmax.
    unfold mbind at 1, M_bind at 1, bind at 1.
    unfold parse at 1. rewrite Hparse. cbn [ret].
    rewrite (IH sds' _ _ rest fuel Hf') by (cbn in Hfuel; lia).
    cbn [blocks_after sequence_log]. rewrite app_assoc. reflexivity.
Qed.

Lemma encode_var_int_nonempty n : encode_var_int n <> [].
Proof.
  unfold encode_var_int. cbn [encode_fuel]. destruct (n <? 128); discriminate.
Qed.

Lemma sequence_bytes_longer frames rest :
  (length frames < length (sequence_bytes frames rest))%nat.
Proof.
  induction frames as [|[magic block] frames IH]; cbn [sequence_bytes length].
  - rewrite length_app. cbn. lia.
  - unfold block_bytes. rewrite !length_app.
    pose proof (encode_var_int_nonempty (Z.of_nat (length block))).
    destruct (encode_var_int _); [contradiction|]. cbn [length]. lia.
Qed.

(** The same from the start of the SEQUENCE branch, where the fuel is
    taken from the bytes left after the first magic. *)
Lemma sequence_start_frames frames sds blocks lg rest :
  Forall2 (sequence_frame StructureData_ParseFromString) frames sds ->
  (read_magic ≫= fun magic =>
   get_fobj ≫= fun left =>
   sequence_loop' (S (length left)) magic blocks)
    {| fobj := sequence_bytes frames rest; log := lg |}
  = Ok (blocks_after blocks sds)
       {| fobj := rest; log := lg ++ sequence_log frames |}.
Proof.
  intros Hf.
  assert (Hlen : exists magic left,
             length magic = 4%nat
             /\ sequence_bytes frames rest = magic ++ left
             /\ (length frames <= length left)%nat).
  { destruct frames as [|[magic block] frames].
    - exists MAGIC_VEND, rest. repeat split. cbn. lia.
    - inversion Hf as [|? ? ? ? (Hlen & _) _]; subst.
      exists magic, (block_bytes block ++ sequence_bytes frames rest).
      repeat split; [exact Hlen|].
      rewrite length_app. pose proof (sequence_bytes_longer frames rest).
      cbn [length]. lia. }
  destruct Hlen as (magic & left & Hlen & E & Hle).
  pose proof (sequence_loop_frames frames sds blocks lg rest
                (S (length left)) Hf ltac:(lia)) as H.
  rewrite E in *. unfold mbind at 1, M_bind at 1, bind at 1 in H.
  unfold mbind at 1, M_bind at 1, bind at 1.
  rewrite read_magic_app in * by exact Hlen.
  unfold mbind at 1, M_bind at 1, bind at 1. cbn [get_fobj fobj].
  exact H.
Qed.

(** X13.  What holds of a sequence in general.  A DATA block whose
    header is a SEQUENCE without vdata, followed by N StructureData
    frames and the VEND magic, appends exactly one message with exactly
    N blocks and leaves the bytes after the VEND magic unread.  The
    blocks are not the StructureData of the frames in order: the first
    block holds that of the last frame, all the others are fresh.  The
    header and the blocks of the frames are such as bytes objects can
    hold. *)
Lemma data_chunk_sequence header data frames sds rest lg messages :
  within_maxsize header ->
  Data_ParseFromString header = Some data ->
  Data.dataType data = SEQUENCE ->
  Data.vdata data = false ->
  Forall2 (sequence_frame StructureData_ParseFromString) frames sds ->
  exists blocks,
    data_chunk' messages
      {| fobj := block_bytes header ++ sequence_bytes frames rest;
         log := lg |}
    = Ok (messages ++ [MSequence data blocks])
         {| fobj := rest; log := lg ++ sequence_log frames |}
    /\ length blocks = length frames
    /\ blocks = match sds with
                | [] => []
                | sd :: sds' =>
                    List.last sds' sd
                    :: replicate (length sds') StructureData_new
                end.
Proof.
  intros Hmax Hparse Hdt Hv Hf.
  exists (blocks_after [] sds). split; [|split].
  - unfold data_chunk. unfold mbind at 1, M_bind at 1, bind at 1.
    rewrite read_block_framed by exact Hmax.
    unfold mbind at 1, M_bind at 1, bind at 1.
    unfold parse at 1. rewrite Hparse. cbn [ret]. rewrite Hdt, Hv.
    rewrite (bool_decide_eq_false_2 (SEQUENCE = STRING)) by discriminate.
    rewrite (bool_decide_eq_false_2 (SEQUENCE = OPAQUE)) by discriminate.
    cbn [orb].
    rewrite (bool_decide_eq_false_2 (is_Some (_dtypeLookup SEQUENCE)))
      by (intros [? ?]; discriminate).
    rewrite (bool_decide_eq_false_2 (SEQUENCE = STRUCTURE)) by discriminate.
    rewrite (bool_decide_eq_true_2 (SEQUENCE = SEQUENCE)) by reflexivity.
    change (read_magic ≫= _)
      with ((read_magic ≫= fun magic =>
             get_fobj ≫= fun left =>
             sequence_loop' (S (length left)) magic [])
            ≫= fun blocks => mret (messages ++ [MSequence data blocks])).
    unfold mbind at 1, M_bind at 1, bind at 1.
    rewrite (sequence_start_frames frames sds [] lg rest Hf). reflexivity.
  - rewrite blocks_after_length. cbn. symmetry.
    eapply Forall2_length, Hf.
  - destruct sds as [|sd sds']; [reflexivity|]. apply blocks_after_nil.
Qed.
End SequenceProperties.

Lemma data_chunk_sequence_witness :
  exists blocks,
    data_chunk false true Wire.zlib_decompress Wire.utf8_decode_ignore Wire.Header
      Wire.Data_ParseFromString Wire.StructureData_ParseFromString []
      {| fobj := [x05; x09; x00; x00; x00; x00]
                 ++ MAGIC_VDATA ++ [x02; x01; xaa]
                 ++ MAGIC_VDATA ++ [x02; x01; xbb]
                 ++ MAGIC_VEND ++ [x07; x08];
         log := [] |}
    = Ok [MSequence
            {| Data.dataType := SEQUENCE; Data.compress := NONE;
               Data.bigend := false; Data.vdata := false;
               Data.section_range := []; Data.uncompressedSize := 0 |}
            blocks]
         {| fobj := [x07; x08];
            log := ["Bad magic for struct/seq data!"%string;
                    "Bad magic for struct/seq data!"%string] |}
    /\ length blocks = 2%nat
    /\ blocks = [{| StructureData.data := [xbb]; StructureData.rowLength := 1 |};
                 StructureData_new].
Proof.
  refine (data_chunk_sequence false true Wire.zlib_decompress
            Wire.utf8_decode_ignore Wire.Header Wire.Data_ParseFromString
            Wire.StructureData_ParseFromString
            [x09; x00; x00; x00; x00]
            {| Data.dataType := SEQUENCE; Data.compress := NONE;
               Data.bigend := false; Data.vdata := false;
               Data.section_range := []; Data.uncompressedSize := 0 |}
            [(MAGIC_VDATA, [x01; xaa]); (MAGIC_VDATA, [x01; xbb])]
            [{| StructureData.data := [xaa]; StructureData.rowLength := 1 |};
             {| StructureData.data := [xbb]; StructureData.rowLength := 1 |}]
            [x07; x08] [] [] ltac:(vm_compute; discriminate)
            eq_refl eq_refl eq_refl _).
  repeat constructor; try discriminate; vm_compute; discriminate.
Defined.

Section HeaderProperties.
Variable Header : Type.
Variable Header_new : Header.
Variable Header_ParseFromString : bytes -> option Header.

(** X12.  What a HEADER frame does to the list in general, for a
    block that a bytes object can hold: on the empty list it leaves the
    decoded Header; when the first item is a Header it overwrites that
    item and leaves the appended Header fresh; when the first item is
    anything else it raises before reading the block. *)
Lemma header_chunk_parses_into_first messages block h rest lg :
  within_maxsize block ->
  Header_ParseFromString block = Some h ->
  let w := {| fobj := block_bytes block ++ rest; log := lg |} in
  let w' := {| fobj := rest; log := lg |} in
  header_chunk Header Header_new Header_ParseFromString messages w
  = match messages with
    | [] => Ok [MHeader h] w'
    | MHeader _ :: earlier =>
        Ok (MHeader h :: earlier ++ [MHeader Header_new]) w'
    | _ :: _ => Raise AttributeError w
    end.
Proof.
  intros Hmax Hparse w w'. subst w w'. unfold header_chunk.
  destruct messages as [|[h0| | | |] earlier]; cbn [app lookup list_lookup];
    try reflexivity.
  - unfold mbind at 1, M_bind at 1, bind at 1.
    rewrite read_block_framed by exact Hmax.
    unfold mbind at 1, M_bind at 1, bind at 1. unfold parse.
    rewrite Hparse. reflexivity.
  - unfold mbind at 1, M_bind at 1, bind at 1.
    rewrite read_block_framed by exact Hmax.
    unfold mbind at 1, M_bind at 1, bind at 1. unfold parse.
    rewrite Hparse. reflexivity.
Qed.
End HeaderProperties.

Lemma header_chunk_parses_into_first_witness :
  header_chunk Wire.Header Wire.Header_new Wire.Header_ParseFromString
    [MHeader [x0a]] {| fobj := [x01; x0b] ++ [x07]; log := [] |}
  = Ok [MHeader [x0b]; MHeader Wire.Header_new]
       {| fobj := [x07]; log := [] |}.
Proof.
  exact (header_chunk_parses_into_first Wire.Header Wire.Header_new
           Wire.Header_ParseFromString [MHeader [x0a]] [x0b] [x0b] [x07] []
           ltac:(vm_compute; discriminate) eq_refl).
Defined.

(** C2 on two HEADER frames.  The second frame appends a fresh Header
    and then parses its block into the first item of the list: the
    first Header now holds the contents of the second frame and the
    appended one stays as [stream.Header()] made it.  When the first
    item is an array, the HEADER frame raises. *)
Theorem second_header_parsed_into_first :
  Wire.decode (MAGIC_HEADER ++ [x01; x0a] ++ MAGIC_HEADER ++ [x01; x0b])
  = Ok [MHeader [x0b]; MHeader Wire.Header_new] {| fobj := []; log := [] |}
  /\ Wire.decode (MAGIC_DATA ++ [x06; x03; x00; x00; x00; x04; x01]
                  ++ [x04; x00; x00; x00; x2a]
                  ++ MAGIC_HEADER ++ [x01; x0b])
     = Raise AttributeError {| fobj := [x01; x0b]; log := [] |}.
Proof. split; reflexivity. Qed.

(** C1 on a SEQUENCE of two StructureData frames.  One message with two
    blocks is appended and reading stops right after the VEND magic,
    but every frame is parsed into the first block: it holds the row of
    the second frame and the second block stays as
    [stream.StructureData()] made it. *)
Theorem sequence_frames_parsed_into_first :
  data_chunk false true Wire.zlib_decompress Wire.utf8_decode_ignore Wire.Header
    Wire.Data_ParseFromString Wire.StructureData_ParseFromString []
    {| fobj := [x05; x09; x00; x00; x00; x00]
               ++ MAGIC_VDATA ++ [x02; x01; xaa]
               ++ MAGIC_VDATA ++ [x02; x01; xbb]
               ++ MAGIC_VEND ++ [x07; x08];
       log := [] |}
  = Ok [MSequence
          {| Data.dataType := SEQUENCE; Data.compress := NONE;
             Data.bigend := false; Data.vdata := false;
             Data.section_range := []; Data.uncompressedSize := 0 |}
          [{| StructureData.data := [xbb]; StructureData.rowLength := 1 |};
           StructureData_new]]
       {| fobj := [x07; x08];
          log := ["Bad magic for struct/seq data!"%string;
                  "Bad magic for struct/seq data!"%string] |}
  /\ Wire.StructureData_ParseFromString [x01; xaa]
     = Some {| StructureData.data := [xaa]; StructureData.rowLength := 1 |}.
Proof. split; reflexivity. Qed.

(** * Further properties *)

(** ** TypeMapper: the whole table *)

(** X16.  The whole type table.  A data type without an entry in
    [_dtypeLookup] raises [KeyError] whatever the unsigned flag is.  A
    data type with an entry gives a dtype of non-zero width asked for in
    native order; with the flag set the result has the same width and,
    for SHORT, INT and LONG, which are signed integers without it, the
    unsigned integer kind; for every other type it is the same as
    without the flag. *)
Theorem data_type_to_numpy_table_widths t :
  (_dtypeLookup t = None ->
   forall u, data_type_to_numpy t u = Throw KeyError)
  /\ (is_Some (_dtypeLookup t) ->
      exists k w,
        data_type_to_numpy t false = Done (DBasic Native k w)
        /\ (0 < w)%N
        /\ if bool_decide (t = SHORT \/ t = INT \/ t = LONG)
           then k = KInt
                /\ data_type_to_numpy t true = Done (DBasic Native KUInt w)
           else data_type_to_numpy t true = Done (DBasic Native k w)).
Proof.
  split.
  - intros Hn u. unfold data_type_to_numpy. rewrite Hn. reflexivity.
  - intros [s Hs].
    destruct t; try discriminate Hs; eexists _, _;
      (split; [reflexivity|]); (split; [reflexivity|]);
      first [ rewrite bool_decide_eq_true_2 by tauto; split; reflexivity
            | rewrite bool_decide_eq_false_2
                by (intros [H | [H | H]]; discriminate H);
              reflexivity ].
Qed.

Lemma data_type_to_numpy_table_widths_witness :
  data_type_to_numpy STRUCTURE true = Throw KeyError
  /\ data_type_to_numpy INT true = Done (DBasic Native KUInt 4)
  /\ data_type_to_numpy ENUM2 true = data_type_to_numpy ENUM2 false.
Proof.
  split; [|split].
  - apply (proj1 (data_type_to_numpy_table_widths STRUCTURE) eq_refl).
  - destruct (proj2 (data_type_to_numpy_table_widths INT)
                (ex_intro _ "i4"%string eq_refl))
      as (k & w & Hf & _ & Ht).
    injection Hf as <- <-. exact (proj2 Ht).
  - destruct (proj2 (data_type_to_numpy_table_widths ENUM2)
                (ex_intro _ "u2"%string eq_refl))
      as (k & w & Hf & _ & Ht).
    rewrite Hf. exact Ht.
Defined.

(** ** Arrays: sizes and ranges *)

Lemma be_value_range c : 0 <= be_value c < 2 ^ (8 * Z.of_nat (length c)).
Proof.
  unfold be_value.
  assert (H : forall acc n,
             0 <= acc < 2 ^ (8 * Z.of_nat n) ->
             0 <= fold_left (fun a b => a * 256 + ord b) c acc
             < 2 ^ (8 * Z.of_nat (n + length c))).
  { induction c as [|b c IH]; intros acc n Hacc.
    - cbn. rewrite Nat.add_0_r. exact Hacc.
    - cbn [fold_left length]. replace (n + S (length c))%nat
        with (S n + length c)%nat by lia.
      apply IH. pose proof (ord_range b).
      replace (8 * Z.of_nat (S n)) with (8 * Z.of_nat n + 8) by lia.
      rewrite Z.pow_add_r by lia. change (2 ^ 8) with 256. nia. }
  apply (H 0 0%nat). cbn. lia.
Qed.

Lemma decode_item_in_range host o k w c :
  length c = N.to_nat w -> (0 < w)%N ->
  elem_in_range k w (decode_item host (DBasic o k w) c).
Proof.
  intros Hlen Hw.
  assert (Hu : 0 <= unsigned_value host o c < 2 ^ (8 * Z.of_N w)).
  { unfold unsigned_value.
    replace (Z.of_N w) with (Z.of_nat (length c)) by lia.
    destruct (is_big host o); [apply be_value_range|].
    rewrite <- length_rev. apply be_value_range. }
  destruct k; cbn [decode_item elem_in_range]; try exact I; [|exact Hu].
  unfold signed_value.
  replace (Z.of_nat (length c)) with (Z.of_N w) by lia.
  assert (Hp : 2 ^ (8 * Z.of_N w) = 2 * 2 ^ (8 * Z.of_N w - 1)).
  { rewrite <- Z.pow_succ_r by lia. f_equal. lia. }
  assert (Hh : 2 ^ (8 * Z.of_N w) / 2 = 2 ^ (8 * Z.of_N w - 1)).
  { rewrite Hp. rewrite Z.mul_comm. apply Z.div_mul. lia. }
  rewrite Hh. destruct (Z.ltb_spec (unsigned_value host o c)
                                  (2 ^ (8 * Z.of_N w - 1))); lia.
Qed.

(** The value [make_array] returns is a view of a byte buffer under a
    shape of the same number of items. *)
Lemma make_array_Done host zlib h buf a :
  make_array host zlib h buf = Done a ->
  exists buf1 endian dt buf2 b flat,
    make_array_dtype h buf = Done (buf1, endian, dt)
    /\ make_array_decompress zlib h buf1 = Done buf2
    /\ as_buffer buf2 = Done b
    /\ frombuffer host b (newbyteorder endian dt) = Done flat
    /\ arr_dtype a = arr_dtype flat
    /\ arr_data a = arr_data flat
    /\ shape_size (arr_shape a) = N.of_nat (length (arr_data flat)).
Proof.
  rewrite make_array_stages. intros H.
  destruct (make_array_dtype h buf) as [[[buf1 endian] dt]|] eqn:E1;
    [|discriminate].
  cbn [rbind] in H.
  destruct (make_array_decompress zlib h buf1) as [buf2|] eqn:E2;
    [|discriminate].
  cbn [rbind] in H. destruct (as_buffer buf2) as [b|] eqn:E3; [|discriminate].
  cbn [rbind] in H. unfold typed_view in H.
  destruct (frombuffer host b (newbyteorder endian dt)) as [flat|] eqn:E4;
    [|discriminate].
  cbn [rbind] in H.
  exists buf1, endian, dt, buf2, b, flat. repeat (split; [reflexivity || assumption|]).
  pose proof (frombuffer_flat _ _ _ _ E4) as [_ Hshape].
  assert (Hflat : shape_size (arr_shape flat)
                  = N.of_nat (length (arr_data flat))).
  { rewrite Hshape. cbn. lia. }
  destruct (make_array_shape h) as [[|n shape']|].
  - injection H as <-. repeat split. exact Hflat.
  - unfold reshape in H.
    destruct (N.eqb_spec (shape_size (n :: shape'))
                         (N.of_nat (length (arr_data flat)))) as [E|];
      [|discriminate].
    injection H as <-. repeat split. exact E.
  - injection H as <-. repeat split. exact Hflat.
Qed.

(** X17.  Whenever [make_array] returns, the product of the extents
    of the shape is the number of elements, and the elements take up
    exactly the bytes decoded: the data of the StructureData, the
    declared [uncompressedSize] under DEFLATE, the block itself
    otherwise. *)
Theorem make_array_size host zlib h buf a :
  make_array host zlib h buf = Done a ->
  shape_size (arr_shape a) = N.of_nat (length (arr_data a))
  /\ (shape_size (arr_shape a) * itemsize (arr_dtype a))%N
     = match buf with
       | Struct sd => N.of_nat (length (StructureData.data sd))
       | Bytes b =>
           if bool_decide (Data.compress h = DEFLATE)
           then Data.uncompressedSize h
           else N.of_nat (length b)
       end.
Proof.
  intros H.
  destruct (make_array_Done _ _ _ _ _ H)
    as (buf1 & endian & dt & buf2 & b & flat & E1 & E2 & E3 & E4
        & Hdt & Hdata & Hsize).
  rewrite Hdata. split; [exact Hsize|].
  rewrite Hsize, Hdt.
  destruct (frombuffer_Done _ _ _ _ E4) as (_ & Hn & ->). cbn [arr_dtype arr_data].
  rewrite length_map, chunks_length, N2Nat.id, Hn.
  unfold make_array_dtype in E1. unfold make_array_decompress in E2.
  destruct (bool_decide (Data.dataType h = STRUCTURE)).
  - destruct buf as [b0|sd]; [discriminate|].
    destruct (np_dtype_void_field _ _); [|discriminate].
    injection E1 as <- _ _. cbn [negb] in E2.
    destruct (bool_decide (Data.compress h = DEFLATE)).
    + injection E2 as <-. injection E3 as <-. reflexivity.
    + destruct (negb _); [discriminate|]. injection E2 as <-.
      injection E3 as <-. reflexivity.
  - destruct (data_type_to_numpy _ _); [|discriminate].
    injection E1 as <- _ _. cbn [negb] in E2.
    destruct (bool_decide (Data.compress h = DEFLATE)).
    + destruct buf as [b0|sd]; [|discriminate]. cbn [as_buffer rbind] in E2.
      destruct (zlib b0) as [inflated|]; [|discriminate].
      destruct (N.eqb_spec (N.of_nat (length inflated))
                           (Data.uncompressedSize h)); [|discriminate].
      injection E2 as <-. injection E3 as <-. congruence.
    + destruct (negb _); [discriminate|]. injection E2 as <-.
      destruct buf as [b0|sd]; [|discriminate]. injection E3 as <-.
      reflexivity.
Qed.

(** X18.  For a STRUCTURE header, the array [make_array] returns holds
    the data of the StructureData cut into rows of [rowLength] bytes,
    in order and with no byte left over; it returns only when
    [rowLength] is not zero. *)
Theorem make_array_structure_rows host zlib h sd a :
  make_array host zlib h (Struct sd) = Done a ->
  Data.dataType h = STRUCTURE ->
  exists rows,
    arr_data a = map ERaw rows
    /\ concat rows = StructureData.data sd
    /\ Forall (fun row => N.of_nat (length row) = StructureData.rowLength sd)
              rows
    /\ (0 < StructureData.rowLength sd)%N.
Proof.
  intros H Hs.
  destruct (make_array_Done _ _ _ _ _ H)
    as (buf1 & endian & dt & buf2 & b & flat & E1 & E2 & E3 & E4
        & _ & Hdata & _).
  rewrite (make_array_dtype_structure _ _ Hs) in E1.
  destruct (_ <? _)%N; [discriminate|]. injection E1 as <- <- <-.
  assert (Hb : b = StructureData.data sd).
  { unfold make_array_decompress in E2. rewrite Hs in E2.
    rewrite (bool_decide_eq_true_2 (STRUCTURE = STRUCTURE)) in E2
      by reflexivity.
    cbn [negb] in E2.
    destruct (bool_decide (Data.compress h = DEFLATE)).
    - injection E2 as <-. injection E3 as <-. reflexivity.
    - destruct (negb _); [discriminate|]. injection E2 as <-.
      injection E3 as <-. reflexivity. }
  subst b.
  destruct (frombuffer_Done _ _ _ _ E4) as (Hw & Hn & ->).
  cbn [newbyteorder has_byteorder map fst snd itemsize fold_right]
    in Hw, Hn, Hdata.
  rewrite N.add_0_r in Hw, Hn, Hdata.
  cbn [arr_data] in Hdata.
  set (rl := StructureData.rowLength sd) in *.
  set (d := StructureData.data sd) in *.
  destruct (chunks_concat (N.to_nat rl) (N.to_nat (N.of_nat (length d) / rl)) d)
    as [Hc Hf]; [lia|].
  exists (chunks (N.to_nat rl) (N.to_nat (N.of_nat (length d) / rl)) d).
  split; [|split; [exact Hc|split; [|exact Hw]]].
  - rewrite Hdata. apply map_ext. reflexivity.
  - eapply Forall_impl; [exact Hf|]. intros row Hrow. cbn in Hrow. lia.
Qed.

(** X19.  Every integer element of an array [make_array] returns lies
    in the range of the array's dtype: the two's complement range of
    the width for a signed kind, from zero up to the width's power of
    two for an unsigned kind. *)
Theorem make_array_elements_in_range host zlib h buf a o k w :
  make_array host zlib h buf = Done a ->
  arr_dtype a = DBasic o k w ->
  Forall (elem_in_range k w) (arr_data a).
Proof.
  intros H Hdt.
  destruct (make_array_Done _ _ _ _ _ H)
    as (buf1 & endian & dt & buf2 & b & flat & _ & _ & _ & E4
        & Hdt' & Hdata & _).
  rewrite Hdata. rewrite Hdt' in Hdt.
  destruct (frombuffer_Done _ _ _ _ E4) as (Hw & Hn & ->).
  cbn [arr_dtype arr_data] in *. rewrite Hdt in *. cbn [itemsize] in *.
  apply Forall_map.
  destruct (chunks_concat (N.to_nat w) (N.to_nat (N.of_nat (length b) / w)) b)
    as [_ Hf]; [lia|].
  eapply Forall_impl; [exact Hf|]. intros c Hc. cbn in Hc.
  apply decode_item_in_range; [exact Hc|exact Hw].
Qed.

Lemma make_array_size_witness :
  let a := {| arr_dtype := DBasic Big KInt 4;
              arr_shape := [2%N; 3%N];
              arr_data := [EInt 1; EInt 2; EInt 3; EInt 4; EInt 5; EInt 6] |} in
  shape_size (arr_shape a) = N.of_nat (length (arr_data a))
  /\ (shape_size (arr_shape a) * itemsize (arr_dtype a))%N
     = N.of_nat (length example_payload).
Proof.
  exact (make_array_size false Wire.zlib_decompress example_header
           (Bytes example_payload)
           {| arr_dtype := DBasic Big KInt 4;
              arr_shape := [2%N; 3%N];
              arr_data := [EInt 1; EInt 2; EInt 3; EInt 4; EInt 5; EInt 6] |}
           eq_refl).
Defined.

Lemma make_array_structure_rows_witness :
  exists rows,
    [ERaw [xaa; xbb]; ERaw [xcc; xdd]] = map ERaw rows
    /\ concat rows = [xaa; xbb; xcc; xdd]
    /\ Forall (fun row => N.of_nat (length row) = 2%N) rows
    /\ (0 < 2)%N.
Proof.
  exact (make_array_structure_rows false Wire.zlib_decompress
           {| Data.dataType := STRUCTURE; Data.compress := NONE;
              Data.bigend := false; Data.vdata := false;
              Data.section_range := []; Data.uncompressedSize := 0 |}
           {| StructureData.data := [xaa; xbb; xcc; xdd];
              StructureData.rowLength := 2 |}
           {| arr_dtype := DStruct [("<"%string, DBasic NotApplicable KVoid 2)];
              arr_shape := [2%N];
              arr_data := [ERaw [xaa; xbb]; ERaw [xcc; xdd]] |}
           eq_refl eq_refl).
Defined.

Lemma make_array_elements_in_range_witness :
  Forall (elem_in_range KInt 4)
         [EInt 1; EInt 2; EInt 3; EInt 4; EInt 5; EInt 6].
Proof.
  exact (make_array_elements_in_range false Wire.zlib_decompress
           example_header (Bytes example_payload)
           {| arr_dtype := DBasic Big KInt 4;
              arr_shape := [2%N; 3%N];
              arr_data := [EInt 1; EInt 2; EInt 3; EInt 4; EInt 5; EInt 6] |}
           Big KInt 4%N eq_refl eq_refl).
Defined.

(** ** AttributeDecoder: the unsigned flag and the failures *)

Section AttributeProperties.
Variable host : bool.
Context {item : Type}.

(** X20.  For an attribute of a converter type whose [data] holds at
    least [len] items: the one record [Unsupported unsigned attribute!]
    is logged exactly when the unsigned flag is set, the flag has no
    effect on the value returned, the decode succeeds, and every integer
    decoded lies in the signed range of the converter type. *)
Theorem unpack_attribute_unsigned (att : Attribute.t item) dt :
  _attrConverters (Attribute.type att) = Some dt ->
  (Attribute.len att * itemsize dt
   <= N.of_nat (length (Attribute.data att)))%N ->
  (fst (unpack_attribute host att)
   = if Attribute.unsigned att
     then ["Unsupported unsigned attribute!"%string] else [])
  /\ (forall u,
        snd (unpack_attribute host (set_unsigned u att))
        = snd (unpack_attribute host att))
  /\ forall k w, dt = DBasic Big k w ->
       match snd (unpack_attribute host att) with
       | Done (_, VArray a) => Forall (elem_in_range k w) (arr_data a)
       | Done (_, VScalar e) => elem_in_range k w e
       | Done (_, VNone) => Attribute.len att = 0%N
       | _ => False
       end.
Proof.
  intros Hdt Hlen. split; [reflexivity|]. split; [reflexivity|].
  intros k w ->. cbn [itemsize] in Hlen.
  destruct (_attrConverters_big _ _ Hdt) as (Hns & k' & w' & [= <- <-] & Hw & Hk).
  unfold unpack_attribute. cbn [snd].
  destruct (N.eqb_spec (Attribute.len att) 0) as [E0|N0].
  { cbn [rbind]. rewrite E0. reflexivity. }
  rewrite (bool_decide_eq_false_2 _ Hns), Hdt.
  unfold fromstring. cbn [has_object itemsize].
  rewrite (bool_decide_eq_false_2 _ Hk).
  destruct (N.eqb_spec w 0); [lia|].
  destruct (N.ltb_spec (N.of_nat (length (Attribute.data att)))
                       (Attribute.len att * w)); [lia|].
  cbn [rbind].
  assert (Hall : Forall (elem_in_range k w)
            (map (decode_item host (DBasic Big k w))
                 (chunks (N.to_nat w) (N.to_nat (Attribute.len att))
                         (Attribute.data att)))).
  { apply Forall_map.
    eapply Forall_impl; [apply chunks_widths; lia|].
    intros c Hc. cbn in Hc. apply decode_item_in_range; [exact Hc|exact Hw]. }
  destruct (N.eqb_spec (Attribute.len att) 1) as [E1|N1].
  - cbn [first_of arr_data]. rewrite E1 in *. cbn [N.to_nat Pos.to_nat
      Pos.iter_op Nat.add chunks map] in *.
    cbn [rbind]. inversion Hall; assumption.
  - cbn [rbind]. exact Hall.
Qed.
(** X21.  How decoding an attribute fails.  A zero [len] gives
    [None] whatever the type is; with a non-zero [len], a type that is
    neither STRING nor one of the six converter types raises
    [KeyError], [data] shorter than [len] items of the converter type
    raises the [ValueError] of [np.fromstring], and a STRING attribute
    of [len] one with no [sdata] raises [IndexError]. *)
Theorem unpack_attribute_errors (att : Attribute.t item) :
  (Attribute.len att = 0%N ->
   snd (unpack_attribute host att) = Done (Attribute.name att, VNone))
  /\ (Attribute.len att <> 0%N ->
      forall code, Attribute.type att = Attribute.Type_unknown code ->
      snd (unpack_attribute host att) = Throw KeyError)
  /\ (Attribute.len att <> 0%N ->
      forall dt, _attrConverters (Attribute.type att) = Some dt ->
      (N.of_nat (length (Attribute.data att))
       < Attribute.len att * itemsize dt)%N ->
      snd (unpack_attribute host att) = Throw ValueError_fromstring)
  /\ (Attribute.len att = 1%N ->
      Attribute.type att = Attribute.STRING ->
      Attribute.sdata att = [] ->
      snd (unpack_attribute host att) = Throw IndexError).
Proof.
  unfold unpack_attribute. cbn [snd]. repeat split.
  - intros ->. reflexivity.
  - intros Hlen code Ht. apply N.eqb_neq in Hlen. rewrite Hlen, Ht.
    reflexivity.
  - intros Hlen dt Hdt Hshort. apply N.eqb_neq in Hlen. rewrite Hlen.
    destruct (_attrConverters_big _ _ Hdt) as (Hns & k & w & -> & Hw & Hk).
    rewrite (bool_decide_eq_false_2 _ Hns), Hdt.
    unfold fromstring. cbn [has_object itemsize] in *.
    rewrite (bool_decide_eq_false_2 _ Hk).
    destruct (N.eqb_spec w 0); [reflexivity|].
    apply N.ltb_lt in Hshort. rewrite Hshort. reflexivity.
  - intros Hlen Ht Hs. rewrite Hlen, Ht, Hs. reflexivity.
Qed.
End AttributeProperties.

Lemma unpack_attribute_unsigned_witness :
  let att := {| Attribute.name := "n"; Attribute.type := Attribute.INT;
                Attribute.len := 2;
                Attribute.data := [x00; x00; x00; x01; xff; xff; xff; xfe];
                Attribute.sdata := @nil ascii; Attribute.unsigned := true |} in
  fst (unpack_attribute false att) = ["Unsupported unsigned attribute!"%string]
  /\ snd (unpack_attribute false (set_unsigned false att))
     = snd (unpack_attribute false att)
  /\ Forall (elem_in_range KInt 4) [EInt 1; EInt (-2)].
Proof.
  intros att.
  destruct (unpack_attribute_unsigned false att (DBasic Big KInt 4) eq_refl
              ltac:(vm_compute; discriminate)) as (Hlog & Hval & Hrange).
  split; [exact Hlog|]. split; [exact (Hval false)|].
  exact (Hrange KInt 4%N eq_refl).
Defined.

Lemma unpack_attribute_errors_witness :
  snd (unpack_attribute false
         {| Attribute.name := "n"; Attribute.type := Attribute.Type_unknown 99;
            Attribute.len := 2; Attribute.data := [];
            Attribute.sdata := @nil ascii; Attribute.unsigned := false |})
  = Throw KeyError
  /\ snd (unpack_attribute false
            {| Attribute.name := "n"; Attribute.type := Attribute.INT;
               Attribute.len := 2; Attribute.data := [x00; x00; x00; x01];
               Attribute.sdata := @nil ascii; Attribute.unsigned := false |})
     = Throw ValueError_fromstring
  /\ snd (unpack_attribute false
            {| Attribute.name := "n"; Attribute.type := Attribute.STRING;
               Attribute.len := 1; Attribute.data := [];
               Attribute.sdata := @nil ascii; Attribute.unsigned := false |})
     = Throw IndexError.
Proof.
  split; [|split].
  - apply (proj1 (proj2 (unpack_attribute_errors false
             {| Attribute.name := "n"; Attribute.type := Attribute.Type_unknown 99;
                Attribute.len := 2; Attribute.data := [];
                Attribute.sdata := @nil ascii; Attribute.unsigned := false |}))
             ltac:(discriminate) 99 eq_refl).
  - apply (proj1 (proj2 (proj2 (unpack_attribute_errors false
             {| Attribute.name := "n"; Attribute.type := Attribute.INT;
                Attribute.len := 2; Attribute.data := [x00; x00; x00; x01];
                Attribute.sdata := @nil ascii; Attribute.unsigned := false |})))
             ltac:(discriminate) (DBasic Big KInt 4) eq_refl eq_refl).
  - apply (proj2 (proj2 (proj2 (unpack_attribute_errors false
             {| Attribute.name := "n"; Attribute.type := Attribute.STRING;
                Attribute.len := 1; Attribute.data := [];
                Attribute.sdata := @nil ascii; Attribute.unsigned := false |})))
             eq_refl eq_refl eq_refl).
Defined.

(** ** CompoundLayoutBuilder and VariableDecoder *)

(** Induction over a structure and its nested structures. *)
Lemma Structure_nested_ind (P : Structure.t -> Prop) :
  (forall name dataType vars structs,
      Forall P structs ->
      P (Structure.make name dataType vars structs)) ->
  forall s, P s.
Proof.
  intros H. fix IH 1. intros [name dataType vars structs].
  apply H. induction structs as [|s structs IHs]; constructor.
  - apply IH.
  - exact IHs.
Qed.

Lemma data_type_to_numpy_cases t u :
  (_dtypeLookup t = None /\ data_type_to_numpy t u = Throw KeyError)
  \/ exists k k0 w,
       data_type_to_numpy t u = Done (DBasic Native k w)
       /\ data_type_to_numpy t false = Done (DBasic Native k0 w)
       /\ (0 < w)%N
       /\ (k = KObject <-> t = STRING \/ t = OPAQUE).
Proof.
  destruct t, u; cbn; try (left; split; reflexivity); right;
    eexists _, _, _; (split; [reflexivity|]); (split; [reflexivity|]);
    (split; [lia|]); split;
    solve [discriminate | tauto | intros [|]; discriminate].
Qed.

Lemma var_fields_KeyError vars :
  Exists (fun var => _dtypeLookup (Variable'.dataType var) = None) vars ->
  var_fields vars = Throw KeyError.
Proof.
  unfold var_fields. induction 1 as [var vars Hv|var vars _ IH];
    cbn [result_map].
  - destruct (data_type_to_numpy_cases (Variable'.dataType var)
                (Variable'.unsigned var)) as [[_ ->]|(k & k0 & w & _ & E & _)];
      [reflexivity|].
    unfold data_type_to_numpy in E. rewrite Hv in E. discriminate.
  - rewrite IH.
    destruct (data_type_to_numpy_cases (Variable'.dataType var)
                (Variable'.unsigned var)) as [[_ ->]|(k & k0 & w & -> & _)];
      reflexivity.
Qed.

(** X22.  A structure with a member variable whose type has no entry
    in [_dtypeLookup] (a STRUCTURE or SEQUENCE listed among [vars], or
    an unknown code) has no dtype: [struct_to_dtype] raises
    [KeyError]. *)
Theorem struct_to_dtype_KeyError struct :
  Exists (fun var => _dtypeLookup (Variable'.dataType var) = None)
         (Structure.vars struct) ->
  struct_to_dtype struct = FThrow (Exn KeyError).
Proof.
  destruct struct as [name dataType vars structs].
  cbn [Structure.vars struct_to_dtype]. intros H.
  rewrite (var_fields_KeyError _ H). reflexivity.
Qed.

Lemma field_names_spec fields : forall i,
  length (field_names i fields) = length fields
  /\ fold_right (fun f acc => (itemsize (snd f) + acc)%N) 0%N
       (field_names i fields)
     = fold_right (fun f acc => (itemsize (snd f) + acc)%N) 0%N fields.
Proof.
  induction fields as [|[n dt] fields IH]; intros i; [split; reflexivity|].
  cbn [field_names length fold_right snd].
  destruct (IH (S i)) as [-> ->]. split; reflexivity.
Qed.

Lemma fold_itemsize_app (l1 l2 : list (string * dtype)) :
  fold_right (fun f acc => (itemsize (snd f) + acc)%N) 0%N (l1 ++ l2)
  = (fold_right (fun f acc => (itemsize (snd f) + acc)%N) 0%N l1
     + fold_right (fun f acc => (itemsize (snd f) + acc)%N) 0%N l2)%N.
Proof.
  induction l1 as [|f l1 IH]; cbn [app fold_right]; [reflexivity|].
  rewrite IH. lia.
Qed.

Lemma var_fields_Done vars fields :
  var_fields vars = Done fields ->
  length fields = length vars
  /\ fold_right (fun f acc => (itemsize (snd f) + acc)%N) 0%N fields
     = fold_right
         (fun var acc =>
            match data_type_to_numpy (Variable'.dataType var) false with
            | Done dt => (itemsize dt + acc)%N
            | Throw _ => acc
            end) 0%N vars.
Proof.
  unfold var_fields. revert fields.
  induction vars as [|var vars IH]; intros fields H.
  - injection H as <-. split; reflexivity.
  - cbn [result_map] in H.
    destruct (data_type_to_numpy_cases (Variable'.dataType var)
                (Variable'.unsigned var))
      as [[_ E]|(k & k0 & w & E & E0 & _)]; rewrite E in H; [discriminate|].
    cbn [rbind] in H.
    destruct (result_map _ vars) as [more|]; [|discriminate].
    injection H as <-. destruct (IH more eq_refl) as [Hl Hw].
    cbn [length fold_right snd itemsize]. rewrite E0. cbn [itemsize].
    rewrite Hl, Hw. split; reflexivity.
Qed.

(** X23.  When [struct_to_dtype] returns, the dtype is a compound with
    one field for each member variable and each nested structure, the
    field names are pairwise different, and the item size is the sum of
    the widths of the member variables, those of the nested structures
    included. *)
Theorem struct_to_dtype_layout struct dt :
  struct_to_dtype struct = FDone dt ->
  exists fields,
    dt = DStruct fields
    /\ length fields
       = (length (Structure.vars struct)
          + length (Structure.structs struct))%nat
    /\ NoDup (map fst fields)
    /\ itemsize dt = total_width struct.
Proof.
  revert dt. induction struct as [name dataType vars structs IH]
    using Structure_nested_ind.
  intros dt H. cbn [struct_to_dtype] in H.
  destruct (var_fields vars) as [fields|] eqn:Ev; [|discriminate].
  cbn [flift fbind] in H.
  destruct (var_fields_Done _ _ Ev) as [Hlv Hwv].
  set (append := fix append (structs : list Structure.t) :=
         match structs with
         | [] => FDone []
         | s :: rest =>
             fbind (struct_to_dtype s) (fun dt =>
             fbind (append rest) (fun more =>
             FDone ((Structure.name s, dt) :: more)))
         end) in H.
  set (sum := fix sum (structs : list Structure.t) : N :=
         match structs with
         | [] => 0%N
         | s :: rest => (total_width s + sum rest)%N
         end).
  assert (Hn : forall nested,
             append structs = FDone nested ->
             length nested = length structs
             /\ fold_right (fun f acc => (itemsize (snd f) + acc)%N) 0%N nested
                = sum structs).
  { clear H. induction IH as [|s structs Hs _ IHs]; intros nested Hn.
    - injection Hn as <-. split; reflexivity.
    - cbn in Hn. destruct (struct_to_dtype s) as [d|] eqn:Es; [|discriminate].
      cbn [fbind] in Hn. destruct (append structs) as [more|]; [|discriminate].
      injection Hn as <-. destruct (IHs more eq_refl) as [Hl Hw].
      destruct (Hs d eq_refl) as (fs & -> & _ & _ & Hd).
      cbn [length fold_right snd]. rewrite Hl, Hw, Hd. split; reflexivity. }
  destruct (append structs) as [nested|]; [|discriminate].
  destruct (Hn nested eq_refl) as [Hln Hwn].
  cbn [fbind] in H. unfold np_dtype_fields in H.
  destruct (decide (NoDup (map fst (field_names 0 (fields ++ nested)))))
    as [Hnd|Hnd].
  - rewrite (bool_decide_eq_true_2 _ Hnd) in H. injection H as <-.
    eexists. split; [reflexivity|].
    destruct (field_names_spec (fields ++ nested) 0) as [Hl Hw].
    split; [|split; [exact Hnd|]].
    + rewrite Hl, length_app. cbn [Structure.vars Structure.structs]. lia.
    + cbn [itemsize total_width]. fold sum.
      rewrite Hw, fold_itemsize_app, Hwv, Hwn. reflexivity.
  - rewrite (bool_decide_eq_false_2 _ Hnd) in H. discriminate.
Qed.

Lemma struct_to_dtype_KeyError_witness :
  struct_to_dtype
    (Structure.make "s" STRUCTURE
       [{| Variable'.name := "a"; Variable'.dataType := INT;
           Variable'.unsigned := false; Variable'.data := [] |};
        {| Variable'.name := "q"; Variable'.dataType := SEQUENCE;
           Variable'.unsigned := false; Variable'.data := [] |}] [])
  = FThrow (Exn KeyError).
Proof.
  apply struct_to_dtype_KeyError. cbn [Structure.vars].
  apply Exists_cons_tl, Exists_cons_hd. reflexivity.
Defined.

Lemma struct_to_dtype_layout_witness :
  let struct :=
    Structure.make "s" STRUCTURE
      [{| Variable'.name := "a"; Variable'.dataType := INT;
          Variable'.unsigned := false; Variable'.data := [] |};
       {| Variable'.name := "b"; Variable'.dataType := DOUBLE;
          Variable'.unsigned := false; Variable'.data := [] |}]
      [Structure.make "inner" STRUCTURE
         [{| Variable'.name := "c"; Variable'.dataType := SHORT;
             Variable'.unsigned := true; Variable'.data := [] |}] []] in
  let dt :=
    DStruct [("a"%string, DBasic Native KInt 4);
             ("b"%string, DBasic Native KFloat 8);
             ("inner"%string, DStruct [("c"%string, DBasic Native KUInt 2)])] in
  exists fields,
    dt = DStruct fields
    /\ length fields = 3%nat
    /\ NoDup (map fst fields)
    /\ itemsize dt = 14%N.
Proof.
  intros struct dt. exact (struct_to_dtype_layout struct dt eq_refl).
Defined.

Section VariableProperties.
Variable host : bool.

Lemma fromstring_whole_frombuffer s dt :
  fromstring_whole host s dt
  = match frombuffer host s dt with
    | Done a => Done a
    | Throw _ => Throw ValueError_fromstring
    end.
Proof.
  unfold fromstring_whole, frombuffer.
  destruct (has_object dt); [reflexivity|].
  destruct (_ =? 0)%N; [reflexivity|].
  destruct (negb _); reflexivity.
Qed.

(** On a Variable of a type other than STRUCTURE the call is the
    scalar part with its log. *)
Lemma unpack_variable_scalar (var : Variable'.t) :
  Variable'.dataType var <> STRUCTURE ->
  unpack_variable host (AVariable var)
  = (if bool_decide (Variable'.dataType var = SEQUENCE)
     then ["Sequence support not implemented!"%string] else [],
     flift (unpack_scalar host var)).
Proof.
  intros Hs. unfold unpack_variable. cbn [descriptor_dataType].
  rewrite (bool_decide_eq_false_2 _ Hs). reflexivity.
Qed.

(** X24.  [unpack_variable] on a variable of a numeric type logs
    nothing.  Without data it returns no array, the native-order dtype
    and the dtype's name.  With data of a whole number of items it
    returns all of them decoded big-endian whatever the host is, under
    the big-endian dtype (for items of one byte, which have no byte
    order, the dtype without one), while the dtype returned stays in
    native order.  With data that is not a whole number of items it
    raises the [ValueError] of [np.fromstring]. *)
Theorem unpack_variable_numeric (var : Variable'.t) k w :
  data_type_to_numpy (Variable'.dataType var) (Variable'.unsigned var)
  = Done (DBasic Native k w) ->
  k <> KObject ->
  let dt := DBasic Native k w in
  let len := N.of_nat (length (Variable'.data var)) in
  fst (unpack_variable host (AVariable var)) = []
  /\ (Variable'.data var = [] ->
      snd (unpack_variable host (AVariable var))
      = FDone (None, dt, dtype_name dt))
  /\ (Variable'.data var <> [] -> (len mod w = 0)%N ->
      snd (unpack_variable host (AVariable var))
      = FDone (Some {| arr_dtype :=
                         DBasic (if has_byteorder k w then Big
                                 else NotApplicable) k w;
                       arr_shape := [(len / w)%N];
                       arr_data :=
                         map (decode_item true (DBasic Big k w))
                             (chunks (N.to_nat w) (N.to_nat (len / w))
                                     (Variable'.data var)) |},
               dt, dtype_name dt))
  /\ (Variable'.data var <> [] -> (len mod w <> 0)%N ->
      snd (unpack_variable host (AVariable var))
      = FThrow (Exn ValueError_fromstring)).
Proof.
  intros Hdt Hk dt len.
  destruct (data_type_to_numpy_cases (Variable'.dataType var)
              (Variable'.unsigned var))
    as [[_ E]|(k1 & k0 & w1 & E & _ & Hw & Hobj)];
    rewrite E in Hdt; [discriminate|].
  injection Hdt as -> ->.
  assert (Hns : Variable'.dataType var <> STRING /\
                Variable'.dataType var <> OPAQUE) by tauto.
  assert (Hstruct : Variable'.dataType var <> STRUCTURE /\
                    Variable'.dataType var <> SEQUENCE).
  { unfold data_type_to_numpy in E.
    split; intros Hs; rewrite Hs in E; discriminate. }
  rewrite (unpack_variable_scalar _ (proj1 Hstruct)).
  rewrite (bool_decide_eq_false_2 _ (proj2 Hstruct)).
  unfold unpack_scalar.
  rewrite (bool_decide_eq_false_2 _ (proj1 Hns)).
  rewrite (bool_decide_eq_false_2 _ (proj2 Hns)).
  cbn [fst snd]. rewrite E. cbn [rbind].
  split; [reflexivity|]. split; [|split].
  - intros ->. reflexivity.
  - intros Hne Hmod. destruct (Variable'.data var) as [|b0 d] eqn:Ed;
      [contradiction|].
    rewrite fromstring_whole_frombuffer.
    destruct (frombuffer host (b0 :: d) (newbyteorder Big (DBasic Native k w)))
      as [a|e] eqn:Ef.
    + destruct (frombuffer_Done _ _ _ _ Ef) as (_ & Hn & ->).
      change (itemsize (newbyteorder Big (DBasic Native k w))) with w in *.
      assert (Hd : forall l,
                 Forall (fun c => length c = N.to_nat w) l ->
                 map (decode_item host (newbyteorder Big (DBasic Native k w))) l
                 = map (decode_item true (DBasic Big k w)) l).
      { intros l Hl. apply List.map_ext_Forall.
        eapply Forall_impl; [exact Hl|]. intros c Hc. cbn in Hc.
        rewrite (decode_item_be host Native k w c Hc).
        destruct k; reflexivity. }
      rewrite Hd by (apply chunks_widths; lia).
      reflexivity.
    + exfalso. revert Ef. unfold frombuffer.
      cbn [newbyteorder has_object itemsize].
      rewrite (bool_decide_eq_false_2 _ Hk).
      destruct (N.eqb_spec w 0); [lia|].
      subst len. rewrite Hmod. discriminate.
  - intros Hne Hmod. destruct (Variable'.data var) as [|b0 d] eqn:Ed;
      [contradiction|].
    rewrite fromstring_whole_frombuffer. unfold frombuffer.
    cbn [newbyteorder has_object itemsize].
    rewrite (bool_decide_eq_false_2 _ Hk).
    destruct (N.eqb_spec w 0); [lia|].
    subst len.
    destruct (N.eqb_spec (N.of_nat (length (b0 :: d)) mod w) 0);
      [contradiction|].
    reflexivity.
Qed.

(** X25.  Whenever [unpack_variable] returns an array, it was handed a
    Variable that has data and whose type has an entry in
    [_dtypeLookup] and is neither STRING nor OPAQUE (nor STRUCTURE),
    the type name is the name of the dtype returned, the array has the
    big-endian version of that dtype, and its elements take up exactly
    the bytes of the data. *)
Theorem unpack_variable_data d a dt type_name :
  snd (unpack_variable host d) = FDone (Some a, dt, type_name) ->
  exists var,
    d = AVariable var
    /\ Variable'.data var <> []
    /\ is_Some (_dtypeLookup (Variable'.dataType var))
    /\ Variable'.dataType var <> STRING
    /\ Variable'.dataType var <> OPAQUE
    /\ Variable'.dataType var <> STRUCTURE
    /\ type_name = dtype_name dt
    /\ arr_dtype a = newbyteorder Big dt
    /\ (shape_size (arr_shape a) * itemsize dt)%N
       = N.of_nat (length (Variable'.data var)).
Proof.
  unfold unpack_variable.
  destruct (bool_decide (descriptor_dataType d = STRUCTURE)) eqn:Hstruct.
  { cbn [snd]. destruct d as [var|struct]; [discriminate|].
    destruct (struct_to_dtype struct); discriminate. }
  cbn [snd]. destruct d as [var|struct]; [|discriminate].
  cbn [descriptor_dataType] in Hstruct. apply bool_decide_eq_false in Hstruct.
  unfold unpack_scalar. intros H. exists var. split; [reflexivity|].
  destruct (data_type_to_numpy_cases (Variable'.dataType var)
              (Variable'.unsigned var))
    as [[_ E]|(k & k0 & w & E & E0 & Hw & Hobj)];
    rewrite E in H; [discriminate|].
  cbn [rbind] in H.
  destruct (Variable'.data var) as [|b0 d] eqn:Ed; [discriminate|].
  rewrite fromstring_whole_frombuffer in H.
  destruct (frombuffer host (b0 :: d) (newbyteorder Big (DBasic Native k w)))
    as [a0|] eqn:Ef; [|discriminate].
  cbn [rbind flift] in H. injection H as <- <- <-.
  destruct (frombuffer_Done _ _ _ _ Ef) as (_ & Hn & ->).
  change (itemsize (newbyteorder Big (DBasic Native k w))) with w in *.
  cbn [itemsize arr_dtype arr_shape] in *.
  assert (Hk : k <> KObject).
  { intros ->. unfold frombuffer in Ef. discriminate Ef. }
  assert (Hns : Variable'.dataType var <> STRING /\
                Variable'.dataType var <> OPAQUE) by tauto.
  split; [discriminate|]. split.
  { unfold data_type_to_numpy in E0.
    destruct (_dtypeLookup (Variable'.dataType var)); [eauto|discriminate]. }
  split; [tauto|]. split; [tauto|]. split; [exact Hstruct|]. split.
  { rewrite (bool_decide_eq_false_2 _ (proj2 Hns)).
    rewrite (bool_decide_eq_false_2 _ (proj1 Hns)). reflexivity. }
  split; [reflexivity|]. cbn [shape_size fold_right]. lia.
Qed.

(** X26.  What [unpack_variable] does outside the numeric types.  A
    Variable of type SEQUENCE logs one warning and then raises
    [KeyError], as the type has no numpy equivalent.  A Structure of
    type SEQUENCE logs the warning and then raises [AttributeError], as
    it has no [unsigned] to hand to the type lookup; so does, without
    the warning, a Structure of any other type but STRUCTURE.  A
    Structure of type STRUCTURE gives no data, the compound dtype of
    [struct_to_dtype] and the name [Structure]; a Variable of type
    STRUCTURE raises [AttributeError], as it has no [vars].  A Variable
    of type STRING or OPAQUE logs nothing; without data it gives no
    array, the object dtype and the name [string] or [opaque]; with
    data it raises the [ValueError] of [np.fromstring], which makes no
    object arrays. *)
Theorem unpack_variable_non_numeric :
  (forall var : Variable'.t,
      Variable'.dataType var = SEQUENCE ->
      unpack_variable host (AVariable var)
      = (["Sequence support not implemented!"%string],
         FThrow (Exn KeyError)))
  /\ (forall struct : Structure.t,
        Structure.dataType struct <> STRUCTURE ->
        unpack_variable host (AStructure struct)
        = (if bool_decide (Structure.dataType struct = SEQUENCE)
           then ["Sequence support not implemented!"%string] else [],
           FThrow (Exn AttributeError)))
  /\ (forall struct : Structure.t,
        Structure.dataType struct = STRUCTURE ->
        unpack_variable host (AStructure struct)
        = ([], match struct_to_dtype struct with
               | FDone dt => FDone (None, dt, "Structure"%string)
               | FThrow e => FThrow e
               end))
  /\ (forall var : Variable'.t,
        Variable'.dataType var = STRUCTURE ->
        unpack_variable host (AVariable var)
        = ([], FThrow (Exn AttributeError)))
  /\ (forall var : Variable'.t,
        Variable'.dataType var = STRING \/ Variable'.dataType var = OPAQUE ->
        fst (unpack_variable host (AVariable var)) = []
        /\ (Variable'.data var = [] ->
            snd (unpack_variable host (AVariable var))
            = FDone (None, DBasic Native KObject 8,
                     if bool_decide (Variable'.dataType var = STRING)
                     then "string"%string else "opaque"%string))
        /\ (Variable'.data var <> [] ->
            snd (unpack_variable host (AVariable var))
            = FThrow (Exn ValueError_fromstring))).
Proof.
  split; [|split; [|split; [|split]]].
  - intros var Hs. rewrite unpack_variable_scalar by (rewrite Hs; discriminate).
    unfold unpack_scalar. rewrite Hs. reflexivity.
  - intros struct Hs. unfold unpack_variable. cbn [descriptor_dataType].
    rewrite (bool_decide_eq_false_2 _ Hs). reflexivity.
  - intros struct Hs. unfold unpack_variable. cbn [descriptor_dataType].
    rewrite (bool_decide_eq_true_2 _ Hs).
    destruct (struct_to_dtype struct); reflexivity.
  - intros var Hs. unfold unpack_variable. cbn [descriptor_dataType].
    rewrite (bool_decide_eq_true_2 _ Hs). reflexivity.
  - intros var Hs.
    rewrite unpack_variable_scalar
      by (destruct Hs as [-> | ->]; discriminate).
    unfold unpack_scalar.
    assert (E : data_type_to_numpy (Variable'.dataType var)
                  (Variable'.unsigned var)
                = Done (DBasic Native KObject 8)).
    { destruct Hs as [-> | ->]; reflexivity. }
    rewrite E. cbn [fst snd rbind]. destruct (Variable'.data var) as [|b0 d].
    + destruct Hs as [-> | ->]; repeat split; intros H;
        try reflexivity; contradiction.
    + destruct Hs as [-> | ->]; repeat split; intros H;
        try reflexivity; discriminate.
Qed.
End VariableProperties.

Lemma unpack_variable_numeric_witness :
  unpack_variable false
    (AVariable {| Variable'.name := "v"; Variable'.dataType := SHORT;
                  Variable'.unsigned := true;
                  Variable'.data := [x00; x01; xff; xfe] |})
  = ([], FDone (Some {| arr_dtype := DBasic Big KUInt 2;
                        arr_shape := [2%N];
                        arr_data := [EInt 1; EInt 65534] |},
                DBasic Native KUInt 2, "uint16"%string))
  /\ snd (unpack_variable false
            (AVariable {| Variable'.name := "v"; Variable'.dataType := SHORT;
                          Variable'.unsigned := true;
                          Variable'.data := [x00; x01; xff] |}))
     = FThrow (Exn ValueError_fromstring).
Proof.
  split.
  - pose proof (unpack_variable_numeric false
             {| Variable'.name := "v"; Variable'.dataType := SHORT;
                Variable'.unsigned := true;
                Variable'.data := [x00; x01; xff; xfe] |}
             KUInt 2%N eq_refl ltac:(discriminate)) as (Hlog & _ & Hdata & _).
    specialize (Hdata ltac:(discriminate) eq_refl).
    rewrite (surjective_pairing (unpack_variable _ _)), Hlog, Hdata.
    reflexivity.
  - apply (unpack_variable_numeric false
             {| Variable'.name := "v"; Variable'.dataType := SHORT;
                Variable'.unsigned := true;
                Variable'.data := [x00; x01; xff] |}
             KUInt 2%N eq_refl ltac:(discriminate)); discriminate.
Defined.

Lemma unpack_variable_data_witness :
  let var := {| Variable'.name := "v"; Variable'.dataType := SHORT;
                Variable'.unsigned := true;
                Variable'.data := [x00; x01; xff; xfe] |} in
  exists var',
    AVariable var = AVariable var'
    /\ Variable'.data var' <> []
    /\ is_Some (_dtypeLookup (Variable'.dataType var'))
    /\ Variable'.dataType var' <> STRING
    /\ Variable'.dataType var' <> OPAQUE
    /\ Variable'.dataType var' <> STRUCTURE
    /\ "uint16"%string = dtype_name (DBasic Native KUInt 2)
    /\ DBasic Big KUInt 2 = newbyteorder Big (DBasic Native KUInt 2)
    /\ (2 * 2)%N = N.of_nat (length (Variable'.data var')).
Proof.
  intros var.
  exact (unpack_variable_data false (AVariable var)
           {| arr_dtype := DBasic Big KUInt 2;
              arr_shape := [2%N];
              arr_data := [EInt 1; EInt 65534] |}
           (DBasic Native KUInt 2) "uint16"%string eq_refl).
Defined.

Lemma unpack_variable_non_numeric_witness :
  unpack_variable false
    (AVariable {| Variable'.name := "q"; Variable'.dataType := SEQUENCE;
                  Variable'.unsigned := false; Variable'.data := [] |})
  = (["Sequence support not implemented!"%string], FThrow (Exn KeyError))
  /\ unpack_variable false (AStructure (Structure.make "q" SEQUENCE [] []))
     = (["Sequence support not implemented!"%string],
        FThrow (Exn AttributeError))
  /\ unpack_variable false
       (AStructure
          (Structure.make "s" STRUCTURE
             [{| Variable'.name := "a"; Variable'.dataType := INT;
                 Variable'.unsigned := false; Variable'.data := [] |}] []))
     = ([], FDone (None, DStruct [("a"%string, DBasic Native KInt 4)],
                   "Structure"%string))
  /\ snd (unpack_variable false
            (AVariable {| Variable'.name := "t"; Variable'.dataType := STRING;
                          Variable'.unsigned := false;
                          Variable'.data := [x68] |}))
     = FThrow (Exn ValueError_fromstring).
Proof.
  split; [|split; [|split]].
  - apply (proj1 (unpack_variable_non_numeric false)
             {| Variable'.name := "q"; Variable'.dataType := SEQUENCE;
                Variable'.unsigned := false; Variable'.data := [] |} eq_refl).
  - apply (proj1 (proj2 (unpack_variable_non_numeric false))
             (Structure.make "q" SEQUENCE [] []) ltac:(discriminate)).
  - apply (proj1 (proj2 (proj2 (unpack_variable_non_numeric false)))
             (Structure.make "s" STRUCTURE
                [{| Variable'.name := "a"; Variable'.dataType := INT;
                    Variable'.unsigned := false; Variable'.data := [] |}] [])
             eq_refl).
  - destruct (proj2 (proj2 (proj2 (proj2 (unpack_variable_non_numeric false))))
                {| Variable'.name := "t"; Variable'.dataType := STRING;
                   Variable'.unsigned := false; Variable'.data := [x68] |}
                (or_introl eq_refl)) as (_ & _ & Hdata).
    apply Hdata. discriminate.
Defined.

(** ** MessageDispatcher: the branches of a DATA frame and the ERR frame *)

Lemma bind_Ok {A B} (m : M A) (k : A -> M B) w a w' :
  m w = Ok a w' -> (m ≫= k) w = k a w'.
Proof. intros H. unfold mbind, M_bind, bind. rewrite H. reflexivity. Qed.

Lemma bind_Raise {A B} (m : M A) (k : A -> M B) w e w' :
  m w = Raise e w' -> (m ≫= k) w = Raise e w'.
Proof. intros H. unfold mbind, M_bind, bind. rewrite H. reflexivity. Qed.

Lemma read_var_int_M_encode n rest lg :
  0 <= n ->
  read_var_int_M {| fobj := encode_var_int n ++ rest; log := lg |}
  = Ok n {| fobj := rest; log := lg |}.
Proof.
  intros Hn. unfold read_var_int_M. cbn [fobj log].
  rewrite (read_var_int_encode n rest Hn). reflexivity.
Qed.

Lemma read_blocks_framed blocks rest lg :
  Forall within_maxsize blocks ->
  read_blocks (length blocks)
    {| fobj := concat (map block_bytes blocks) ++ rest; log := lg |}
  = Ok blocks {| fobj := rest; log := lg |}.
Proof.
  induction 1 as [|b blocks Hb _ IH]; [reflexivity|].
  cbn [length read_blocks map concat]. rewrite <- app_assoc.
  rewrite (bind_Ok _ _ _ _ _ (read_block_framed b _ lg Hb)).
  rewrite (bind_Ok _ _ _ _ _ IH). reflexivity.
Qed.

Section DataProperties.
Variable host_big_endian : bool.
Variable ragged_as_objects : bool.
Variable zlib_decompress : bytes -> option bytes.
Variable utf8_decode_ignore : bytes -> string.
Variable Header : Type.
Variable Header_new : Header.
Variable Header_ParseFromString : bytes -> option Header.
Variable Data_ParseFromString : bytes -> option Data.t.
Variable StructureData_ParseFromString : bytes -> option StructureData.t.
Variable Error_ParseFromString : bytes -> option string.

Local Abbreviation data_chunk' :=
  (data_chunk host_big_endian ragged_as_objects zlib_decompress utf8_decode_ignore
     Header Data_ParseFromString StructureData_ParseFromString).
Local Abbreviation dispatch' :=
  (dispatch host_big_endian ragged_as_objects zlib_decompress utf8_decode_ignore Header
     Header_new Header_ParseFromString Data_ParseFromString
     StructureData_ParseFromString Error_ParseFromString).
Local Abbreviation messages_loop' :=
  (messages_loop host_big_endian ragged_as_objects zlib_decompress utf8_decode_ignore Header
     Header_new Header_ParseFromString Data_ParseFromString
     StructureData_ParseFromString Error_ParseFromString).
Local Abbreviation frames' :=
  (frames host_big_endian ragged_as_objects zlib_decompress utf8_decode_ignore Header
     Header_new Header_ParseFromString Data_ParseFromString
     StructureData_ParseFromString Error_ParseFromString).
Local Abbreviation read_ncstream_messages' :=
  (read_ncstream_messages host_big_endian ragged_as_objects zlib_decompress utf8_decode_ignore
     Header Header_new Header_ParseFromString Data_ParseFromString
     StructureData_ParseFromString Error_ParseFromString).

(** The start of every DATA frame: the header block is read and
    decoded. *)
Lemma data_chunk_header header data tail lg messages :
  within_maxsize header ->
  Data_ParseFromString header = Some data ->
  data_chunk' messages {| fobj := block_bytes header ++ tail; log := lg |}
  = (let dataType := Data.dataType data in
     if bool_decide (dataType = STRING) || bool_decide (dataType = OPAQUE)
        || Data.vdata data then
       num_obj ← read_var_int_M;
       blocks ← read_blocks (Z.to_nat num_obj);
       let blocks :=
         if bool_decide (dataType = STRING)
         then map (fun b => PyStr (utf8_decode_ignore b)) blocks
         else map PyBytes blocks in
       dt ← lift (vlen_dtype dataType);
       if Data.vdata data then
         views ← lift (result_map (frombuffer_obj host_big_endian dt) blocks);
         arr ← lift (np_array ragged_as_objects views);
         ret (messages ++ [match arr with
                           | inl a => MArray a
                           | inr arrs => MVlen arrs
                           end])
       else ret (messages ++ [MObjects dt blocks])
     else if bool_decide (is_Some (_dtypeLookup dataType)) then
       bin_data ← read_block;
       data_block ← lift (make_array host_big_endian zlib_decompress
                                     data (Bytes bin_data));
       ret (messages ++ [MArray data_block])
     else if bool_decide (dataType = STRUCTURE) then
       block ← read_block;
       sd ← parse StructureData_ParseFromString block;
       data_block ← lift (make_array host_big_endian zlib_decompress
                                     data (Struct sd));
       ret (messages ++ [MArray data_block])
     else if bool_decide (dataType = SEQUENCE) then
       magic ← read_magic;
       rest ← get_fobj;
       blocks ← sequence_loop StructureData_ParseFromString
                  (S (length rest)) magic [];
       ret (messages ++ [MSequence data blocks])
     else raise NotImplementedError_datatype)
    {| fobj := tail; log := lg |}.
Proof.
  intros Hmax Hparse. unfold data_chunk.
  rewrite (bind_Ok _ _ _ _ _ (read_block_framed header tail lg Hmax)).
  unfold mbind at 1, M_bind at 1, bind at 1. unfold parse at 1.
  rewrite Hparse. reflexivity.
Qed.

(** X7.  A DATA frame without vdata whose type has an entry in
    [_dtypeLookup] other than STRING and OPAQUE reads the header block
    and one more block, both such as bytes objects can hold, and
    appends what [make_array] makes of that block, or raises what
    [make_array] raises; either way the bytes after the second block
    stay unread and nothing is logged. *)
Theorem data_chunk_array header data payload rest lg messages :
  within_maxsize header -> within_maxsize payload ->
  Data_ParseFromString header = Some data ->
  is_Some (_dtypeLookup (Data.dataType data)) ->
  Data.dataType data <> STRING ->
  Data.dataType data <> OPAQUE ->
  Data.vdata data = false ->
  data_chunk' messages
    {| fobj := block_bytes header ++ block_bytes payload ++ rest; log := lg |}
  = match make_array host_big_endian zlib_decompress data (Bytes payload) with
    | Done a => Ok (messages ++ [MArray a]) {| fobj := rest; log := lg |}
    | Throw e => Raise e {| fobj := rest; log := lg |}
    end.
Proof.
  intros Hmax Hmax' Hparse Hl Hs Ho Hv.
  rewrite (data_chunk_header _ _ _ _ _ Hmax Hparse).
  cbv zeta. rewrite (bool_decide_eq_false_2 _ Hs), (bool_decide_eq_false_2 _ Ho).
  rewrite Hv. cbn [orb]. rewrite (bool_decide_eq_true_2 _ Hl).
  rewrite (bind_Ok _ _ _ _ _ (read_block_framed payload rest lg Hmax')).
  unfold mbind at 1, M_bind at 1, bind at 1.
  destruct (make_array _ _ data (Bytes payload)); reflexivity.
Qed.

(** X8.  A DATA frame of type STRUCTURE without vdata reads the header
    block and one more block, both such as bytes objects can hold,
    decodes that block as a StructureData and appends what [make_array]
    makes of it, or raises what [make_array] raises; either way the
    bytes after the second block stay unread and nothing is logged. *)
Theorem data_chunk_structure header data block sd rest lg messages :
  within_maxsize header -> within_maxsize block ->
  Data_ParseFromString header = Some data ->
  Data.dataType data = STRUCTURE ->
  Data.vdata data = false ->
  StructureData_ParseFromString block = Some sd ->
  data_chunk' messages
    {| fobj := block_bytes header ++ block_bytes block ++ rest; log := lg |}
  = match make_array host_big_endian zlib_decompress data (Struct sd) with
    | Done a => Ok (messages ++ [MArray a]) {| fobj := rest; log := lg |}
    | Throw e => Raise e {| fobj := rest; log := lg |}
    end.
Proof.
  intros Hmax Hmax' Hparse Hs Hv Hsd.
  rewrite (data_chunk_header _ _ _ _ _ Hmax Hparse).
  cbv zeta. rewrite Hs, Hv.
  rewrite (bool_decide_eq_false_2 (STRUCTURE = STRING)) by discriminate.
  rewrite (bool_decide_eq_false_2 (STRUCTURE = OPAQUE)) by discriminate.
  cbn [orb].
  rewrite (bool_decide_eq_false_2 (is_Some (_dtypeLookup STRUCTURE)))
    by (intros [? ?]; discriminate).
  rewrite (bool_decide_eq_true_2 (STRUCTURE = STRUCTURE)) by reflexivity.
  rewrite (bind_Ok _ _ _ _ _ (read_block_framed block rest lg Hmax')).
  unfold mbind at 1, M_bind at 1, bind at 1. unfold parse at 1.
  rewrite Hsd. cbn [ret].
  unfold mbind at 1, M_bind at 1, bind at 1.
  destruct (make_array _ _ data (Struct sd)); reflexivity.
Qed.

(** X11.  A DATA frame without vdata whose type is none of the codes
    of the enum raises [NotImplementedError] right after the header
    block, a block that a bytes object can hold: no further byte is
    read, nothing is appended and nothing is logged. *)
Theorem data_chunk_unknown_datatype header data code tail lg messages :
  within_maxsize header ->
  Data_ParseFromString header = Some data ->
  Data.dataType data = DataType_unknown code ->
  Data.vdata data = false ->
  data_chunk' messages {| fobj := block_bytes header ++ tail; log := lg |}
  = Raise NotImplementedError_datatype {| fobj := tail; log := lg |}.
Proof.
  intros Hmax Hparse Hs Hv. rewrite (data_chunk_header _ _ _ _ _ Hmax Hparse).
  cbv zeta. rewrite Hs, Hv.
  rewrite !bool_decide_eq_false_2; try discriminate; try reflexivity.
  intros [? ?]; discriminate.
Qed.

Lemma data_type_to_numpy_table t u o k w :
  data_type_to_numpy t u = Done (DBasic o k w) ->
  (0 < w)%N /\ (k = KObject <-> t = STRING \/ t = OPAQUE).
Proof.
  destruct t, u; cbn; intros [= <- <- <-]; (split; [lia|]);
    split; (discriminate || tauto || (intros [|]; discriminate)).
Qed.

Lemma result_map_Done {A B} (f : A -> result B) (g : A -> B) l :
  Forall (fun x => f x = Done (g x)) l -> result_map f l = Done (map g l).
Proof.
  induction 1 as [|x l Hx _ IH]; [reflexivity|].
  cbn [result_map map]. rewrite Hx. cbn [rbind]. rewrite IH. reflexivity.
Qed.

Lemma result_map_Throw {A B} (f : A -> result B) e l :
  (forall x, (exists y, f x = Done y) \/ f x = Throw e) ->
  Exists (fun x => f x = Throw e) l -> result_map f l = Throw e.
Proof.
  intros Hf. induction 1 as [x l Hx|x l _ IH]; cbn [result_map].
  - rewrite Hx. reflexivity.
  - rewrite IH. destruct (Hf x) as [[y ->] | ->]; reflexivity.
Qed.

Lemma result_map_map {A B C} (f : B -> result C) (h : A -> B) l :
  result_map f (map h l) = result_map (fun x => f (h x)) l.
Proof.
  induction l as [|x l IH]; [reflexivity|].
  cbn [map result_map]. rewrite IH. reflexivity.
Qed.

(** X9.  A DATA frame of type STRING or OPAQUE without vdata reads the
    header block, a varint count and that many blocks, all such as
    bytes objects can hold, and appends one object array of the blocks
    in order: decoded as text for STRING, as the bytes they are for
    OPAQUE.  The bytes after the last block stay unread. *)
Theorem data_chunk_objects header data blocks rest lg messages :
  within_maxsize header -> Forall within_maxsize blocks ->
  Data_ParseFromString header = Some data ->
  Data.dataType data = STRING \/ Data.dataType data = OPAQUE ->
  Data.vdata data = false ->
  data_chunk' messages
    {| fobj := block_bytes header
               ++ encode_var_int (Z.of_nat (length blocks))
               ++ concat (map block_bytes blocks) ++ rest;
       log := lg |}
  = Ok (messages
        ++ [MObjects (DBasic NotApplicable KObject 8)
              (if bool_decide (Data.dataType data = STRING)
               then map (fun b => PyStr (utf8_decode_ignore b)) blocks
               else map PyBytes blocks)])
       {| fobj := rest; log := lg |}.
Proof.
  intros Hmax Hmaxs Hparse Hs Hv.
  rewrite (data_chunk_header _ _ _ _ _ Hmax Hparse).
  cbv zeta. rewrite Hv.
  assert (Hc : bool_decide (Data.dataType data = STRING)
               || bool_decide (Data.dataType data = OPAQUE) || false = true).
  { destruct Hs as [-> | ->]; reflexivity. }
  rewrite Hc.
  rewrite (bind_Ok _ _ _ _ _ (read_var_int_M_encode (Z.of_nat (length blocks)) _ lg ltac:(lia))).
  rewrite Nat2Z.id.
  rewrite (bind_Ok _ _ _ _ _ (read_blocks_framed blocks rest lg Hmaxs)).
  destruct Hs as [-> | ->]; reflexivity.
Qed.

(** [np.array] on the views of blocks: stacked when all blocks hold
    the same number of items, else as the numpy at hand has it. *)
Lemma np_array_views flag (view : bytes -> ndarray) (items : bytes -> N)
    b0 more :
  (forall b, arr_shape (view b) = [items b]) ->
  (Forall (fun b => items b = items b0) more ->
   np_array flag (map view (b0 :: more))
   = Done (inl {| arr_dtype := match more with
                                 | [] => arr_dtype (view b0)
                                 | _ :: _ =>
                                     newbyteorder Native (arr_dtype (view b0))
                                 end;
                  arr_shape := [N.of_nat (length (b0 :: more)); items b0];
                  arr_data := concat (map arr_data
                                          (map view (b0 :: more))) |}))
  /\ (Exists (fun b => items b <> items b0) more ->
      np_array flag (map view (b0 :: more))
      = if flag then Done (inr (map view (b0 :: more)))
        else Throw ValueError_inhomogeneous).
Proof.
  intros Hshape. cbn [map np_array]. split.
  - intros Hall.
    assert (Ht : forallb (fun a' => bool_decide (arr_shape a' = arr_shape (view b0)))
                         (map view more) = true).
    { induction Hall as [|b more Hb _ IH]; [reflexivity|].
      cbn [map forallb]. rewrite IH, !Hshape, Hb.
      rewrite bool_decide_eq_true_2 by reflexivity. reflexivity. }
    rewrite Ht, Hshape. cbn [length]. rewrite length_map.
    destruct more; reflexivity.
  - intros Hex.
    assert (Ht : forallb (fun a' => bool_decide (arr_shape a' = arr_shape (view b0)))
                         (map view more) = false).
    { induction Hex as [b more Hb|b more _ IH]; cbn [map forallb].
      - rewrite !Hshape, bool_decide_eq_false_2; [reflexivity|].
        intros [= E]. apply Hb, E.
      - rewrite IH. apply andb_false_r. }
    rewrite Ht. reflexivity.
Qed.

(** X10.  A DATA frame with vdata of a numeric type reads the header
    block, a varint count and that many blocks, and reads every block
    most significant byte first.  When some block is not a whole number
    of items, the [ValueError] of [np.frombuffer] is raised after all
    the blocks have been read.  Otherwise no block gives the empty
    array of floats; blocks that all hold the same number of items are
    stacked into one two-dimensional array, one row for each block,
    which keeps the big-endian dtype when there is one block and has
    the dtype in native byte order when there are more; blocks that
    hold different numbers of items
    give, with a numpy before 1.24, one array of the flat big-endian
    arrays of the blocks as objects, and raise the [ValueError] of
    [np.array] with a later numpy.  In each case the bytes after the
    last block stay unread. *)
Theorem data_chunk_vdata header data k w blocks rest lg messages :
  within_maxsize header -> Forall within_maxsize blocks ->
  Data_ParseFromString header = Some data ->
  Data.vdata data = true ->
  data_type_to_numpy (Data.dataType data) false = Done (DBasic Native k w) ->
  k <> KObject ->
  let items (b : bytes) := (N.of_nat (length b) / w)%N in
  let decoded (b : bytes) :=
    map (be_elem k) (chunks (N.to_nat w) (N.to_nat (items b)) b) in
  let view (b : bytes) :=
    {| arr_dtype := DBasic (if has_byteorder k w then Big
                            else NotApplicable) k w;
       arr_shape := [items b];
       arr_data := decoded b |} in
  let w0 := {| fobj := block_bytes header
                       ++ encode_var_int (Z.of_nat (length blocks))
                       ++ concat (map block_bytes blocks) ++ rest;
               log := lg |} in
  let w1 := {| fobj := rest; log := lg |} in
  (Exists (fun b => (N.of_nat (length b) mod w <> 0)%N) blocks ->
   data_chunk' messages w0 = Raise ValueError_frombuffer w1)
  /\ (Forall (fun b => (N.of_nat (length b) mod w = 0)%N) blocks ->
      (blocks = [] ->
       data_chunk' messages w0
       = Ok (messages ++ [MArray {| arr_dtype := DBasic Native KFloat 8;
                                    arr_shape := [0%N];
                                    arr_data := [] |}]) w1)
      /\ (forall b0 more,
            blocks = b0 :: more ->
            (Forall (fun b => items b = items b0) more ->
             data_chunk' messages w0
             = Ok (messages
                   ++ [MArray
                         {| arr_dtype :=
                              DBasic (if has_byteorder k w
                                      then match more with
                                           | [] => Big
                                           | _ :: _ => Native
                                           end
                                      else NotApplicable) k w;
                            arr_shape :=
                              [N.of_nat (length blocks); items b0];
                            arr_data := concat (map decoded blocks) |}])
                  w1)
            /\ (Exists (fun b => items b <> items b0) more ->
                data_chunk' messages w0
                = if ragged_as_objects
                  then Ok (messages ++ [MVlen (map view blocks)]) w1
                  else Raise ValueError_inhomogeneous w1))).
Proof.
  intros Hmax Hmaxs Hparse Hv Hdt Hk items decoded view w0 w1.
  destruct (data_type_to_numpy_table _ _ _ _ _ Hdt) as [Hw Hobj].
  assert (Hns : Data.dataType data <> STRING).
  { intros E. apply Hk, Hobj. left. exact E. }
  set (dt := newbyteorder Big (DBasic Native k w)).
  assert (Hstart : data_chunk' messages w0
            = (views ← lift (result_map (frombuffer_obj host_big_endian dt)
                                        (map PyBytes blocks));
               arr ← lift (np_array ragged_as_objects views);
               ret (messages ++ [match arr with
                                 | inl a => MArray a
                                 | inr arrs => MVlen arrs
                                 end])) w1).
  { subst w0. rewrite (data_chunk_header _ _ _ _ _ Hmax Hparse).
    cbv zeta. rewrite Hv, orb_true_r.
    rewrite (bind_Ok _ _ _ _ _
               (read_var_int_M_encode (Z.of_nat (length blocks)) _ lg
                  ltac:(lia))).
    rewrite Nat2Z.id.
    rewrite (bind_Ok _ _ _ _ _ (read_blocks_framed blocks rest lg Hmaxs)).
    rewrite (bool_decide_eq_false_2 _ Hns).
    unfold vlen_dtype. rewrite Hdt. reflexivity. }
  assert (Hfb : forall b,
             frombuffer host_big_endian b dt
             = if (N.of_nat (length b) mod w =? 0)%N then Done (view b)
               else Throw ValueError_frombuffer).
  { intros b.
    destruct (frombuffer host_big_endian b dt) as [a|e] eqn:Ef.
    - destruct (frombuffer_be host_big_endian Native k w b a Ef)
        as [Hd Hdata].
      destruct (frombuffer_Done _ _ _ _ Ef) as (_ & Hn & Ha).
      change (itemsize dt) with w in *.
      assert (Hm : (N.of_nat (length b) mod w = 0)%N).
      { rewrite <- Hn. apply N.Div0.mod_mul. }
      rewrite Hm. cbn [N.eqb]. f_equal. subst view decoded items. cbv beta.
      rewrite Ha in Hdata |- *. cbn [arr_data] in Hdata.
      rewrite length_map, chunks_length in Hdata. cbn [arr_dtype arr_shape].
      rewrite Hdata. reflexivity.
    - revert Ef. unfold frombuffer. subst dt.
      cbn [newbyteorder has_object itemsize].
      rewrite (bool_decide_eq_false_2 _ Hk).
      destruct (N.eqb_spec w 0); [lia|].
      destruct (_ =? 0)%N; [discriminate|]. intros [= <-]. reflexivity. }
  assert (Hviews : Forall (fun b => (N.of_nat (length b) mod w = 0)%N) blocks ->
            result_map (frombuffer_obj host_big_endian dt) (map PyBytes blocks)
            = Done (map view blocks)).
  { intros Hall. rewrite result_map_map. apply result_map_Done.
    eapply Forall_impl; [exact Hall|].
    intros b Hb. cbn. rewrite Hfb, Hb. reflexivity. }
  split.
  - intros Hex. rewrite Hstart, result_map_map.
    rewrite (result_map_Throw _ ValueError_frombuffer); [reflexivity| |].
    + intros b. cbn. rewrite Hfb. destruct (_ =? 0)%N; eauto.
    + eapply Exists_impl; [exact Hex|].
      intros b Hb. cbn. rewrite Hfb.
      destruct (N.eqb_spec (N.of_nat (length b) mod w) 0); [contradiction|].
      reflexivity.
  - intros Hall. rewrite Hstart, (Hviews Hall). split.
    + intros ->. reflexivity.
    + intros b0 more ->.
      destruct (np_array_views ragged_as_objects view items b0 more
                  ltac:(reflexivity)) as [Hsame Hragged].
      split.
      * intros Hs. unfold mbind at 1, M_bind at 1, bind at 1. cbn [lift ret].
        unfold mbind at 1, M_bind at 1, bind at 1.
        rewrite (Hsame Hs). cbn [lift ret].
        rewrite map_map. destruct more; [reflexivity|].
        subst view. cbn [arr_dtype newbyteorder].
        destruct (has_byteorder k w); reflexivity.
      * intros Hr. unfold mbind at 1, M_bind at 1, bind at 1. cbn [lift ret].
        unfold mbind at 1, M_bind at 1, bind at 1.
        rewrite (Hragged Hr). destruct ragged_as_objects; reflexivity.
Qed.

(** ** MessageDispatcher: the decode loop as a whole *)

Lemma bind_Ok_inv {A B} (m : M A) (k : A -> M B) w b w' :
  (m ≫= k) w = Ok b w' ->
  exists a w1, m w = Ok a w1 /\ k a w1 = Ok b w'.
Proof.
  unfold mbind, M_bind, bind. destruct (m w) as [a w1| |]; try discriminate.
  eauto.
Qed.

(** One turn of the loop. *)
Lemma messages_loop_step fuel messages w :
  messages_loop' (S fuel) messages w
  = match read_magic w with
    | Ok [] w1 => Ok messages w1
    | Ok magic w1 =>
        match dispatch' magic messages w1 with
        | Ok messages1 w2 => messages_loop' fuel messages1 w2
        | Raise e w2 => Raise e w2
        | OutOfFuel => OutOfFuel
        end
    | Raise e w1 => Raise e w1
    | OutOfFuel => OutOfFuel
    end.
Proof.
  cbn [messages_loop]. unfold mbind, M_bind, bind.
  destruct (read_magic w) as [[|b magic] w1| |]; reflexivity.
Qed.

(** Fuel beyond the bytes of the source makes no difference. *)
Lemma messages_loop_fuel f1 : forall f2 messages w,
  (length (fobj w) < f1)%nat -> (length (fobj w) < f2)%nat ->
  messages_loop' f1 messages w = messages_loop' f2 messages w.
Proof.
  induction f1 as [|f1 IH]; intros f2 messages w H1 H2; [lia|].
  destruct f2 as [|f2]; [lia|]. rewrite !messages_loop_step.
  destruct (read_magic w) as [magic w1| |] eqn:Em; try reflexivity.
  destruct magic as [|b magic]; [reflexivity|].
  pose proof (read_magic_shorter _ _ _ Em ltac:(discriminate)) as Hlt.
  pose proof (well_behaved_dispatch host_big_endian ragged_as_objects zlib_decompress
                utf8_decode_ignore Header Header_new Header_ParseFromString
                Data_ParseFromString StructureData_ParseFromString
                Error_ParseFromString (b :: magic) messages w1) as Hwb.
  destruct (dispatch' (b :: magic) messages w1) as [ms2 w2| |];
    try reflexivity.
  apply IH; lia.
Qed.

(** From the completed frames on, the decode call is the loop on what
    is left. *)
Lemma frames_then source w messages :
  frames' {| fobj := source; log := [] |} [] w messages ->
  read_ncstream_messages' source
  = messages_loop' (S (length (fobj w))) messages w.
Proof.
  intros Hf.
  destruct (frames_fuel host_big_endian ragged_as_objects zlib_decompress utf8_decode_ignore
              Header Header_new Header_ParseFromString Data_ParseFromString
              StructureData_ParseFromString Error_ParseFromString
              _ _ _ _ Hf) as (k & Hk & Hloop).
  cbn [fobj] in Hk. unfold read_ncstream_messages.
  replace (S (length source)) with (k + (S (length source) - k))%nat by lia.
  rewrite Hloop. apply messages_loop_fuel; lia.
Qed.

Lemma messages_loop_exhausts fuel : forall messages w messages' w',
  messages_loop' fuel messages w = Ok messages' w' -> fobj w' = [].
Proof.
  induction fuel as [|fuel IH]; intros messages w messages' w' H;
    [discriminate|].
  rewrite messages_loop_step in H.
  destruct (read_magic w) as [[|b magic] w1| |] eqn:Hm; try discriminate.
  - injection H as _ <-. unfold read_magic, read in Hm.
    change (4 <? 0) with false in Hm. cbv iota in Hm.
    injection Hm as Hm <-. cbn [fobj].
    change (Z.to_nat 4) with 4%nat in *.
    destruct (fobj w); [reflexivity|discriminate].
  - destruct (dispatch' _ messages w1) as [ms1 w2| |]; try discriminate.
    eapply IH, H.
Qed.

(** X4.  On every byte source the decode call ends: it returns or
    raises.  When it returns, the source has been read to its end. *)
Theorem read_ncstream_messages_ends source :
  let decode :=
    read_ncstream_messages host_big_endian ragged_as_objects zlib_decompress utf8_decode_ignore
      Header Header_new Header_ParseFromString Data_ParseFromString
      StructureData_ParseFromString Error_ParseFromString in
  decode source <> OutOfFuel
  /\ forall messages w, decode source = Ok messages w -> fobj w = [].
Proof.
  intros decode. split.
  - apply read_ncstream_messages_total.
  - intros messages w H. eapply messages_loop_exhausts, H.
Qed.

(** X5.  An ERR frame after any number of completed frames, with a
    block that a bytes object can hold, makes the call raise
    [RuntimeError] with the message of the decoded Error: the list
    accumulated so far is not returned, and the bytes after the frame
    stay unread. *)
Theorem read_ncstream_messages_err source block text rest lg messages :
  frames' {| fobj := source; log := [] |} []
          {| fobj := MAGIC_ERR ++ block_bytes block ++ rest; log := lg |}
          messages ->
  within_maxsize block ->
  Error_ParseFromString block = Some text ->
  read_ncstream_messages' source
  = Raise (RuntimeError text) {| fobj := rest; log := lg |}.
Proof.
  intros Hf Hmax Hparse. rewrite (frames_then _ _ _ Hf), messages_loop_step.
  rewrite (read_magic_app MAGIC_ERR _ lg eq_refl). cbn [MAGIC_ERR].
  unfold dispatch.
  rewrite (bool_decide_eq_false_2 (_ = MAGIC_HEADER)) by discriminate.
  rewrite (bool_decide_eq_false_2 (_ = MAGIC_DATA)) by discriminate.
  rewrite (bool_decide_eq_true_2 (_ = MAGIC_ERR)) by reflexivity.
  rewrite (bind_Ok _ _ _ _ _ (read_block_framed block rest lg Hmax)).
  unfold mbind at 1, M_bind at 1, bind at 1. unfold parse. rewrite Hparse.
  reflexivity.
Qed.

Lemma frames_trans w0 ms0 w1 ms1 w2 ms2 :
  frames' w0 ms0 w1 ms1 -> frames' w1 ms1 w2 ms2 -> frames' w0 ms0 w2 ms2.
Proof.
  induction 1 as [|w ms magic wa msa wb w' ms' Hm Hne Hd _ IH]; intros H2;
    [exact H2|].
  eapply frames_cons; [exact Hm|exact Hne|exact Hd|]. apply IH, H2.
Qed.

(** X6.  Four bytes that are none of the HEADER, DATA and ERR magics
    make a completed frame of their own: one [Unknown magic] record is
    logged with the bytes in hexadecimal, nothing is appended, no byte
    after the four is skipped and decoding goes on with the next magic.
    When they are the last bytes of the source, the call returns the
    list accumulated so far. *)
Theorem read_ncstream_messages_unknown_magic source magic tail lg messages :
  frames' {| fobj := source; log := [] |} []
          {| fobj := magic ++ tail; log := lg |} messages ->
  length magic = 4%nat ->
  magic <> MAGIC_HEADER -> magic <> MAGIC_DATA -> magic <> MAGIC_ERR ->
  frames' {| fobj := source; log := [] |} []
          {| fobj := tail; log := lg ++ [unknown_magic_msg magic] |} messages
  /\ (tail = [] ->
      read_ncstream_messages' source
      = Ok messages {| fobj := []; log := lg ++ [unknown_magic_msg magic] |}).
Proof.
  intros Hf Hlen Hh Hd He.
  assert (Hf' : frames' {| fobj := source; log := [] |} []
                  {| fobj := tail; log := lg ++ [unknown_magic_msg magic] |}
                  messages).
  { eapply frames_trans; [exact Hf|].
    eapply frames_cons; [apply read_magic_app, Hlen| | |apply frames_nil].
    - intros ->. discriminate Hlen.
    - unfold dispatch.
      rewrite (bool_decide_eq_false_2 _ Hh), (bool_decide_eq_false_2 _ Hd),
        (bool_decide_eq_false_2 _ He).
      reflexivity. }
  split; [exact Hf'|]. intros ->. rewrite (frames_then _ _ _ Hf'). reflexivity.
Qed.

Lemma messages_kept_refl (ms : list (message Header)) : messages_kept ms ms.
Proof. repeat split; [lia|auto..]. Qed.

Lemma messages_kept_trans (a b c : list (message Header)) :
  messages_kept a b -> messages_kept b c -> messages_kept a c.
Proof.
  intros (Hl1 & Hi1 & Hz1) (Hl2 & Hi2 & Hz2). split; [lia|]. split.
  - intros i Hi. rewrite Hi2, Hi1 by lia. reflexivity.
  - intros m Hm. destruct (Hz1 m Hm) as [Hb | [[h ->] [h' Hb]]].
    + destruct (Hz2 m Hb) as [Hc | Hc]; [left|right]; exact Hc.
    + right. split; [eauto|].
      destruct (Hz2 _ Hb) as [Hc | [_ Hc]]; eauto.
Qed.

Lemma messages_kept_app (ms : list (message Header)) m :
  messages_kept ms (ms ++ [m]).
Proof.
  split; [rewrite length_app; cbn; lia|]. split.
  - intros i Hi. apply lookup_app_l. lia.
  - intros m0 Hm. left. rewrite lookup_app_l; [exact Hm|].
    apply lookup_lt_Some in Hm. exact Hm.
Qed.

Lemma data_chunk_appends messages w messages' w' :
  data_chunk' messages w = Ok messages' w' ->
  exists m, messages' = messages ++ [m].
Proof.
  unfold data_chunk. intros H.
  apply bind_Ok_inv in H as (block & w1 & _ & H).
  apply bind_Ok_inv in H as (data & w2 & _ & H).
  cbv zeta in H.
  destruct (_ || _ || _).
  { apply bind_Ok_inv in H as (num_obj & w3 & _ & H).
    apply bind_Ok_inv in H as (blocks & w4 & _ & H).
    apply bind_Ok_inv in H as (dt & w5 & _ & H).
    destruct (Data.vdata data).
    - apply bind_Ok_inv in H as (views & w6 & _ & H).
      apply bind_Ok_inv in H as (arr & w7 & _ & H).
      injection H as <- _. eauto.
    - injection H as <- _. eauto. }
  destruct (bool_decide (is_Some _)).
  { apply bind_Ok_inv in H as (bin_data & w3 & _ & H).
    apply bind_Ok_inv in H as (a & w4 & _ & H).
    injection H as <- _. eauto. }
  destruct (bool_decide (_ = STRUCTURE)).
  { apply bind_Ok_inv in H as (block' & w3 & _ & H).
    apply bind_Ok_inv in H as (sd & w4 & _ & H).
    apply bind_Ok_inv in H as (a & w5 & _ & H).
    injection H as <- _. eauto. }
  destruct (bool_decide (_ = SEQUENCE)); [|discriminate].
  apply bind_Ok_inv in H as (magic & w3 & _ & H).
  apply bind_Ok_inv in H as (left & w4 & _ & H).
  apply bind_Ok_inv in H as (blocks & w5 & _ & H).
  injection H as <- _. eauto.
Qed.

Lemma dispatch_keeps magic messages w messages' w' :
  dispatch' magic messages w = Ok messages' w' ->
  messages_kept messages messages'
  /\ (length messages' <= S (length messages))%nat.
Proof.
  unfold dispatch. intros H.
  destruct (bool_decide (magic = MAGIC_HEADER)).
  { unfold header_chunk in H.
    destruct messages as [|m0 earlier].
    - cbn [app lookup list_lookup] in H.
      apply bind_Ok_inv in H as (block & w1 & _ & H).
      apply bind_Ok_inv in H as (h & w2 & _ & H).
      injection H as <- _. split; [|cbn; lia].
      split; [cbn; lia|]. split; [cbn; lia|discriminate].
    - cbn [app lookup list_lookup] in H.
      destruct m0 as [h0| | | |]; try discriminate.
      apply bind_Ok_inv in H as (block & w1 & _ & H).
      apply bind_Ok_inv in H as (h & w2 & _ & H).
      injection H as <- _. cbn [insert list_insert].
      split; [|cbn; rewrite length_app; cbn; lia].
      split; [cbn; rewrite length_app; cbn; lia|]. split.
      + intros [|i] Hi; [lia|]. cbn [lookup list_lookup length] in *.
        apply lookup_app_l. lia.
      + intros m [= <-]. right. split; eauto. }
  destruct (bool_decide (magic = MAGIC_DATA)).
  { apply data_chunk_appends in H as [m ->].
    split; [apply messages_kept_app|rewrite length_app; cbn; lia]. }
  destruct (bool_decide (magic = MAGIC_ERR)).
  { apply bind_Ok_inv in H as (block & w1 & _ & H).
    apply bind_Ok_inv in H as (text & w2 & _ & H). discriminate. }
  apply bind_Ok_inv in H as (u & w1 & _ & H). injection H as <- _.
  split; [apply messages_kept_refl|lia].
Qed.

(** X14.  What a run of the loop keeps of the list it started with:
    the list never gets shorter, every item after the first stays what
    it was, and the first item stays what it was unless it is a Header,
    in which case it is still a Header. *)
Theorem messages_loop_keeps fuel : forall messages w messages' w',
  messages_loop' fuel messages w = Ok messages' w' ->
  messages_kept messages messages'.
Proof.
  induction fuel as [|fuel IH]; intros messages w messages' w' H;
    [discriminate|].
  rewrite messages_loop_step in H.
  destruct (read_magic w) as [[|b magic] w1| |]; try discriminate.
  - injection H as <- _. apply messages_kept_refl.
  - destruct (dispatch' _ messages w1) as [ms1 w2| |] eqn:Hd;
      try discriminate.
    eapply messages_kept_trans; [apply (dispatch_keeps _ _ _ _ _ Hd)|].
    eapply IH, H.
Qed.

(** X15.  A source that ends inside the length varint of a block,
    right after a DATA or ERR magic or a HEADER magic whose block would
    be read, makes the call raise the [TypeError] of [ord] on an empty
    read: the list accumulated so far is not returned, and the source
    has been read to its end. *)
Theorem read_ncstream_messages_truncated source magic tail lg messages :
  frames' {| fobj := source; log := [] |} []
          {| fobj := magic ++ tail; log := lg |} messages ->
  magic = MAGIC_DATA \/ magic = MAGIC_ERR
  \/ (magic = MAGIC_HEADER
      /\ (messages = [] \/ exists h earlier, messages = MHeader h :: earlier)) ->
  Forall high_bit_set tail ->
  read_ncstream_messages' source
  = Raise TypeError_ord {| fobj := []; log := lg |}.
Proof.
  intros Hf Hmagic Htail.
  assert (Hrb : forall A (k : bytes -> M A),
             (read_block ≫= k) {| fobj := tail; log := lg |}
             = Raise TypeError_ord {| fobj := []; log := lg |}).
  { intros A k. apply bind_Raise. unfold read_block. apply bind_Raise.
    unfold read_var_int_M. cbn [fobj log].
    unfold read_var_int. rewrite read_var_int_loop_truncated by exact Htail.
    reflexivity. }
  rewrite (frames_then _ _ _ Hf), messages_loop_step.
  assert (Hlen : length magic = 4%nat).
  { destruct Hmagic as [-> | [-> | [-> _]]]; reflexivity. }
  rewrite (read_magic_app magic tail lg Hlen).
  assert (Hd : dispatch' magic messages {| fobj := tail; log := lg |}
               = Raise TypeError_ord {| fobj := []; log := lg |}).
  { unfold dispatch. destruct Hmagic as [-> | [-> | [-> Hms]]].
    - rewrite (bool_decide_eq_false_2 (_ = MAGIC_HEADER)) by discriminate.
      rewrite (bool_decide_eq_true_2 (_ = MAGIC_DATA)) by reflexivity.
      unfold data_chunk. apply Hrb.
    - rewrite (bool_decide_eq_false_2 (_ = MAGIC_HEADER)) by discriminate.
      rewrite (bool_decide_eq_false_2 (_ = MAGIC_DATA)) by discriminate.
      rewrite (bool_decide_eq_true_2 (_ = MAGIC_ERR)) by reflexivity.
      apply Hrb.
    - rewrite (bool_decide_eq_true_2 (_ = MAGIC_HEADER)) by reflexivity.
      unfold header_chunk.
      destruct Hms as [-> | (h & earlier & ->)];
        cbn [app lookup list_lookup]; apply Hrb. }
  rewrite Hd. destruct magic; [discriminate Hlen|reflexivity].
Qed.
End DataProperties.

Lemma data_chunk_array_witness :
  data_chunk false true Wire.zlib_decompress Wire.utf8_decode_ignore Wire.Header
    Wire.Data_ParseFromString Wire.StructureData_ParseFromString []
    {| fobj := [x06; x03; x00; x00; x00; x04; x01]
               ++ [x04; x00; x00; x00; x2a] ++ [x07];
       log := [] |}
  = Ok [MArray {| arr_dtype := DBasic Big KInt 4;
                  arr_shape := [1%N];
                  arr_data := [EInt 42] |}]
       {| fobj := [x07]; log := [] |}.
Proof.
  exact (data_chunk_array false true Wire.zlib_decompress Wire.utf8_decode_ignore
           Wire.Header Wire.Data_ParseFromString
           Wire.StructureData_ParseFromString
           [x03; x00; x00; x00; x04; x01]
           {| Data.dataType := INT; Data.compress := NONE;
              Data.bigend := false; Data.vdata := false;
              Data.section_range := [{| r_size := 1 |}];
              Data.uncompressedSize := 4 |}
           [x00; x00; x00; x2a] [x07] [] []
           ltac:(vm_compute; discriminate) ltac:(vm_compute; discriminate)
           eq_refl (ex_intro _ "i4"%string eq_refl)
           ltac:(discriminate) ltac:(discriminate) eq_refl).
Defined.

Lemma data_chunk_structure_witness :
  data_chunk false true Wire.zlib_decompress Wire.utf8_decode_ignore Wire.Header
    Wire.Data_ParseFromString Wire.StructureData_ParseFromString []
    {| fobj := [x05; x08; x00; x00; x00; x00]
               ++ [x05; x02; xaa; xbb; xcc; xdd] ++ [x07];
       log := [] |}
  = Ok [MArray {| arr_dtype := DStruct [("<"%string, DBasic NotApplicable KVoid 2)];
                  arr_shape := [2%N];
                  arr_data := [ERaw [xaa; xbb]; ERaw [xcc; xdd]] |}]
       {| fobj := [x07]; log := [] |}.
Proof.
  exact (data_chunk_structure false true Wire.zlib_decompress
           Wire.utf8_decode_ignore Wire.Header Wire.Data_ParseFromString
           Wire.StructureData_ParseFromString
           [x08; x00; x00; x00; x00]
           {| Data.dataType := STRUCTURE; Data.compress := NONE;
              Data.bigend := false; Data.vdata := false;
              Data.section_range := []; Data.uncompressedSize := 0 |}
           [x02; xaa; xbb; xcc; xdd]
           {| StructureData.data := [xaa; xbb; xcc; xdd];
              StructureData.rowLength := 2 |}
           [x07] [] []
           ltac:(vm_compute; discriminate) ltac:(vm_compute; discriminate)
           eq_refl eq_refl eq_refl eq_refl).
Defined.

Lemma data_chunk_unknown_datatype_witness :
  data_chunk false true Wire.zlib_decompress Wire.utf8_decode_ignore Wire.Header
    Wire.Data_ParseFromString Wire.StructureData_ParseFromString []
    {| fobj := [x05; x63; x00; x00; x00; x00] ++ [x07]; log := [] |}
  = Raise NotImplementedError_datatype {| fobj := [x07]; log := [] |}.
Proof.
  exact (data_chunk_unknown_datatype false true Wire.zlib_decompress
           Wire.utf8_decode_ignore Wire.Header Wire.Data_ParseFromString
           Wire.StructureData_ParseFromString
           [x63; x00; x00; x00; x00]
           {| Data.dataType := DataType_unknown 99; Data.compress := NONE;
              Data.bigend := false; Data.vdata := false;
              Data.section_range := []; Data.uncompressedSize := 0 |}
           99 [x07] [] [] ltac:(vm_compute; discriminate)
           eq_refl eq_refl eq_refl).
Defined.

Lemma data_chunk_objects_witness :
  data_chunk false true Wire.zlib_decompress Wire.utf8_decode_ignore Wire.Header
    Wire.Data_ParseFromString Wire.StructureData_ParseFromString []
    {| fobj := [x05; x07; x00; x00; x00; x00]
               ++ [x02] ++ [x02; x68; x69; x02; x79; x6f] ++ [x07];
       log := [] |}
  = Ok [MObjects (DBasic NotApplicable KObject 8) [PyStr "hi"; PyStr "yo"]]
       {| fobj := [x07]; log := [] |}.
Proof.
  exact (data_chunk_objects false true Wire.zlib_decompress
           Wire.utf8_decode_ignore Wire.Header Wire.Data_ParseFromString
           Wire.StructureData_ParseFromString
           [x07; x00; x00; x00; x00]
           {| Data.dataType := STRING; Data.compress := NONE;
              Data.bigend := false; Data.vdata := false;
              Data.section_range := []; Data.uncompressedSize := 0 |}
           [[x68; x69]; [x79; x6f]] [x07] [] []
           ltac:(vm_compute; discriminate)
           ltac:(repeat constructor; vm_compute; discriminate)
           eq_refl (or_introl eq_refl) eq_refl).
Defined.

Lemma data_chunk_vdata_witness :
  let header := [x03; x00; x00; x01; x00] in
  let data := {| Data.dataType := INT; Data.compress := NONE;
                 Data.bigend := false; Data.vdata := true;
                 Data.section_range := []; Data.uncompressedSize := 0 |} in
  let run flag source :=
    data_chunk false flag Wire.zlib_decompress Wire.utf8_decode_ignore
      Wire.Header Wire.Data_ParseFromString
      Wire.StructureData_ParseFromString []
      {| fobj := source; log := [] |} in
  let ragged := [x05; x03; x00; x00; x01; x00] ++ [x02]
                ++ [x04; x00; x00; x00; x01;
                    x08; x00; x00; x00; x02; x00; x00; x00; x03]
                ++ [x07] in
  run true ([x05; x03; x00; x00; x01; x00] ++ [x02]
            ++ [x04; x00; x00; x00; x01; x04; x00; x00; x00; x02] ++ [x07])
  = Ok [MArray {| arr_dtype := DBasic Native KInt 4;
                  arr_shape := [2%N; 1%N];
                  arr_data := [EInt 1; EInt 2] |}]
       {| fobj := [x07]; log := [] |}
  /\ run true ragged
     = Ok [MVlen [{| arr_dtype := DBasic Big KInt 4;
                     arr_shape := [1%N];
                     arr_data := [EInt 1] |};
                  {| arr_dtype := DBasic Big KInt 4;
                     arr_shape := [2%N];
                     arr_data := [EInt 2; EInt 3] |}]]
          {| fobj := [x07]; log := [] |}
  /\ run false ragged
     = Raise ValueError_inhomogeneous {| fobj := [x07]; log := [] |}
  /\ run true ([x05; x03; x00; x00; x01; x00]
               ++ [x01] ++ [x03; x00; x00; x01] ++ [x07])
     = Raise ValueError_frombuffer {| fobj := [x07]; log := [] |}
  /\ run true ([x05; x03; x00; x00; x01; x00]
               ++ [x01] ++ [x04; x00; x00; x00; x01] ++ [x07])
     = Ok [MArray {| arr_dtype := DBasic Big KInt 4;
                     arr_shape := [1%N; 1%N];
                     arr_data := [EInt 1] |}]
          {| fobj := [x07]; log := [] |}.
Proof.
  intros header data run ragged.
  pose (thm flag blocks :=
          data_chunk_vdata false flag Wire.zlib_decompress
            Wire.utf8_decode_ignore Wire.Header Wire.Data_ParseFromString
            Wire.StructureData_ParseFromString header data KInt 4%N blocks
            [x07] [] [] ltac:(vm_compute; discriminate)).
  assert (Hsame : Forall within_maxsize
                    [[x00; x00; x00; x01]; [x00; x00; x00; x02]])
    by (repeat constructor; vm_compute; discriminate).
  assert (Hrag : Forall within_maxsize
                   [[x00; x00; x00; x01];
                    [x00; x00; x00; x02; x00; x00; x00; x03]])
    by (repeat constructor; vm_compute; discriminate).
  assert (Hbad : Forall within_maxsize [[x00; x00; x01]])
    by (repeat constructor; vm_compute; discriminate).
  assert (Hone : Forall within_maxsize [[x00; x00; x00; x01]])
    by (repeat constructor; vm_compute; discriminate).
  split; [|split; [|split; [|split]]].
  - refine (proj1 (proj2 (proj2 (thm true _ Hsame eq_refl eq_refl eq_refl
                                   ltac:(discriminate)) _)
                         _ _ eq_refl) _); repeat constructor.
  - refine (proj2 (proj2 (proj2 (thm true _ Hrag eq_refl eq_refl eq_refl
                                   ltac:(discriminate)) _)
                         _ _ eq_refl) _); [repeat constructor|].
    apply Exists_cons_hd. discriminate.
  - refine (proj2 (proj2 (proj2 (thm false _ Hrag eq_refl eq_refl eq_refl
                                   ltac:(discriminate)) _)
                         _ _ eq_refl) _); [repeat constructor|].
    apply Exists_cons_hd. discriminate.
  - refine (proj1 (thm true _ Hbad eq_refl eq_refl eq_refl
                     ltac:(discriminate)) _).
    apply Exists_cons_hd. discriminate.
  - refine (proj1 (proj2 (proj2 (thm true _ Hone eq_refl eq_refl eq_refl
                                   ltac:(discriminate)) _)
                         _ _ eq_refl) _); repeat constructor.
Defined.

Lemma read_ncstream_messages_ends_witness :
  Wire.decode (MAGIC_HEADER ++ [x01; x0a]) <> OutOfFuel
  /\ fobj {| fobj := []; log := [] |} = [].
Proof.
  pose proof (read_ncstream_messages_ends false true Wire.zlib_decompress
                Wire.utf8_decode_ignore Wire.Header Wire.Header_new
                Wire.Header_ParseFromString Wire.Data_ParseFromString
                Wire.StructureData_ParseFromString Wire.Error_ParseFromString
                (MAGIC_HEADER ++ [x01; x0a])) as [Hend Hleft].
  split; [exact Hend|].
  exact (Hleft [MHeader [x0a]] {| fobj := []; log := [] |} eq_refl).
Defined.

Lemma read_ncstream_messages_err_witness :
  Wire.decode (MAGIC_HEADER ++ [x01; x0a]
               ++ MAGIC_ERR ++ [x02; x6e; x6f] ++ [x07])
  = Raise (RuntimeError "no") {| fobj := [x07]; log := [] |}.
Proof.
  refine (read_ncstream_messages_err false true Wire.zlib_decompress
            Wire.utf8_decode_ignore Wire.Header Wire.Header_new
            Wire.Header_ParseFromString Wire.Data_ParseFromString
            Wire.StructureData_ParseFromString Wire.Error_ParseFromString
            (MAGIC_HEADER ++ [x01; x0a]
             ++ MAGIC_ERR ++ [x02; x6e; x6f] ++ [x07])
            [x6e; x6f] "no" [x07] [] [MHeader [x0a]] _
            ltac:(vm_compute; discriminate) eq_refl).
  eapply frames_cons; [reflexivity | discriminate | reflexivity |].
  apply frames_nil.
Defined.

Lemma read_ncstream_messages_unknown_magic_witness :
  Wire.decode (MAGIC_HEADER ++ [x01; x0a] ++ [xde; xad; xbe; xef])
  = Ok [MHeader [x0a]]
       {| fobj := []; log := ["Unknown magic: de ad be ef"%string] |}.
Proof.
  refine (proj2 (read_ncstream_messages_unknown_magic false true
            Wire.zlib_decompress
            Wire.utf8_decode_ignore Wire.Header Wire.Header_new
            Wire.Header_ParseFromString Wire.Data_ParseFromString
            Wire.StructureData_ParseFromString Wire.Error_ParseFromString
            (MAGIC_HEADER ++ [x01; x0a] ++ [xde; xad; xbe; xef])
            [xde; xad; xbe; xef] [] [] [MHeader [x0a]] _ eq_refl
            ltac:(discriminate) ltac:(discriminate) ltac:(discriminate))
            eq_refl).
  eapply frames_cons; [reflexivity | discriminate | reflexivity |].
  apply frames_nil.
Defined.

Lemma messages_loop_keeps_witness :
  messages_kept [MHeader [x0a]]
    [MHeader [x0b]; MHeader Wire.Header_new;
     MArray {| arr_dtype := DBasic Big KInt 4;
               arr_shape := [1%N];
               arr_data := [EInt 42] |}].
Proof.
  exact (messages_loop_keeps false true Wire.zlib_decompress
           Wire.utf8_decode_ignore Wire.Header Wire.Header_new
           Wire.Header_ParseFromString Wire.Data_ParseFromString
           Wire.StructureData_ParseFromString Wire.Error_ParseFromString
           3%nat [MHeader [x0a]]
           {| fobj := MAGIC_HEADER ++ [x01; x0b]
                      ++ MAGIC_DATA ++ [x06; x03; x00; x00; x00; x04; x01]
                      ++ [x04; x00; x00; x00; x2a];
              log := [] |}
           [MHeader [x0b]; MHeader Wire.Header_new;
            MArray {| arr_dtype := DBasic Big KInt 4;
                      arr_shape := [1%N];
                      arr_data := [EInt 42] |}]
           {| fobj := []; log := [] |} eq_refl).
Defined.

Lemma read_ncstream_messages_truncated_witness :
  Wire.decode (MAGIC_HEADER ++ [x01; x0a] ++ MAGIC_DATA ++ [x80; xff])
  = Raise TypeError_ord {| fobj := []; log := [] |}.
Proof.
  refine (read_ncstream_messages_truncated false true Wire.zlib_decompress
            Wire.utf8_decode_ignore Wire.Header Wire.Header_new
            Wire.Header_ParseFromString Wire.Data_ParseFromString
            Wire.StructureData_ParseFromString Wire.Error_ParseFromString
            (MAGIC_HEADER ++ [x01; x0a] ++ MAGIC_DATA ++ [x80; xff])
            MAGIC_DATA [x80; xff] [] [MHeader [x0a]] _ (or_introl eq_refl) _).
  - eapply frames_cons; [reflexivity | discriminate | reflexivity |].
    apply frames_nil.
  - repeat constructor; discriminate.
Defined.

(** ** VarintReader and FrameReader: round trips and bounds *)

Lemma encode_fuel_prefix_high fuel : forall n k,
  (k < length (encode_fuel fuel n))%nat ->
  Forall high_bit_set (take k (encode_fuel fuel n)).
Proof.
  induction fuel as [|fuel IH]; intros n k Hk; [cbn in Hk; lia|].
  cbn [encode_fuel] in *. destruct (n <? 128).
  - destruct k; [constructor|cbn in Hk; lia].
  - destruct k as [|k]; [constructor|]. cbn [take]. constructor.
    + unfold high_bit_set.
      destruct (cont_byte _ (low7_range n)) as (_ & E2 & E3).
      rewrite ord_chr by exact E3. rewrite E2. discriminate.
    + apply IH. cbn [length] in Hk. lia.
Qed.

(** X1.  For every non-negative number, decoding its base-128 encoding
    gives the number back and leaves the bytes after the encoding
    unread; decoding any proper prefix of the encoding fails with the
    truncation error. *)
Theorem read_var_int_round_trip n :
  0 <= n ->
  (forall rest, read_var_int (encode_var_int n ++ rest) = Done (n, rest))
  /\ (forall k,
        (k < length (encode_var_int n))%nat ->
        read_var_int (take k (encode_var_int n)) = Throw TypeError_ord).
Proof.
  intros Hn. split.
  - intros rest. apply read_var_int_encode, Hn.
  - intros k Hk. apply read_var_int_loop_truncated.
    apply encode_fuel_prefix_high, Hk.
Qed.

Lemma read_var_int_round_trip_witness :
  read_var_int (encode_var_int 300 ++ [x07]) = Done (300, [x07])
  /\ read_var_int (take 1 (encode_var_int 300)) = Throw TypeError_ord.
Proof.
  destruct (read_var_int_round_trip 300 ltac:(lia)) as [Hfull Hcut].
  split; [apply Hfull|apply Hcut; vm_compute; lia].
Defined.

Lemma lor_below a b n :
  0 <= n -> 0 <= a < 2 ^ n -> 0 <= b < 2 ^ n -> 0 <= Z.lor a b < 2 ^ n.
Proof.
  intros Hn Ha Hb. split; [apply Z.lor_nonneg; lia|].
  destruct (Z.eq_dec n 0) as [->|Hn0].
  { rewrite Z.pow_0_r in *. replace a with 0 by lia. replace b with 0 by lia.
    rewrite Z.lor_0_l. lia. }
  destruct (Z.eq_dec (Z.lor a b) 0) as [->|Hne]; [lia|].
  assert (0 <= Z.lor a b) by (apply Z.lor_nonneg; lia).
  apply Z.log2_lt_pow2; [lia|].
  rewrite Z.log2_lor by lia.
  apply Z.max_lub_lt.
  - destruct (Z.eq_dec a 0) as [->|]; [cbn; lia|]. apply Z.log2_lt_pow2; lia.
  - destruct (Z.eq_dec b 0) as [->|]; [cbn; lia|]. apply Z.log2_lt_pow2; lia.
Qed.

Lemma read_var_int_loop_bound bs : forall val shift v rest,
  0 <= shift -> 0 <= val < 2 ^ shift ->
  read_var_int_loop bs val shift = Done (v, rest) ->
  exists used,
    bs = used ++ rest /\ used <> []
    /\ 0 <= v < 2 ^ (shift + 7 * Z.of_nat (length used)).
Proof.
  induction bs as [|b bs IH]; intros val shift v rest Hs Hval H;
    [discriminate|].
  cbn [read_var_int_loop] in H.
  assert (Hacc : 0 <= Z.lor (Z.shiftl (Z.land (ord b) 0x7F) shift) val
                 < 2 ^ (shift + 7)).
  { pose proof (low7_range (ord b)) as Hlow.
    assert (Hp : 2 ^ (shift + 7) = 2 ^ shift * 128).
    { rewrite Z.pow_add_r by lia. reflexivity. }
    assert (0 < 2 ^ shift) by (apply Z.pow_pos_nonneg; lia).
    apply lor_below; [lia| |nia].
    rewrite Z.shiftl_mul_pow2 by lia. nia. }
  destruct (Z.land (ord b) 128 =? 0).
  - injection H as <- <-. exists [b]. split; [reflexivity|].
    split; [discriminate|]. cbn [length]. exact Hacc.
  - assert (Hs' : 0 <= shift + 7) by lia.
    destruct (IH _ _ _ _ Hs' Hacc H) as (used & -> & _ & Hv).
    exists (b :: used). split; [reflexivity|]. split; [discriminate|].
    cbn [length]. replace (shift + 7 * Z.of_nat (S (length used)))
      with (shift + 7 + 7 * Z.of_nat (length used)) by lia.
    exact Hv.
Qed.

(** X2.  When [read_var_int] returns, it has read a non-empty prefix of
    the source and left the rest; the value is non-negative and below
    two to the power of seven times the number of bytes read. *)
Theorem read_var_int_bound src v rest :
  read_var_int src = Done (v, rest) ->
  exists used,
    src = used ++ rest /\ used <> []
    /\ 0 <= v < 2 ^ (7 * Z.of_nat (length used)).
Proof.
  intros H. apply (read_var_int_loop_bound src 0 0 v rest); [lia|cbn; lia|].
  exact H.
Qed.

Lemma read_var_int_bound_witness :
  exists used,
    [xac; x02; x07] = used ++ [x07] /\ used <> []
    /\ 0 <= 300 < 2 ^ (7 * Z.of_nat (length used)).
Proof. apply (read_var_int_bound [xac; x02; x07] 300 [x07] eq_refl). Defined.

Lemma read_block_Ok w block w' :
  read_block w = Ok block w' ->
  log w' = log w
  /\ exists used, fobj w = used ++ fobj w' /\ used <> [].
Proof.
  unfold read_block. intros H.
  apply bind_Ok_inv in H as (num & w1 & Hnum & Hread).
  unfold read_var_int_M in Hnum.
  destruct (read_var_int (fobj w)) as [[val rest]|] eqn:Ev; [|discriminate].
  injection Hnum as -> <-.
  destruct (read_var_int_loop_bound _ 0 0 _ _ ltac:(lia) ltac:(cbn; lia) Ev)
    as (used & E & Hne & _).
  unfold read in Hread. cbn [fobj log] in Hread.
  destruct (negb (is_ssize num)); [discriminate|].
  destruct (num <? 0); injection Hread as _ <-; cbn [fobj log];
    (split; [reflexivity|]).
  - exists (used ++ rest). rewrite app_nil_r. split; [exact E|].
    destruct used; [contradiction|discriminate].
  - exists (used ++ take (Z.to_nat num) rest). rewrite <- app_assoc, take_drop.
    split; [exact E|]. destruct used; [contradiction|discriminate].
Qed.

(** X3.  A list of blocks that bytes objects can hold, each written as
    the varint of its length followed by its bytes, is read back by
    [read_blocks] exactly and the bytes after it stay unread.  On any
    source, when [read_blocks] returns it returns as many blocks as were
    asked for, has logged nothing, and has read a prefix of the source
    with at least one byte for each block. *)
Theorem read_blocks_round_trip :
  (forall blocks rest lg,
     Forall within_maxsize blocks ->
     read_blocks (length blocks)
       {| fobj := concat (map block_bytes blocks) ++ rest; log := lg |}
     = Ok blocks {| fobj := rest; log := lg |})
  /\ (forall n w blocks w',
        read_blocks n w = Ok blocks w' ->
        length blocks = n /\ log w' = log w
        /\ exists used,
             fobj w = used ++ fobj w' /\ (n <= length used)%nat).
Proof.
  split; [intros blocks rest lg; apply read_blocks_framed|].
  induction n as [|n IH]; intros w blocks w' H.
  - injection H as <- <-. repeat split. exists []. split; [reflexivity|].
    cbn. lia.
  - cbn [read_blocks] in H.
    apply bind_Ok_inv in H as (b & w1 & Hb & H).
    apply bind_Ok_inv in H as (bs & w2 & Hbs & H).
    injection H as <- <-.
    destruct (read_block_Ok _ _ _ Hb) as (Hl1 & u1 & E1 & Hne).
    destruct (IH _ _ _ Hbs) as (Hlen & Hl2 & u2 & E2 & Hn).
    split; [cbn; lia|]. split; [congruence|].
    exists (u1 ++ u2). rewrite <- app_assoc, <- E2. split; [exact E1|].
    rewrite length_app. destruct u1; [contradiction|]. cbn [length]. lia.
Qed.

Lemma read_blocks_round_trip_witness :
  read_blocks 2
    {| fobj := [x01; xaa; x02; xbb; xcc; x07]; log := [] |}
  = Ok [[xaa]; [xbb; xcc]] {| fobj := [x07]; log := [] |}
  /\ length [[xaa]; [xbb; xcc]] = 2%nat.
Proof.
  split.
  - apply (proj1 read_blocks_round_trip [[xaa]; [xbb; xcc]] [x07] []).
    repeat constructor; vm_compute; discriminate.
  - apply (proj2 read_blocks_round_trip 2%nat
             {| fobj := [x01; xaa; x02; xbb; xcc; x07]; log := [] |}
             [[xaa]; [xbb; xcc]] {| fobj := [x07]; log := [] |} eq_refl).
Defined.
